(** * opengl_patcher: a shallow embedding and its verified properties

    The program is a sequence of file-system and sub-process operations
    driven by a static table of applications.  It is embedded here as
    state-passing functions over an explicit model of the file system, of
    the printed output and of the external tools, in a small monad whose
    outcomes are the three ways a Python call can end: a value, an
    exception, or [sys.exit]. *)

From Stdlib Require Import String Ascii List ZArith Lia Bool.
From stdpp Require Import base gmap strings list fin_maps.
Import ListNotations.

Local Open Scope string_scope.
Local Open Scope list_scope.

(** ** Strings as Python uses them *)

Module Str.

(** [str.lower] on the ASCII range; bytes outside A-Z are left alone. *)
Definition lower_ascii (c : ascii) : ascii :=
  let n := nat_of_ascii c in
  if (65 <=? n)%nat && (n <=? 90)%nat then ascii_of_nat (n + 32) else c.

Fixpoint lower (s : string) : string :=
  match s with
  | EmptyString => EmptyString
  | String c r => String (lower_ascii c) (lower r)
  end.

(** [s.replace(a, b)] for one-character [a] and [b]. *)
Fixpoint replace (a b : ascii) (s : string) : string :=
  match s with
  | EmptyString => EmptyString
  | String c r => String (if Ascii.eqb c a then b else c) (replace a b r)
  end.

(** [sep.join(l)]. *)
Fixpoint join (sep : string) (l : list string) : string :=
  match l with
  | [] => ""
  | [x] => x
  | x :: r => x ++ sep ++ join sep r
  end.

Definition slash : ascii := "/"%char.

(** [s.rstrip('/')]. *)
Fixpoint rstrip_slash (s : string) : string :=
  match s with
  | EmptyString => EmptyString
  | String c r =>
      match rstrip_slash r with
      | EmptyString => if Ascii.eqb c slash then EmptyString else String c EmptyString
      | r' => String c r'
      end
  end.

(** [posixpath.split]: the part up to and including the last slash, and the
    part after it. *)
Fixpoint split_last_slash (s : string) : string * string :=
  match s with
  | EmptyString => (EmptyString, EmptyString)
  | String c r =>
      let '(h, t) := split_last_slash r in
      match h with
      | EmptyString =>
          if Ascii.eqb c slash then (String c EmptyString, t)
          else (EmptyString, String c t)
      | _ => (String c h, t)
      end
  end.

(** [head.rstrip('/')] unless [head] consists of slashes only. *)
Definition trim_head (h : string) : string :=
  match rstrip_slash h with
  | EmptyString => h
  | h' => h'
  end.

Definition split (p : string) : string * string :=
  let '(h, t) := split_last_slash p in (trim_head h, t).

Definition dirname (p : string) : string := fst (split p).
Definition basename (p : string) : string := snd (split_last_slash p).

Definition ends_with_slash (s : string) : bool :=
  match split_last_slash s with
  | (String _ _, EmptyString) => true
  | _ => false
  end.

(** [os.path.join(a, b)] for a relative [b]. *)
Definition path_join (a b : string) : string :=
  if ends_with_slash a then a ++ b
  else match a with EmptyString => b | _ => a ++ "/" ++ b end.

(** The last character, if any. *)
Fixpoint last_char (s : string) : option ascii :=
  match s with
  | EmptyString => None
  | String c EmptyString => Some c
  | String _ r => last_char r
  end.

(** [no_slash s]: the character [/] does not occur in [s]. *)
Fixpoint no_slash (s : string) : bool :=
  match s with
  | EmptyString => true
  | String c r => negb (Ascii.eqb c slash) && no_slash r
  end.

(** A decimal digit. *)
Definition is_digit (c : ascii) : bool :=
  let n := nat_of_ascii c in (48 <=? n)%nat && (n <=? 57)%nat.

End Str.

(** ** The platform: file system, clock, output, external tools *)

(** The Python exceptions the program can meet.  All of them are instances
    of [Exception]; [PermissionError] is the one the program singles out. *)
Inductive exn : Type :=
  | PermissionError
  | FileNotFoundError
  | FileExistsError
  | IsADirectoryError
  | NotADirectoryError
  | SameFileError
  | ShutilError
  | OSError
  | CalledProcessError.

Definition exn_eqb (a b : exn) : bool :=
  match a, b with
  | PermissionError, PermissionError
  | FileNotFoundError, FileNotFoundError
  | FileExistsError, FileExistsError
  | IsADirectoryError, IsADirectoryError
  | NotADirectoryError, NotADirectoryError
  | SameFileError, SameFileError
  | ShutilError, ShutilError
  | OSError, OSError
  | CalledProcessError, CalledProcessError => true
  | _, _ => false
  end.

(** The text [str(e)] interpolated into messages, abbreviated to the class
    name. *)
Definition exn_text (x : exn) : string :=
  match x with
  | PermissionError => "PermissionError"
  | FileNotFoundError => "FileNotFoundError"
  | FileExistsError => "FileExistsError"
  | IsADirectoryError => "IsADirectoryError"
  | NotADirectoryError => "NotADirectoryError"
  | SameFileError => "SameFileError"
  | ShutilError => "Error"
  | OSError => "OSError"
  | CalledProcessError => "CalledProcessError"
  end.

(** A path names a regular file (content and permission bits) or a
    directory.  Paths are compared as the strings the program builds. *)
Inductive node : Type :=
  | File (content : string) (mode : Z)
  | Dir.

Definition is_dir_node (n : option node) : bool :=
  match n with Some Dir => true | _ => false end.

(** The calls into the operating system that can be refused. *)
Inductive syscall : Type :=
  | SysMkdir (p : string)
  | SysRead (p : string)
  | SysOpenW (p : string)
  | SysChmod (p : string)
  | SysRename (src dst : string).

Record datetime : Type := {
  year : nat; month : nat; day : nat;
  hour : nat; minute : nat; second : nat
}.

(** What the run does not control: the user's home directory, the script
    name, the clock, the mode of a newly created file, the errors the
    operating system answers a call with (permission denied, disk full,
    missing parent, ...), and the exit of each external tool ([None] is exit
    status 0, [Some CalledProcessError] a non-zero status, anything else a
    tool that could not be started).  The tools' own writes to the disk are
    outside the model. *)
Record Env : Type := {
  home : string;
  argv0 : string;
  now : datetime;
  create_mode : Z;
  fault : syscall -> option exn;
  proc : list string -> option exn
}.

Record World : Type := {
  fs : gmap string node;
  out : list string;
  procs : list (list string)
}.

Definition set_fs (w : World) (m : gmap string node) : World :=
  {| fs := m; out := out w; procs := procs w |}.

(** How a call ends. *)
Inductive outcome (A : Type) : Type :=
  | Ret (a : A)
  | Raise (x : exn)
  | Exit (code : Z).
Arguments Ret {A} a.
Arguments Raise {A} x.
Arguments Exit {A} code.

Definition M (A : Type) : Type := World -> outcome A * World.

Definition ret {A} (a : A) : M A := fun w => (Ret a, w).
Definition raise {A} (x : exn) : M A := fun w => (Raise x, w).
Definition sys_exit {A} (code : Z) : M A := fun w => (Exit code, w).

Definition bind {A B} (m : M A) (k : A -> M B) : M B :=
  fun w =>
    match m w with
    | (Ret a, w') => k a w'
    | (Raise x, w') => (Raise x, w')
    | (Exit c, w') => (Exit c, w')
    end.

(** [try: m  except Exception as x: h x]; [sys.exit] is not an [Exception]
    and passes through. *)
Definition try_except {A} (m : M A) (h : exn -> M A) : M A :=
  fun w =>
    match m w with
    | (Raise x, w') => h x w'
    | r => r
    end.

Declare Scope prog_scope.
Delimit Scope prog_scope with prog.
Bind Scope prog_scope with M.
Notation "x <- m ;; k" := (bind m (fun x => k))
  (at level 100, m at next level, k at level 200, right associativity)
  : prog_scope.
Notation "m ;; k" := (bind m (fun _ => k))
  (at level 100, k at level 200, right associativity) : prog_scope.
Local Open Scope prog_scope.

Module Os.

Definition print (s : string) : M unit :=
  fun w => (Ret tt, {| fs := fs w; out := out w ++ [s]; procs := procs w |}).

(** [os.path.exists]. *)
Definition path_exists (p : string) : M bool :=
  fun w => (Ret (bool_decide (is_Some (fs w !! p))), w).

(** [os.path.isdir]: the path as it is written or, when nothing has that
    very name, the path without its trailing slashes. *)
Definition norm (p : string) : string := Str.trim_head p.
Definition isdir (p : string) : M bool :=
  fun w =>
    (Ret (match fs w !! p with
          | Some Dir => true
          | Some (File _ _) => false
          | None => is_dir_node (fs w !! norm p)
          end), w).

Section WithEnv.
Variable e : Env.

Definition syscall_gate (c : syscall) : M unit :=
  match fault e c with
  | Some x => raise x
  | None => ret tt
  end.

(** [os.mkdir]. *)
Definition mkdir (p : string) : M unit :=
  syscall_gate (SysMkdir p) ;;
  fun w =>
    match fs w !! p with
    | Some _ => (Raise FileExistsError, w)
    | None => (Ret tt, set_fs w (<[p := Dir]> (fs w)))
    end.

(** [os.makedirs(name, exist_ok=True)], following the library's recursion
    on [os.path.split]; the recursive call is on a strictly shorter path. *)
Fixpoint makedirs_from (fuel : nat) (name : string) : M unit :=
  let '(head0, tail0) := Str.split name in
  let '(head, tail) :=
    match tail0 with
    | EmptyString => Str.split head0
    | _ => (head0, tail0)
    end in
  stop <- (match head, tail, fuel with
           | String _ _, String _ _, S fuel' =>
               ex <- path_exists head ;;
               if ex then ret false
               else
                 try_except (makedirs_from fuel' head)
                   (fun x => if exn_eqb x FileExistsError then ret tt else raise x) ;;
                 ret (String.eqb tail ".")
           | _, _, _ => ret false
           end) ;;
  if stop then ret tt
  else
    try_except (mkdir name)
      (fun x => d <- isdir name ;; if d then ret tt else raise x).

Definition makedirs (name : string) : M unit :=
  makedirs_from (String.length name) name.

(** [open(p, "w")], [write], [close]: creates or truncates a regular
    file. *)
Definition open_write (p content : string) : M unit :=
  syscall_gate (SysOpenW p) ;;
  fun w =>
    match fs w !! p with
    | Some Dir => (Raise IsADirectoryError, w)
    | Some (File _ m) => (Ret tt, set_fs w (<[p := File content m]> (fs w)))
    | None => (Ret tt, set_fs w (<[p := File content (create_mode e)]> (fs w)))
    end.

(** [os.chmod]. *)
Definition chmod (p : string) (mode : Z) : M unit :=
  syscall_gate (SysChmod p) ;;
  fun w =>
    match fs w !! p with
    | Some (File c _) => (Ret tt, set_fs w (<[p := File c mode]> (fs w)))
    | Some Dir => (Ret tt, w)
    | None => (Raise FileNotFoundError, w)
    end.

(** [shutil.copy(src, dst)]: content and permission bits; into [dst] when
    [dst] is a directory. *)
Definition copy (src dst : string) : M unit :=
  d <- isdir dst ;;
  let real_dst := if d then Str.path_join dst (Str.basename src) else dst in
  fun w =>
    match fs w !! src with
    | None => (Raise FileNotFoundError, w)
    | Some Dir => (Raise IsADirectoryError, w)
    | Some (File c m) =>
        if String.eqb src real_dst then (Raise SameFileError, w)
        else
          (syscall_gate (SysRead src) ;;
           open_write real_dst c ;;
           chmod real_dst m) w
    end.

(** [os.rename] of a directory carries everything below it. *)
Definition rekey (src dst k : string) : string :=
  if String.eqb k src then dst
  else if String.prefix (src ++ "/") k
       then dst ++ String.substring (String.length src) (String.length k) k
       else k.

Definition rename_tree (src dst : string) (m : gmap string node)
  : gmap string node :=
  list_to_map (map (fun kn => (rekey src dst (fst kn), snd kn)) (map_to_list m)).

Definition rename (src dst : string) : M unit :=
  syscall_gate (SysRename src dst) ;;
  fun w =>
    match fs w !! src with
    | None => (Raise FileNotFoundError, w)
    | Some (File c m) =>
        match fs w !! dst with
        | Some Dir => (Raise IsADirectoryError, w)
        | _ => (Ret tt, set_fs w (<[dst := File c m]> (delete src (fs w))))
        end
    | Some Dir =>
        match fs w !! dst with
        | Some (File _ _) => (Raise FileExistsError, w)
        | Some Dir => (Raise OSError, w)
        | None => (Ret tt, set_fs w (rename_tree src dst (fs w)))
        end
    end.

(** [shutil.move(src, dst)]: into [dst] when [dst] is a directory, else a
    rename over [dst].  A refused rename is reported as the exception; the
    library's copy-and-delete fallback for moves across devices is not
    modelled. *)
Definition move (src dst : string) : M unit :=
  d <- isdir dst ;;
  if d then
    let real_dst := Str.path_join dst (Str.basename (Str.rstrip_slash src)) in
    ex <- path_exists real_dst ;;
    if ex then raise ShutilError else rename src real_dst
  else rename src dst.

(** [subprocess.run(cmd, check=True)]. *)
Definition run (cmd : list string) : M unit :=
  fun w =>
    let w' := {| fs := fs w; out := out w; procs := procs w ++ [cmd] |} in
    match proc e cmd with
    | Some x => (Raise x, w')
    | None => (Ret tt, w')
    end.

(** [datetime.now().strftime("%Y%m%d_%H%M%S")]. *)
Definition digit (n : nat) : ascii := ascii_of_nat (48 + n mod 10).
Definition two_digits (n : nat) : string :=
  String (digit (n / 10)) (String (digit n) EmptyString).
Definition four_digits (n : nat) : string :=
  String (digit (n / 1000)) (String (digit (n / 100)) (two_digits n)).

Definition strftime (d : datetime) : string :=
  four_digits (year d) ++ two_digits (month d) ++ two_digits (day d) ++ "_"
  ++ two_digits (hour d) ++ two_digits (minute d) ++ two_digits (second d).

(** [os.path.expanduser("~/...")]. *)
Definition expanduser_home (rest : string) : string := home e ++ rest.

End WithEnv.
End Os.

(** ** The program *)

(** One entry of [APPS_TO_PATCH]; [method] is read with
    [app_info.get("method", "patch")], so it may be missing. *)
Record AppInfo : Type := {
  name : string;
  flags : list string;
  executable : string;
  method : option string
}.

Definition mk_app (n : string) (ex : string) (m : string) : AppInfo :=
  {| name := n; flags := ["--use-gl=desktop"]; executable := ex;
     method := Some m |}.

(** The table, in the order the dictionary is declared in. *)
Definition APPS_TO_PATCH : list (string * AppInfo) :=
  [ ("/Applications/Google Chrome.app",
      mk_app "Google Chrome" "Contents/MacOS/Google Chrome" "patch");
    ("/Applications/Discord.app",
      mk_app "Discord" "Contents/MacOS/Discord" "patch");
    ("/Applications/Spotify.app",
      mk_app "Spotify" "Contents/MacOS/Spotify" "script");
    ("/Applications/Visual Studio Code.app",
      mk_app "Visual Studio Code" "Contents/MacOS/Visual Studio Code" "patch");
    ("/Applications/Slack.app",
      mk_app "Slack" "Contents/MacOS/Slack" "patch");
    ("/Applications/Microsoft Teams.app",
      mk_app "Microsoft Teams" "Contents/MacOS/Microsoft Teams" "patch");
    ("/Applications/OBS.app",
      mk_app "OBS Studio" "Contents/MacOS/OBS" "patch") ].

Definition INSTALL_DIR : string := "/usr/local/bin".

Definition nl : string := String (ascii_of_nat 10) EmptyString.
Definition dq : string := String (ascii_of_nat 34) EmptyString.

(** [f'"{flag}"'] *)
Definition quoted (s : string) : string := dq ++ s ++ dq.

(** [' '.join(f'"{flag}"' for flag in flags)] *)
Definition quoted_flags (fl : list string) : string :=
  Str.join " " (map quoted fl).

(** The last line of both generated scripts. *)
Definition exec_line (target : string) (fl : list string) : string :=
  "exec " ++ quoted target ++ " " ++ quoted_flags fl ++ " " ++ quoted "$@".

(** The text of a generated script: shebang, comment, log line, exec line.
    [log] is ["wrapper"] in the bundle and ["launch"] for the launcher. *)
Definition script_text (app_name : string) (fl : list string)
    (target log : string) : string :=
  "#!/bin/bash" ++ nl ++
  "# Launch " ++ app_name ++ " with OpenGL flags" ++ nl ++
  "echo " ++ dq ++ "$(date): Launching " ++ app_name ++ " with flags: "
    ++ Str.join " " fl ++ dq ++ " >> ~/Library/Logs/" ++ app_name ++ "_"
    ++ log ++ ".log" ++ nl ++
  exec_line target fl ++ nl.

Definition bundle_id (app_name : string) : string :=
  "com." ++ Str.replace " " "." (Str.lower app_name) ++ ".opengl".

Definition plist_content (app_name : string) : string :=
  "<?xml version=" ++ dq ++ "1.0" ++ dq ++ " encoding=" ++ dq ++ "UTF-8" ++ dq ++ "?>" ++ nl ++
  "<!DOCTYPE plist PUBLIC " ++ dq ++ "-//Apple//DTD PLIST 1.0//EN" ++ dq ++ " "
    ++ dq ++ "http://www.apple.com/DTDs/PropertyList-1.0.dtd" ++ dq ++ ">" ++ nl ++
  "<plist version=" ++ dq ++ "1.0" ++ dq ++ ">" ++ nl ++
  "<dict>" ++ nl ++
  "    <key>CFBundleExecutable</key>" ++ nl ++
  "    <string>" ++ app_name ++ " OpenGL</string>" ++ nl ++
  "    <key>CFBundleIdentifier</key>" ++ nl ++
  "    <string>com." ++ Str.replace " " "." (Str.lower app_name) ++ ".opengl</string>" ++ nl ++
  "    <key>CFBundleName</key>" ++ nl ++
  "    <string>" ++ app_name ++ " OpenGL</string>" ++ nl ++
  "    <key>CFBundleVersion</key>" ++ nl ++
  "    <string>1.0</string>" ++ nl ++
  "    <key>CFBundlePackageType</key>" ++ nl ++
  "    <string>APPL</string>" ++ nl ++
  "</dict>" ++ nl ++
  "</plist>" ++ nl.

Definition mode_755 : Z := 493.

Section Program.
Variable e : Env.

Definition WRAPPER_DIR : string := Os.expanduser_home e "/Applications".

Definition sudo_hint : string :=
  "Permission denied. Please run with sudo: 'sudo python3 " ++ argv0 e ++ "'".

Definition backup_dir_of (file_path : string) : string :=
  Str.dirname file_path ++ "/Backups".

Definition backup_path_of (file_path : string) : string :=
  backup_dir_of file_path ++ "/" ++ Str.basename file_path ++ ".backup_"
  ++ Os.strftime (now e).

Definition backup_file (file_path : string) : M bool :=
  ex <- Os.path_exists file_path ;;
  if negb ex then
    Os.print ("Error: " ++ file_path ++ " not found.") ;;
    ret false
  else
    let backup_dir := backup_dir_of file_path in
    Os.makedirs e backup_dir ;;
    let backup_path := backup_path_of file_path in
    Os.copy e file_path backup_path ;;
    Os.print ("Backup created: " ++ backup_path) ;;
    ret true.

Definition codesign_cmd (app_path : string) : list string :=
  ["codesign"; "--deep"; "-f"; "-s"; "-"; app_path].

Definition xattr_cmd (app_path : string) : list string :=
  ["xattr"; "-r"; "-d"; "com.apple.quarantine"; app_path].

(** [except subprocess.CalledProcessError as e: h]; any other exception
    keeps propagating. *)
Definition except_called_process {A} (m : M A) (h : exn -> M A) : M A :=
  try_except m
    (fun x => if exn_eqb x CalledProcessError then h x else raise x).

Definition resign_app (app_path app_name : string) : M bool :=
  Os.print ("Resigning " ++ app_name ++ " at " ++ app_path ++ "...") ;;
  signed <- except_called_process
      (Os.run e (codesign_cmd app_path) ;;
       Os.print ("Successfully resigned " ++ app_name ++ ".") ;;
       ret true)
      (fun x =>
         Os.print ("Failed to resign " ++ app_name ++ ": " ++ exn_text x) ;;
         ret false) ;;
  if negb signed then ret false
  else
    Os.print ("Removing quarantine attribute for " ++ app_name ++ "...") ;;
    except_called_process
      (Os.run e (xattr_cmd app_path) ;;
       Os.print ("Quarantine attribute removed for " ++ app_name ++ "."))
      (fun x =>
         Os.print ("Failed to remove quarantine attribute: " ++ exn_text x)) ;;
    ret true.

(** [with open(path, "w") as f: f.write(text)] then [os.chmod(path, 0o755)]. *)
Definition write_script (path text : string) : M unit :=
  Os.open_write e path text ;;
  Os.chmod e path mode_755.

(** The two handlers of the script-writing [try] blocks. *)
Definition on_write_error (msg : string) (x : exn) : M bool :=
  if exn_eqb x PermissionError then
    Os.print sudo_hint ;;
    sys_exit 1
  else
    Os.print (msg ++ exn_text x) ;;
    ret false.

Definition executable_path_of (app_path : string) (app_info : AppInfo) : string :=
  app_path ++ "/" ++ executable app_info.

Definition original_executable_of (app_path : string) (app_info : AppInfo) : string :=
  executable_path_of app_path app_info ++ ".orig".

Definition wrapper_script_of (app_path : string) (app_info : AppInfo) : string :=
  script_text (name app_info) (flags app_info)
    (original_executable_of app_path app_info) "wrapper".

(** [patch_in_bundle] from the point where the wrapper is written. *)
Definition patch_write_and_sign (app_path : string) (app_info : AppInfo) : M bool :=
  let app_name := name app_info in
  let executable_path := executable_path_of app_path app_info in
  let original_executable := original_executable_of app_path app_info in
  written <- try_except
      (write_script executable_path (wrapper_script_of app_path app_info) ;;
       Os.print ("Wrapper script created for " ++ app_name ++ ".") ;;
       ret true)
      (on_write_error ("Error writing wrapper for " ++ app_name ++ ": ")) ;;
  if negb written then ret false
  else
    signed <- resign_app app_path app_name ;;
    if negb signed then
      Os.print ("Restoring original executable for " ++ app_name
                ++ " due to signing failure...") ;;
      Os.move e original_executable executable_path ;;
      ret false
    else ret true.

Definition patch_in_bundle (app_path : string) (app_info : AppInfo) : M bool :=
  let app_name := name app_info in
  let flags := flags app_info in
  let executable_path := executable_path_of app_path app_info in
  Os.print ("Patching " ++ app_name ++ " in-bundle at " ++ executable_path
            ++ " with flags: " ++ Str.join " " flags ++ "...") ;;
  ex <- Os.path_exists executable_path ;;
  if negb ex then
    Os.print ("Skipping " ++ app_name ++ ": Executable not found.") ;;
    ret false
  else
    let original_executable := original_executable_of app_path app_info in
    saved <- Os.path_exists original_executable ;;
    if negb saved then
      backed <- backup_file executable_path ;;
      if negb backed then ret false
      else
        Os.move e executable_path original_executable ;;
        patch_write_and_sign app_path app_info
    else
      Os.print ("Original executable already backed up at "
                ++ original_executable ++ ".") ;;
      patch_write_and_sign app_path app_info.

Definition script_name_of (app_info : AppInfo) : string :=
  Str.replace " " "_" (Str.lower (name app_info)) ++ "_opengl.sh".

Definition script_path_of (app_info : AppInfo) : string :=
  INSTALL_DIR ++ "/" ++ script_name_of app_info.

Definition wrapper_app_path_of (app_info : AppInfo) : string :=
  WRAPPER_DIR ++ "/" ++ name app_info ++ " OpenGL.app".

Definition wrapper_executable_of (app_info : AppInfo) : string :=
  wrapper_app_path_of app_info ++ "/Contents/MacOS/" ++ name app_info ++ " OpenGL".

Definition plist_path_of (app_info : AppInfo) : string :=
  wrapper_app_path_of app_info ++ "/Contents/Info.plist".

Definition icon_path_of (app_path : string) (app_info : AppInfo) : string :=
  app_path ++ "/Contents/Resources/" ++ name app_info ++ ".icns".

Definition launcher_text_of (app_path : string) (app_info : AppInfo) : string :=
  script_text (name app_info) (flags app_info)
    (executable_path_of app_path app_info) "launch".

(** [create_script_and_wrapper] from the point where the executable of the
    wrapper application is written. *)
Definition fill_wrapper_app (app_path : string) (app_info : AppInfo) : M bool :=
  let app_name := name app_info in
  let script_path := script_path_of app_info in
  let wrapper_app_path := wrapper_app_path_of app_info in
  let wrapper_script := ("#!/bin/bash" ++ nl ++ script_path ++ nl)%string in
  let wrapper_executable := wrapper_executable_of app_info in
  written <- try_except
      (write_script wrapper_executable wrapper_script ;;
       ret true)
      (fun x =>
         Os.print ("Error creating wrapper executable for " ++ app_name
                   ++ ": " ++ exn_text x) ;;
         ret false) ;;
  if negb written then ret false
  else
    Os.open_write e (plist_path_of app_info) (plist_content app_name) ;;
    let icon_path := icon_path_of app_path app_info in
    has_icon <- Os.path_exists icon_path ;;
    (if has_icon
     then Os.copy e icon_path (wrapper_app_path ++ "/Contents/Resources/")
     else ret tt) ;;
    Os.print ("Created wrapper app for " ++ app_name ++ " at "
              ++ wrapper_app_path ++ ".") ;;
    ret true.

(** [create_script_and_wrapper] from the point where the wrapper
    application is built. *)
Definition build_wrapper_app (app_path : string) (app_info : AppInfo) : M bool :=
  let wrapper_app_path := wrapper_app_path_of app_info in
  Os.makedirs e (wrapper_app_path ++ "/Contents/MacOS") ;;
  Os.makedirs e (wrapper_app_path ++ "/Contents/Resources") ;;
  fill_wrapper_app app_path app_info.

(** [create_script_and_wrapper] from the point where the launch script is
    created. *)
Definition launch_script_and_wrapper (app_path : string) (app_info : AppInfo)
  : M bool :=
  let app_name := name app_info in
  let script_path := script_path_of app_info in
  Os.print ("Creating launch script for " ++ app_name ++ " at "
            ++ script_path ++ "...") ;;
  written <- try_except
      (write_script script_path (launcher_text_of app_path app_info) ;;
       Os.print ("Launch script created for " ++ app_name ++ ".") ;;
       ret true)
      (on_write_error ("Error creating launch script for " ++ app_name ++ ": ")) ;;
  if negb written then ret false
  else build_wrapper_app app_path app_info.

Definition create_script_and_wrapper (app_path : string) (app_info : AppInfo)
  : M bool :=
  let app_name := name app_info in
  let executable_path := executable_path_of app_path app_info in
  ex <- Os.path_exists executable_path ;;
  if negb ex then
    Os.print ("Skipping " ++ app_name ++ ": Executable not found.") ;;
    ret false
  else
    let original_executable := original_executable_of app_path app_info in
    saved <- Os.path_exists original_executable ;;
    (if saved then
       Os.print ("Reverting prior patch for " ++ app_name ++ "...") ;;
       Os.move e original_executable executable_path
     else ret tt) ;;
    launch_script_and_wrapper app_path app_info.

Definition lsregister_cmd : list string :=
  ["/System/Library/Frameworks/CoreServices.framework/Versions/A/Frameworks/LaunchServices.framework/Versions/A/Support/lsregister";
   "-kill"; "-r"; "-domain"; "local"; "-domain"; "system"; "-domain"; "user"].

Definition reset_launch_services : M unit :=
  Os.print "Resetting Launch Services database..." ;;
  except_called_process
    (Os.run e lsregister_cmd ;;
     Os.print "Launch Services reset complete. Restarting Dock..." ;;
     Os.run e ["killall"; "Dock"])
    (fun x => Os.print ("Failed to reset Launch Services: " ++ exn_text x)).

(** The body of the loop of [main]. *)
Definition process_app (app_path : string) (app_info : AppInfo) : M unit :=
  let method := match method app_info with Some m => m | None => "patch" end in
  if String.eqb method "patch" then
    success <- patch_in_bundle app_path app_info ;;
    if success then
      Os.print (name app_info ++ " patched successfully (in-bundle). Launch normally.")
    else
      Os.print ("Fallback: Could not patch " ++ name app_info ++ " in-bundle.")
  else if String.eqb method "script" then
    success <- create_script_and_wrapper app_path app_info ;;
    if success then
      Os.print (name app_info ++ " set up successfully (external script). Use '~/Applications/"
                ++ name app_info ++ " OpenGL.app'.")
    else
      Os.print ("Failed to set up " ++ name app_info ++ " with external script.")
  else ret tt.

(** [for app_path, app_info in apps.items(): ...] *)
Fixpoint for_each_app (apps : list (string * AppInfo)) : M unit :=
  match apps with
  | [] => ret tt
  | (app_path, app_info) :: rest =>
      process_app app_path app_info ;;
      for_each_app rest
  end.

Definition ensure_dir (d : string) : M unit :=
  ex <- Os.path_exists d ;;
  if negb ex then Os.makedirs e d else ret tt.

(** [main] over a given table. *)
Definition main_on (apps : list (string * AppInfo)) : M unit :=
  Os.print "Patching applications for OpenGL rendering (hybrid method)..." ;;
  ensure_dir INSTALL_DIR ;;
  ensure_dir WRAPPER_DIR ;;
  for_each_app apps ;;
  reset_launch_services ;;
  Os.print "Setup complete. For 'patch' apps, launch normally. For 'script' apps, use '~/Applications/<App Name> OpenGL.app' or '<app_name>_opengl.sh'.".

Definition main : M unit := main_on APPS_TO_PATCH.

End Program.

(** ** Vocabulary of the statements *)

(** The only change from [w] to [w'] is that directories were created at
    paths that did not exist, each a prefix of [name]. *)
Definition grows_dirs (name : string) (w w' : World) : Prop :=
  out w' = out w /\ procs w' = procs w /\
  forall q, fs w' !! q = fs w !! q \/
            (fs w !! q = None /\ fs w' !! q = Some Dir /\
             String.prefix q name = true).

(** [w] and [w'] hold the same at every path except, possibly, [p]. *)
Definition same_except (p : string) (w w' : World) : Prop :=
  forall q, q <> p -> fs w' !! q = fs w !! q.

(** Every outcome of [m] relates the world before to the world after. *)
Definition respects {A} (R : World -> World -> Prop) (m : M A) : Prop :=
  forall w r w', m w = (r, w') -> R w w'.

(** [m] never ends in [sys.exit]. *)
Definition no_exit {A} (m : M A) : Prop :=
  forall w c w', m w <> (Exit c, w').

(** Nothing changed at the paths in [K]. *)
Definition keeps (K : string -> Prop) (w w' : World) : Prop :=
  forall q, K q -> fs w' !! q = fs w !! q.

(** What was at [q] is still there. *)
Definition stays (q : string) (w w' : World) : Prop :=
  forall n, fs w !! q = Some n -> fs w' !! q = Some n.

(** No external tool was started. *)
Definition same_procs (w w' : World) : Prop := procs w' = procs w.

(** No tool was started and nothing changed outside the paths in [T]. *)
Definition touches (T : string -> Prop) (w w' : World) : Prop :=
  same_procs w w' /\ forall q, ~ T q -> fs w' !! q = fs w !! q.

(** [dst] is not taken for a directory. *)
Definition not_a_dir (dst : string) (w : World) : Prop :=
  (exists c m, fs w !! dst = Some (File c m)) \/
  (fs w !! dst = None /\ Os.norm dst = dst).


(** The original binary as the bundle holds it: in the sidecar when there
    is one, at the executable path otherwise. *)
Definition pristine (app_path : string) (app_info : AppInfo) (w : World)
  : option node :=
  match fs w !! original_executable_of app_path app_info with
  | Some n => Some n
  | None => fs w !! executable_path_of app_path app_info
  end.

(** The content of the regular file at [q], if there is one. *)
Definition content_at (w : World) (q : string) : option string :=
  match fs w !! q with
  | Some (File c _) => Some c
  | _ => None
  end.






(** [q] lies inside the bundle [app_path]. *)
Definition inside (app_path q : string) : Prop :=
  String.prefix (app_path ++ "/") q = true.

(** The paths the external-script strategy may create or write: the launch
    script, the directories leading to the wrapper application's
    [Contents/MacOS] and [Contents/Resources], and whatever is below its
    [Contents]. *)
Definition artifact (e : Env) (app_info : AppInfo) (q : string) : Prop :=
  q = script_path_of app_info \/
  String.prefix q (wrapper_app_path_of e app_info ++ "/Contents/MacOS") = true \/
  String.prefix q (wrapper_app_path_of e app_info ++ "/Contents/Resources") = true \/
  String.prefix (wrapper_app_path_of e app_info ++ "/Contents/") q = true.

(** The bundle and what the external-script strategy generates are apart:
    the launch script is not inside the bundle, and neither of the bundle
    and the wrapper application's [Contents] lies inside the other. *)
Definition apart (e : Env) (app_path : string) (app_info : AppInfo) : Prop :=
  String.prefix (app_path ++ "/") (script_path_of app_info) = false /\
  String.prefix (app_path ++ "/")
    (wrapper_app_path_of e app_info ++ "/Contents/") = false /\
  String.prefix (wrapper_app_path_of e app_info ++ "/Contents/")
    (app_path ++ "/") = false.

(** [m] ends in [sys.exit] only with status 1, the advice to use sudo
    being the last line printed. *)
Definition exits_with_hint (e : Env) {A} (m : M A) : Prop :=
  forall w c w', m w = (Exit c, w') ->
                 c = 1%Z /\ last (out w') = Some (sudo_hint e).

(** A date and time whose year has four digits: the range in which
    ["%Y%m%d_%H%M%S"] gives fifteen characters. *)
Definition four_digit_year (d : datetime) : Prop :=
  (1000 <= year d < 10 * 1000)%nat /\ (1 <= month d <= 12)%nat /\
  (1 <= day d <= 31)%nat /\ (hour d <= 23)%nat /\
  (minute d <= 59)%nat /\ (second d <= 59)%nat.

(** ** Runs one after the other *)




(** The three states of a bundle whose original binary is [n]: untouched;
    patched, the binary in the sidecar and the wrapper script in its place;
    stranded, the binary in the sidecar and nothing in its place. *)
Definition unpatched (app_path : string) (app_info : AppInfo) (n : node)
    (w : World) : Prop :=
  fs w !! original_executable_of app_path app_info = None /\
  fs w !! executable_path_of app_path app_info = Some n.

Definition patched_in_bundle (app_path : string) (app_info : AppInfo) (n : node)
    (w : World) : Prop :=
  fs w !! original_executable_of app_path app_info = Some n /\
  exists m, fs w !! executable_path_of app_path app_info
            = Some (File (wrapper_script_of app_path app_info) m).


(** The external script can be set up as far as the directories of the
    wrapper application: the executable exists and has no sidecar, the
    operating system refuses neither the writing of the launch script nor
    the making of a directory, no directory stands where the launch script
    goes and no regular file where the two directories go. *)
Definition launchable (e : Env) (app_path : string) (app_info : AppInfo)
    (w : World) : Prop :=
  is_Some (fs w !! executable_path_of app_path app_info) /\
  fs w !! original_executable_of app_path app_info = None /\
  fault e (SysOpenW (script_path_of app_info)) = None /\
  fault e (SysChmod (script_path_of app_info)) = None /\
  (forall q, fault e (SysMkdir q) = None) /\
  fs w !! script_path_of app_info <> Some Dir /\
  (forall c m, fs w !! (wrapper_app_path_of e app_info ++ "/Contents/MacOS")%string
               <> Some (File c m)) /\
  (forall c m, fs w !! (wrapper_app_path_of e app_info ++ "/Contents/Resources")%string
               <> Some (File c m)).

(** ** A sample installation *)

Module Sample.

Definition clock : datetime :=
  {| year := 2024; month := 3; day := 7; hour := 9; minute := 5; second := 42 |}.

Definition later : datetime :=
  {| year := 2024; month := 3; day := 7; hour := 9; minute := 6; second := 10 |}.

(** Nothing is refused and every tool succeeds. *)
Definition calm : Env :=
  {| home := "/Users/me"; argv0 := "opengl_patcher.py"; now := clock;
     create_mode := 420; fault := fun _ => None; proc := fun _ => None |}.

Definition is_tool (tool : string) (cmd : list string) : bool :=
  match cmd with
  | c :: _ => String.eqb c tool
  | [] => false
  end.

(** A later run in which [codesign] exits with a non-zero status. *)
Definition unsigned : Env :=
  {| home := "/Users/me"; argv0 := "opengl_patcher.py"; now := later;
     create_mode := 420; fault := fun _ => None;
     proc := fun cmd => if is_tool "codesign" cmd
                        then Some CalledProcessError else None |}.

(** A run in which only [xattr] exits with a non-zero status. *)
Definition quarantined : Env :=
  {| home := "/Users/me"; argv0 := "opengl_patcher.py"; now := clock;
     create_mode := 420; fault := fun _ => None;
     proc := fun cmd => if is_tool "xattr" cmd
                        then Some CalledProcessError else None |}.

(** A later run in which everything succeeds. *)
Definition calm_later : Env :=
  {| home := "/Users/me"; argv0 := "opengl_patcher.py"; now := later;
     create_mode := 420; fault := fun _ => None; proc := fun _ => None |}.

Definition discord_path : string := "/Applications/Discord.app".
Definition discord : AppInfo :=
  mk_app "Discord" "Contents/MacOS/Discord" "patch".
Definition discord_exe : string := executable_path_of discord_path discord.
Definition discord_orig : string := original_executable_of discord_path discord.

Definition spotify_path : string := "/Applications/Spotify.app".
Definition spotify : AppInfo :=
  mk_app "Spotify" "Contents/MacOS/Spotify" "script".
Definition spotify_exe : string := executable_path_of spotify_path spotify.
Definition spotify_orig : string := original_executable_of spotify_path spotify.

(** Discord and Spotify are installed, nothing is patched. *)
Definition installed : World :=
  {| fs := list_to_map
       [ ("/", Dir); ("/Applications", Dir);
         ("/Applications/Discord.app", Dir);
         ("/Applications/Discord.app/Contents", Dir);
         ("/Applications/Discord.app/Contents/MacOS", Dir);
         ("/Applications/Discord.app/Contents/MacOS/Discord", File "MACH-O discord" 493);
         ("/Applications/Spotify.app", Dir);
         ("/Applications/Spotify.app/Contents", Dir);
         ("/Applications/Spotify.app/Contents/MacOS", Dir);
         ("/Applications/Spotify.app/Contents/MacOS/Spotify", File "MACH-O spotify" 493);
         ("/usr", Dir); ("/usr/local", Dir); ("/usr/local/bin", Dir);
         ("/Users", Dir); ("/Users/me", Dir); ("/Users/me/Applications", Dir) ];
     out := []; procs := [] |}.

(** The same after a first, successful in-bundle patch of Discord. *)
Definition patched : World :=
  snd (patch_in_bundle calm discord_path discord installed).




(** Spotify patched in the bundle by an earlier configuration. *)
Definition spotify_patched : World :=
  snd (patch_in_bundle calm spotify_path spotify installed).




(** The patched installation after a second, successful run. *)
Definition repatched : World :=
  snd (patch_in_bundle calm_later discord_path discord patched).

(** The patched installation after a second run whose signature failed. *)
Definition resign_failed : World :=
  snd (patch_in_bundle unsigned discord_path discord patched).

(** A later run in which opening [p] for writing is refused with [x]. *)
Definition refusing (p : string) (x : exn) : Env :=
  {| home := "/Users/me"; argv0 := "opengl_patcher.py"; now := later;
     create_mode := 420;
     fault := fun c => match c with
                       | SysOpenW q => if String.eqb q p then Some x else None
                       | _ => None
                       end;
     proc := fun _ => None |}.

(** A later run on a machine where [codesign] cannot be started. *)
Definition no_codesign : Env :=
  {| home := "/Users/me"; argv0 := "opengl_patcher.py"; now := later;
     create_mode := 420; fault := fun _ => None;
     proc := fun cmd => if is_tool "codesign" cmd
                        then Some FileNotFoundError else None |}.

(** A later run in which [lsregister] exits with a non-zero status. *)
Definition no_lsregister : Env :=
  {| home := "/Users/me"; argv0 := "opengl_patcher.py"; now := later;
     create_mode := 420; fault := fun _ => None;
     proc := fun cmd => if is_tool "killall" cmd then None
                        else if is_tool "codesign" cmd then None
                        else if is_tool "xattr" cmd then None
                        else Some CalledProcessError |}.

(** Spotify with an icon in its bundle. *)
Definition with_icon : World :=
  {| fs := <[ "/Applications/Spotify.app/Contents/Resources/Spotify.icns"
              := File "icns spotify" 420 ]> (fs installed);
     out := []; procs := [] |}.

End Sample.

(** * Properties *)

Local Open Scope string_scope.

(** ** Strings and paths *)

Module StrFacts.
Import Str.

Lemma app_cons (x : ascii) (a b : string) : String x a ++ b = String x (a ++ b).
Proof. reflexivity. Qed.

Lemma app_nil_l (b : string) : "" ++ b = b.
Proof. reflexivity. Qed.

Ltac ssimpl := simpl; rewrite ?app_cons, ?app_nil_l.
Ltac ssimpl_in H := simpl in H; rewrite ?app_cons, ?app_nil_l in H.

Lemma app_assoc (a b c : string) : (a ++ b) ++ c = a ++ (b ++ c).
Proof. induction a as [|x a IH]; ssimpl; [reflexivity | now rewrite IH]. Qed.

Lemma app_nil_r (a : string) : a ++ "" = a.
Proof. induction a as [|x a IH]; ssimpl; [reflexivity | now rewrite IH]. Qed.

Lemma length_app (a b : string) :
  String.length (a ++ b) = String.length a + String.length b.
Proof. induction a as [|x a IH]; ssimpl; [reflexivity | simpl; now rewrite IH]. Qed.

Lemma app_inv_head (a b c : string) : a ++ b = a ++ c -> b = c.
Proof.
  induction a as [|x a IH]; ssimpl; intros H; [assumption | injection H; auto].
Qed.

Lemma app_eq_self (a b : string) : a ++ b = a -> b = "".
Proof.
  intros H. apply (f_equal String.length) in H. rewrite length_app in H.
  destruct b; [reflexivity | simpl in H; lia].
Qed.

Lemma app_not_nil (a b : string) : b <> "" -> a ++ b <> "".
Proof. intros Hb. destruct a; ssimpl; [assumption | discriminate]. Qed.

Lemma prefix_nil (s : string) : String.prefix "" s = true.
Proof. now destruct s. Qed.

Lemma prefix_cons (x y : ascii) (a s : string) :
  String.prefix (String x a) (String y s)
  = if ascii_dec x y then String.prefix a s else false.
Proof. reflexivity. Qed.

Lemma prefix_iff (a s : string) :
  String.prefix a s = true <-> exists r, s = a ++ r.
Proof.
  revert s. induction a as [|x a IH]; intros s.
  - rewrite prefix_nil. split; [intros _; now exists s | reflexivity].
  - destruct s as [|y s].
    + split; [discriminate | intros [r Hr]; rewrite app_cons in Hr; discriminate].
    + rewrite prefix_cons. destruct (ascii_dec x y) as [->|Hne].
      * rewrite IH. split; intros [r Hr]; exists r.
        -- rewrite app_cons. now rewrite Hr.
        -- rewrite app_cons in Hr. now injection Hr.
      * split; [discriminate|].
        intros [r Hr]. rewrite app_cons in Hr. injection Hr; congruence.
Qed.

Lemma prefix_refl (a : string) : String.prefix a a = true.
Proof. apply prefix_iff. exists "". now rewrite app_nil_r. Qed.

Lemma prefix_trans (a b c : string) :
  String.prefix a b = true -> String.prefix b c = true -> String.prefix a c = true.
Proof.
  rewrite !prefix_iff. intros [r ->] [r' ->]. exists (r ++ r').
  now rewrite app_assoc.
Qed.

Lemma prefix_app (a r : string) : String.prefix a (a ++ r) = true.
Proof. apply prefix_iff. now exists r. Qed.

(** Two prefixes of one string are comparable. *)
Lemma prefix_comparable (a b s : string) :
  String.prefix a s = true -> String.prefix b s = true ->
  String.prefix a b = true \/ String.prefix b a = true.
Proof.
  revert b s. induction a as [|x a IH]; intros b s Ha Hb.
  - left. apply prefix_nil.
  - destruct b as [|y b]; [right; apply prefix_nil|].
    destruct s as [|z s]; [discriminate|].
    rewrite prefix_cons in Ha, Hb. rewrite !prefix_cons.
    destruct (ascii_dec x z) as [->|]; [|discriminate].
    destruct (ascii_dec y z) as [->|]; [|discriminate].
    destruct (ascii_dec z z); [|congruence]. eauto.
Qed.

Lemma prefix_length (a s : string) :
  String.prefix a s = true -> String.length a <= String.length s.
Proof. rewrite prefix_iff. intros [r ->]. rewrite length_app. lia. Qed.

Lemma last_char_app (a b : string) :
  b <> "" -> last_char (a ++ b) = last_char b.
Proof.
  intros Hb. induction a as [|x a IH]; ssimpl; [reflexivity|].
  simpl. rewrite IH. destruct (a ++ b) eqn:E; [|reflexivity].
  now apply app_not_nil in E.
Qed.

Lemma rstrip_slash_prefix (s : string) : String.prefix (rstrip_slash s) s = true.
Proof.
  induction s as [|c s IH]; simpl; [reflexivity|].
  destruct (rstrip_slash s) eqn:E.
  - destruct (Ascii.eqb c slash); [reflexivity|].
    rewrite ?prefix_cons. simpl.
    destruct (ascii_dec c c); [|congruence]. apply prefix_nil.
  - rewrite ?prefix_cons. simpl.
    destruct (ascii_dec c c); [assumption | congruence].
Qed.

Lemma trim_head_prefix (h : string) : String.prefix (trim_head h) h = true.
Proof.
  unfold trim_head. pose proof (rstrip_slash_prefix h) as H.
  destruct (rstrip_slash h); [apply prefix_refl | exact H].
Qed.

Lemma rstrip_slash_keeps (s : string) (c : ascii) :
  c <> slash -> rstrip_slash (s ++ String c "") = s ++ String c "".
Proof.
  intros Hc. induction s as [|x s IH]; ssimpl.
  - destruct (Ascii.eqb_spec c slash); [contradiction | reflexivity].
  - simpl. rewrite IH. destruct (s ++ String c "") eqn:E; [|reflexivity].
    now apply app_not_nil in E.
Qed.

Lemma trim_head_keeps (s : string) (c : ascii) :
  c <> slash -> trim_head (s ++ String c "") = s ++ String c "".
Proof.
  intros Hc. unfold trim_head. rewrite rstrip_slash_keeps by assumption.
  destruct (s ++ String c "") eqn:E; [|reflexivity]. now apply app_not_nil in E.
Qed.

Lemma no_slash_app (a b : string) :
  no_slash (a ++ b) = no_slash a && no_slash b.
Proof.
  induction a as [|x a IH]; ssimpl; [reflexivity|].
  simpl. rewrite IH. now rewrite andb_assoc.
Qed.

Lemma split_last_slash_app (s : string) :
  fst (split_last_slash s) ++ snd (split_last_slash s) = s.
Proof.
  induction s as [|c s IH]; simpl; [reflexivity|].
  destruct (split_last_slash s) as [h t]. simpl in IH.
  destruct h; ssimpl_in IH.
  - destruct (Ascii.eqb c slash); ssimpl; now rewrite IH.
  - ssimpl. now rewrite IH.
Qed.

Lemma split_last_slash_tail (s : string) :
  no_slash (snd (split_last_slash s)) = true.
Proof.
  induction s as [|c s IH]; simpl; [reflexivity|].
  destruct (split_last_slash s) as [h t]. simpl in IH.
  destruct h; simpl.
  - destruct (Ascii.eqb c slash) eqn:E; simpl; [assumption | now rewrite E].
  - assumption.
Qed.

Lemma basename_no_slash (p : string) : no_slash (basename p) = true.
Proof. apply split_last_slash_tail. Qed.

Lemma split_head_prefix (p : string) : String.prefix (fst (split p)) p = true.
Proof.
  unfold split. pose proof (split_last_slash_app p) as H.
  destruct (split_last_slash p) as [h t]. simpl in *.
  eapply prefix_trans; [apply trim_head_prefix|].
  rewrite <- H. apply prefix_app.
Qed.

Lemma dirname_prefix (p : string) : String.prefix (dirname p) p = true.
Proof. apply split_head_prefix. Qed.

(** Appending a slash-free suffix only extends the base name. *)
Lemma split_last_slash_suffix (s t : string) :
  no_slash t = true ->
  split_last_slash (s ++ t)
  = (fst (split_last_slash s), snd (split_last_slash s) ++ t).
Proof.
  intros Ht. induction s as [|c s IH]; ssimpl.
  - induction t as [|x t IHt]; simpl; [reflexivity|].
    simpl in Ht. apply andb_prop in Ht as [Hx Ht].
    rewrite (IHt Ht). simpl. apply negb_true_iff in Hx. now rewrite Hx.
  - simpl. rewrite IH. destruct (split_last_slash s) as [h u]. simpl.
    destruct h; [destruct (Ascii.eqb c slash)|]; reflexivity.
Qed.

Lemma basename_suffix (s t : string) :
  no_slash t = true -> basename (s ++ t) = basename s ++ t.
Proof. intros Ht. unfold basename. now rewrite split_last_slash_suffix. Qed.

Lemma split_last_slash_after (a b : string) :
  no_slash b = true ->
  split_last_slash (a ++ String slash b) = (a ++ String slash "", b).
Proof.
  intros Hb. induction a as [|c a IH]; ssimpl.
  - simpl. pose proof (split_last_slash_suffix "" b Hb) as H.
    rewrite app_nil_l in H. rewrite H. reflexivity.
  - simpl. rewrite IH. destruct (a ++ String slash "") eqn:E; [|reflexivity].
    now apply app_not_nil in E.
Qed.

Lemma basename_after_slash (a b : string) :
  no_slash b = true -> basename (a ++ "/" ++ b) = b.
Proof.
  intros Hb. unfold basename. change ("/" ++ b) with (String slash b).
  now rewrite split_last_slash_after.
Qed.

Lemma empty_tail_last (s : string) :
  snd (split_last_slash s) = "" -> s <> "" -> last_char s = Some slash.
Proof.
  induction s as [|c s IH]; [congruence|]. intros Ht _.
  pose proof (split_last_slash_app s) as Hs. simpl in Ht.
  destruct (split_last_slash s) as [h t]. simpl in Hs, IH.
  destruct h as [|d h].
  - destruct (Ascii.eqb_spec c slash) as [->|]; simpl in Ht; [|discriminate].
    subst t. rewrite app_nil_l in Hs. now subst s.
  - simpl in Ht. subst t. rewrite app_nil_r in Hs. subst s.
    simpl. apply IH; [reflexivity | discriminate].
Qed.

Lemma ends_with_slash_last (s : string) :
  ends_with_slash s = true -> last_char s = Some slash.
Proof.
  unfold ends_with_slash. pose proof (split_last_slash_app s) as H.
  pose proof (empty_tail_last s) as L.
  destruct (split_last_slash s) as [h t]. simpl in H, L.
  destruct h as [|c h]; [discriminate|]. destruct t; [|discriminate].
  intros _. apply L; [reflexivity|]. rewrite <- H. rewrite app_cons. discriminate.
Qed.

Lemma path_join_plain (a b : string) (c : ascii) :
  c <> slash -> path_join (a ++ String c "") b = (a ++ String c "") ++ "/" ++ b.
Proof.
  intros Hc. unfold path_join.
  destruct (ends_with_slash (a ++ String c "")) eqn:E.
  - apply ends_with_slash_last in E. rewrite last_char_app in E by discriminate.
    simpl in E. congruence.
  - destruct (a ++ String c "") eqn:E'; [now apply app_not_nil in E'|].
    reflexivity.
Qed.

End StrFacts.

(** ** The platform *)

Section OsFacts.
Variable e : Env.

Lemma bind_ret {A B} (m : M A) (k : A -> M B) (w w1 : World) (a : A) :
  m w = (Ret a, w1) -> bind m k w = k a w1.
Proof. intros H. unfold bind. now rewrite H. Qed.

Lemma bind_raise {A B} (m : M A) (k : A -> M B) (w w1 : World) (x : exn) :
  m w = (Raise x, w1) -> bind m k w = (Raise x, w1).
Proof. intros H. unfold bind. now rewrite H. Qed.

Lemma bind_exit {A B} (m : M A) (k : A -> M B) (w w1 : World) (c : Z) :
  m w = (Exit c, w1) -> bind m k w = (Exit c, w1).
Proof. intros H. unfold bind. now rewrite H. Qed.

Lemma path_exists_some (p : string) (n : node) (w : World) :
  fs w !! p = Some n -> Os.path_exists p w = (Ret true, w).
Proof.
  intros H. unfold Os.path_exists. rewrite bool_decide_eq_true_2; [reflexivity|].
  rewrite H. eauto.
Qed.

Lemma path_exists_none (p : string) (w : World) :
  fs w !! p = None -> Os.path_exists p w = (Ret false, w).
Proof.
  intros H. unfold Os.path_exists. rewrite bool_decide_eq_false_2; [reflexivity|].
  rewrite H. intros [? ?]. discriminate.
Qed.

Lemma grows_dirs_refl (name : string) (w : World) : grows_dirs name w w.
Proof. repeat split. intros q. now left. Qed.

Lemma grows_dirs_trans (name : string) (w w1 w2 : World) :
  grows_dirs name w w1 -> grows_dirs name w1 w2 -> grows_dirs name w w2.
Proof.
  intros (Ho & Hp & H) (Ho' & Hp' & H'). repeat split; [congruence..|].
  intros q. destruct (H q) as [E|(N & D & P)], (H' q) as [E'|(N' & D' & P')].
  - left. congruence.
  - right. rewrite <- E. auto.
  - right. rewrite E'. auto.
  - congruence.
Qed.

Lemma grows_dirs_weaken (a b : string) (w w' : World) :
  String.prefix a b = true -> grows_dirs a w w' -> grows_dirs b w w'.
Proof.
  intros Hab (Ho & Hp & H). repeat split; [assumption..|].
  intros q. destruct (H q) as [E|(N & D & P)]; [now left|].
  right. repeat split; try assumption. eapply StrFacts.prefix_trans; eassumption.
Qed.

Lemma grows_dirs_keeps (name : string) (w w' : World) (q : string) (n : node) :
  grows_dirs name w w' -> fs w !! q = Some n -> fs w' !! q = Some n.
Proof. intros (_ & _ & H) Hq. destruct (H q) as [E|(N & _)]; congruence. Qed.

Lemma mkdir_spec (p : string) (w : World) :
  (exists x, Os.mkdir e p w = (Raise x, w)) \/
  (fs w !! p = None /\
   Os.mkdir e p w = (Ret tt, set_fs w (<[p := Dir]> (fs w)))).
Proof.
  unfold Os.mkdir, Os.syscall_gate, bind.
  destruct (fault e (SysMkdir p)) as [x|]; [left; now exists x|].
  unfold ret. destruct (fs w !! p) eqn:E; [left; eauto | right; auto].
Qed.

Lemma mkdir_grows (p : string) (w w' : World) (r : outcome unit) :
  Os.mkdir e p w = (r, w') -> grows_dirs p w w' /\ forall c, r <> Exit c.
Proof.
  intros H. destruct (mkdir_spec p w) as [[x E]|[N E]]; rewrite E in H;
    injection H as <- <-.
  - split; [apply grows_dirs_refl | discriminate].
  - split; [|discriminate]. repeat split. intros q. simpl.
    destruct (decide (p = q)) as [->|Hne].
    + right. rewrite lookup_insert_eq. auto using StrFacts.prefix_refl.
    + left. now rewrite lookup_insert_ne.
Qed.

End OsFacts.

(** ** Relations between the world before and after a call *)

Section Frames.

Global Instance keeps_preorder (K : string -> Prop) : PreOrder (keeps K).
Proof.
  split.
  - intros w q _. reflexivity.
  - intros a b c H1 H2 q Hq. rewrite (H2 q Hq). now apply H1.
Qed.

Global Instance stays_preorder (q : string) : PreOrder (stays q).
Proof.
  split.
  - intros w n H. exact H.
  - intros a b c H1 H2 n H. apply H2. now apply H1.
Qed.

Global Instance same_procs_preorder : PreOrder same_procs.
Proof.
  split.
  - intros w. reflexivity.
  - intros a b c H1 H2. unfold same_procs in *. congruence.
Qed.

Context {R : World -> World -> Prop} `{!PreOrder R}.

Lemma respects_ret {A} (a : A) : respects R (ret a).
Proof. intros w r w' H. injection H as _ <-. reflexivity. Qed.

Lemma respects_raise {A} (x : exn) : respects R (@raise A x).
Proof. intros w r w' H. injection H as _ <-. reflexivity. Qed.

Lemma respects_exit {A} (c : Z) : respects R (@sys_exit A c).
Proof. intros w r w' H. injection H as _ <-. reflexivity. Qed.

Lemma respects_bind {A B} (m : M A) (k : A -> M B) :
  respects R m -> (forall a, respects R (k a)) -> respects R (bind m k).
Proof.
  intros Hm Hk w r w' H. unfold bind in H.
  destruct (m w) as [[a|x|c] w1] eqn:E.
  - transitivity w1; [eapply Hm | eapply Hk]; eassumption.
  - injection H as _ <-. eapply Hm; eassumption.
  - injection H as _ <-. eapply Hm; eassumption.
Qed.

Lemma respects_try {A} (m : M A) (h : exn -> M A) :
  respects R m -> (forall x, respects R (h x)) -> respects R (try_except m h).
Proof.
  intros Hm Hh w r w' H. unfold try_except in H.
  destruct (m w) as [[a|x|c] w1] eqn:E.
  - injection H as _ <-. eapply Hm; eassumption.
  - transitivity w1; [eapply Hm | eapply Hh]; eassumption.
  - injection H as _ <-. eapply Hm; eassumption.
Qed.

Lemma respects_path_exists (p : string) : respects R (Os.path_exists p).
Proof. intros w r w' H. injection H as _ <-. reflexivity. Qed.

Lemma respects_isdir (p : string) : respects R (Os.isdir p).
Proof. intros w r w' H. injection H as _ <-. reflexivity. Qed.

End Frames.

(** ** What each platform call does *)

Section OsEffects.
Variable e : Env.

Lemma open_write_spec (p c : string) (w : World) :
  (exists x, Os.open_write e p c w = (Raise x, w)) \/
  (exists m, Os.open_write e p c w
             = (Ret tt, set_fs w (<[p := File c m]> (fs w)))).
Proof.
  unfold Os.open_write, Os.syscall_gate, bind.
  destruct (fault e (SysOpenW p)) as [x|]; [left; now exists x|].
  unfold ret. destruct (fs w !! p) as [[c0 m|]|]; eauto.
Qed.

Lemma chmod_spec (p : string) (m : Z) (w : World) :
  (exists x, Os.chmod e p m w = (Raise x, w)) \/
  (exists c m0, fs w !! p = Some (File c m0) /\
     Os.chmod e p m w = (Ret tt, set_fs w (<[p := File c m]> (fs w)))) \/
  (fs w !! p = Some Dir /\ Os.chmod e p m w = (Ret tt, w)).
Proof.
  unfold Os.chmod, Os.syscall_gate, bind.
  destruct (fault e (SysChmod p)) as [x|]; [left; now exists x|].
  unfold ret. destruct (fs w !! p) as [[c0 m0|]|]; eauto 6.
Qed.

(** What writing a script at [p] can leave behind. *)
Lemma write_script_spec (p t : string) (w w' : World) (r : outcome unit) :
  write_script e p t w = (r, w') ->
  (exists x, r = Raise x /\
     (w' = w \/ exists m, w' = set_fs w (<[p := File t m]> (fs w)))) \/
  (r = Ret tt /\ w' = set_fs w (<[p := File t mode_755]> (fs w))).
Proof.
  unfold write_script. intros H.
  destruct (open_write_spec p t w) as [[x E]|[m E]].
  - rewrite (bind_raise _ _ _ _ _ E) in H. injection H as <- <-. left. eauto.
  - rewrite (bind_ret _ _ _ _ _ E) in H.
    destruct (chmod_spec p mode_755 (set_fs w (<[p := File t m]> (fs w))))
      as [[x E']|[(c & m0 & L & E')|(L & E')]]; rewrite E' in H;
      injection H as <- <-.
    + left. eauto.
    + right. split; [reflexivity|]. simpl in L. rewrite lookup_insert_eq in L.
      injection L as <- <-. unfold set_fs. simpl. now rewrite insert_insert_eq.
    + simpl in L. rewrite lookup_insert_eq in L. discriminate.
Qed.

Lemma rename_file_spec (src dst c : string) (m : Z) (w : World) :
  fs w !! src = Some (File c m) -> fs w !! dst <> Some Dir ->
  (exists x, Os.rename e src dst w = (Raise x, w)) \/
  Os.rename e src dst w
  = (Ret tt, set_fs w (<[dst := File c m]> (delete src (fs w)))).
Proof.
  intros Hs Hd. unfold Os.rename, Os.syscall_gate, bind.
  destruct (fault e (SysRename src dst)) as [x|]; [left; now exists x|].
  unfold ret. rewrite Hs. destruct (fs w !! dst) as [[c0 m0|]|]; auto.
  congruence.
Qed.

Lemma isdir_not_a_dir (dst : string) (w : World) :
  not_a_dir dst w -> Os.isdir dst w = (Ret false, w).
Proof.
  unfold Os.isdir. intros [(c & m & H)|[H N]]; rewrite H; [reflexivity|].
  rewrite N, H. reflexivity.
Qed.

Lemma move_file_spec (src dst c : string) (m : Z) (w : World) :
  fs w !! src = Some (File c m) -> not_a_dir dst w ->
  (exists x, Os.move e src dst w = (Raise x, w)) \/
  Os.move e src dst w
  = (Ret tt, set_fs w (<[dst := File c m]> (delete src (fs w)))).
Proof.
  intros Hs Hd. unfold Os.move.
  rewrite (bind_ret _ _ _ _ _ (isdir_not_a_dir _ _ Hd)).
  apply rename_file_spec; [assumption|].
  destruct Hd as [(c0 & m0 & H)|[H _]]; congruence.
Qed.

Lemma run_spec (cmd : list string) (w : World) :
  Os.run e cmd w
  = (match proc e cmd with Some x => Raise x | None => Ret tt end,
     {| fs := fs w; out := out w; procs := procs w ++ [cmd] |}).
Proof. unfold Os.run. now destruct (proc e cmd). Qed.

End OsEffects.

(** ** Where each platform call can write *)

Section Footprints.
Variable e : Env.

Global Instance touches_preorder (T : string -> Prop) : PreOrder (touches T).
Proof.
  split.
  - intros w. split; [reflexivity | intros q _; reflexivity].
  - intros a b c [P1 H1] [P2 H2]. split; [unfold same_procs in *; congruence|].
    intros q Hq. rewrite (H2 q Hq). now apply H1.
Qed.

Lemma respects_sub {A} (F R : World -> World -> Prop) (m : M A) :
  (forall w w', F w w' -> R w w') -> respects F m -> respects R m.
Proof. intros HFR Hm w r w' H. eapply HFR, Hm, H. Qed.

Lemma touches_mono (T T' : string -> Prop) (w w' : World) :
  (forall q, T q -> T' q) -> touches T w w' -> touches T' w w'.
Proof. intros HT [P H]. split; [assumption|]. intros q Hq. apply H. auto. Qed.

Lemma touches_keeps (T K : string -> Prop) (w w' : World) :
  (forall q, K q -> ~ T q) -> touches T w w' -> keeps K w w'.
Proof. intros HK [_ H] q Hq. apply H. auto. Qed.

Lemma touches_stays (T : string -> Prop) (q : string) (w w' : World) :
  ~ T q -> touches T w w' -> stays q w w'.
Proof. intros Hq [_ H] n Hn. now rewrite (H q Hq). Qed.

Lemma touches_procs (T : string -> Prop) (w w' : World) :
  touches T w w' -> same_procs w w'.
Proof. now intros [P _]. Qed.

Lemma grows_dirs_keeps_on (name : string) (K : string -> Prop) (w w' : World) :
  (forall q, K q -> String.prefix q name = false) ->
  grows_dirs name w w' -> keeps K w w'.
Proof.
  intros HK (_ & _ & H) q Hq. destruct (H q) as [E|(_ & _ & P)]; [assumption|].
  rewrite (HK q Hq) in P. discriminate.
Qed.

Lemma grows_dirs_stays (name q : string) (w w' : World) :
  grows_dirs name w w' -> stays q w w'.
Proof. intros G n Hn. eapply grows_dirs_keeps; eassumption. Qed.

Lemma grows_dirs_procs (name : string) (w w' : World) :
  grows_dirs name w w' -> same_procs w w'.
Proof. now intros (_ & P & _). Qed.

Lemma print_touches (T : string -> Prop) (s : string) :
  respects (touches T) (Os.print s).
Proof. intros w r w' H. injection H as _ <-. split; [reflexivity | now intros]. Qed.

Lemma syscall_gate_any (R : World -> World -> Prop) `{!PreOrder R} (c : syscall) :
  respects R (Os.syscall_gate e c).
Proof.
  unfold Os.syscall_gate. destruct (fault e c); [apply respects_raise | apply respects_ret].
Qed.

Lemma open_write_touches (p c : string) :
  respects (touches (eq p)) (Os.open_write e p c).
Proof.
  intros w r w' H.
  destruct (open_write_spec e p c w) as [[x E]|[m E]]; rewrite E in H;
    injection H as _ <-; [reflexivity|].
  split; [reflexivity|]. intros q Hq. simpl. now rewrite lookup_insert_ne.
Qed.

Lemma chmod_touches (p : string) (m : Z) :
  respects (touches (eq p)) (Os.chmod e p m).
Proof.
  intros w r w' H.
  destruct (chmod_spec e p m w) as [[x E]|[(c & m0 & L & E)|(L & E)]];
    rewrite E in H; injection H as _ <-; try reflexivity.
  split; [reflexivity|]. intros q Hq. simpl. now rewrite lookup_insert_ne.
Qed.

Lemma write_script_touches (p t : string) :
  respects (touches (eq p)) (write_script e p t).
Proof.
  unfold write_script. apply respects_bind;
    [apply open_write_touches | intros _; apply chmod_touches].
Qed.

(** A copy writes to its target only, and never onto its own source. *)
Lemma copy_touches (src dst : string) :
  respects
    (touches (fun q => q <> src /\
                       (q = dst \/ q = Str.path_join dst (Str.basename src))))
    (Os.copy e src dst).
Proof.
  intros w r w' H. unfold Os.copy, Os.isdir in H. unfold bind at 1 in H.
  set (rd := if (match fs w !! dst with
                 | Some Dir => true | Some (File _ _) => false
                 | None => is_dir_node (fs w !! Os.norm dst) end)
             then Str.path_join dst (Str.basename src) else dst) in H.
  assert (Hrd : rd = dst \/ rd = Str.path_join dst (Str.basename src)).
  { subst rd. destruct (match fs w !! dst with
                 | Some Dir => true | Some (File _ _) => false
                 | None => is_dir_node (fs w !! Os.norm dst) end); auto. }
  clearbody rd.
  destruct (fs w !! src) as [[c m|]|]; try (injection H as _ <-; reflexivity).
  destruct (String.eqb_spec src rd) as [->|Hne];
    [injection H as _ <-; reflexivity|].
  revert H. apply (respects_sub (touches (eq rd))).
  - intros a b. apply touches_mono. intros q <-. split; [congruence|assumption].
  - apply respects_bind; [apply syscall_gate_any; apply _|intros _].
    apply respects_bind; [apply open_write_touches | intros _; apply chmod_touches].
Qed.

Lemma mkdir_respects_grows (p : string) : respects (grows_dirs p) (Os.mkdir e p).
Proof. intros w r w' H. now apply (mkdir_grows e) in H. Qed.

Global Instance grows_dirs_preorder (name : string) : PreOrder (grows_dirs name).
Proof.
  split; [intros w; apply grows_dirs_refl|].
  intros a b c. apply grows_dirs_trans.
Qed.

Lemma makedirs_from_grows (fuel : nat) (name : string) :
  respects (grows_dirs name) (Os.makedirs_from e fuel name).
Proof.
  revert name. induction fuel as [|fuel IH]; intros name.
  - simpl. destruct (Str.split name) as [h0 t0].
    destruct (match t0 with "" => Str.split h0 | String _ _ => (h0, t0) end) as [h t].
    apply respects_bind.
    + destruct h, t; apply respects_ret.
    + intros stop. destruct stop; [apply respects_ret|].
      apply respects_try; [apply mkdir_respects_grows|].
      intros x. apply respects_bind; [apply respects_isdir|].
      intros d. destruct d; [apply respects_ret | apply respects_raise].
  - simpl. pose proof (StrFacts.split_head_prefix name) as P0.
    destruct (Str.split name) as [h0 t0]. simpl in P0.
    assert (P : String.prefix
                  (fst (match t0 with "" => Str.split h0 | String _ _ => (h0, t0) end))
                  name = true).
    { destruct t0; [|exact P0].
      eapply StrFacts.prefix_trans; [apply StrFacts.split_head_prefix | exact P0]. }
    destruct (match t0 with "" => Str.split h0 | String _ _ => (h0, t0) end) as [h t].
    simpl in P.
    apply respects_bind.
    + destruct h as [|hc h]; [apply respects_ret|].
      destruct t as [|tc t]; [apply respects_ret|].
      apply respects_bind; [apply respects_path_exists|].
      intros ex. destruct ex; [apply respects_ret|].
      apply respects_bind; [|intros _; apply respects_ret].
      apply respects_try.
      * eapply respects_sub; [|apply IH].
        intros a b. now apply grows_dirs_weaken.
      * intros x. destruct (exn_eqb x FileExistsError);
          [apply respects_ret | apply respects_raise].
    + intros stop. destruct stop; [apply respects_ret|].
      apply respects_try; [apply mkdir_respects_grows|].
      intros x. apply respects_bind; [apply respects_isdir|].
      intros d. destruct d; [apply respects_ret | apply respects_raise].
Qed.

Lemma makedirs_grows (name : string) :
  respects (grows_dirs name) (Os.makedirs e name).
Proof. apply makedirs_from_grows. Qed.

Lemma run_keeps_fs (cmd : list string) (w w' : World) (r : outcome unit) :
  Os.run e cmd w = (r, w') -> fs w' = fs w.
Proof. rewrite run_spec. now intros [= _ <-]. Qed.

End Footprints.

(** ** The paths the program builds *)

Section Paths.
Import StrFacts.
Variable e : Env.

Lemma digit_is_digit (n : nat) : Str.is_digit (Os.digit n) = true.
Proof.
  unfold Os.digit. pose proof (Nat.mod_upper_bound n 10 ltac:(lia)) as B.
  generalize dependent (n mod 10). intros k B.
  do 10 (destruct k as [|k]; [reflexivity|]). lia.
Qed.

Lemma digit_not_slash (n : nat) : Os.digit n <> Str.slash.
Proof. intros H. pose proof (digit_is_digit n) as D. rewrite H in D. discriminate. Qed.

Lemma digit_eqb_slash (n : nat) : Ascii.eqb (Os.digit n) Str.slash = false.
Proof.
  destruct (Ascii.eqb_spec (Os.digit n) Str.slash) as [E|_]; [|reflexivity].
  now apply digit_not_slash in E.
Qed.

Lemma no_slash_cons (c : ascii) (r : string) :
  Str.no_slash (String c r) = negb (Ascii.eqb c Str.slash) && Str.no_slash r.
Proof. reflexivity. Qed.

Lemma two_digits_no_slash (n : nat) : Str.no_slash (Os.two_digits n) = true.
Proof.
  unfold Os.two_digits. rewrite !no_slash_cons, !digit_eqb_slash. reflexivity.
Qed.

Lemma strftime_no_slash (d : datetime) : Str.no_slash (Os.strftime d) = true.
Proof.
  unfold Os.strftime, Os.four_digits.
  rewrite !no_slash_app, !no_slash_cons, !two_digits_no_slash, !digit_eqb_slash.
  reflexivity.
Qed.

Lemma strftime_last (d : datetime) :
  exists s, Os.strftime d = s ++ String (Os.digit (second d)) "".
Proof.
  unfold Os.strftime.
  exists (Os.four_digits (year d) ++ Os.two_digits (month d) ++ Os.two_digits (day d)
          ++ "_" ++ Os.two_digits (hour d) ++ Os.two_digits (minute d)
          ++ String (Os.digit (second d / 10)) "").
  rewrite !app_assoc. reflexivity.
Qed.

(** The backup path ends in a digit. *)
Lemma backup_path_last (p : string) :
  exists s, backup_path_of e p = s ++ String (Os.digit (second (now e))) "".
Proof.
  unfold backup_path_of. destruct (strftime_last (now e)) as [s ->].
  exists (backup_dir_of p ++ "/" ++ Str.basename p ++ ".backup_" ++ s).
  now rewrite !app_assoc.
Qed.

Lemma orig_last (p : string) : p ++ ".orig" = (p ++ ".ori") ++ String "g" "".
Proof. now rewrite app_assoc. Qed.

Lemma orig_ne (p : string) : p ++ ".orig" <> p.
Proof. intros H. apply app_eq_self in H. discriminate. Qed.

Lemma norm_orig (p : string) : Os.norm (p ++ ".orig") = p ++ ".orig".
Proof. unfold Os.norm. rewrite orig_last. now apply trim_head_keeps. Qed.

Lemma norm_backup_path (p : string) :
  Os.norm (backup_path_of e p) = backup_path_of e p.
Proof.
  unfold Os.norm. destruct (backup_path_last p) as [s ->].
  apply trim_head_keeps, digit_not_slash.
Qed.

Lemma orig_ne_backup_path (p : string) : p ++ ".orig" <> backup_path_of e p.
Proof.
  intros H. apply (f_equal Str.last_char) in H.
  destruct (backup_path_last p) as [s Hs]. rewrite Hs, orig_last in H.
  rewrite !last_char_app in H by discriminate. simpl in H.
  injection H as H. pose proof (digit_is_digit (second (now e))) as D.
  rewrite <- H in D. discriminate.
Qed.

Lemma orig_ne_backup_inside (p : string) :
  p ++ ".orig" <> Str.path_join (backup_path_of e p) (Str.basename p).
Proof.
  intros H. destruct (backup_path_last p) as [s Hs].
  rewrite Hs, path_join_plain in H by apply digit_not_slash.
  apply (f_equal Str.basename) in H.
  rewrite basename_suffix in H by reflexivity.
  rewrite basename_after_slash in H by apply basename_no_slash.
  apply app_eq_self in H. discriminate.
Qed.

Lemma orig_not_under_backup_dir (p : string) :
  String.prefix (p ++ ".orig") (backup_dir_of p) = false.
Proof.
  destruct (String.prefix (p ++ ".orig") (backup_dir_of p)) eqn:E; [|reflexivity].
  exfalso. apply prefix_iff in E as [r Hr].
  pose proof (dirname_prefix p) as D. apply prefix_iff in D as [r0 Hp].
  unfold backup_dir_of in Hr. rewrite Hp in Hr at 2.
  rewrite !app_assoc in Hr. apply app_inv_head in Hr.
  clear Hp. revert Hr.
  do 8 (destruct r0 as [|? r0]; rewrite ?app_cons, ?app_nil_l;
        [discriminate|]; intros Hr; injection Hr as _ Hr; revert Hr).
  destruct r0; rewrite ?app_cons, ?app_nil_l; discriminate.
Qed.

Lemma backup_path_not_under_backup_dir (p : string) :
  String.prefix (backup_path_of e p) (backup_dir_of p) = false.
Proof.
  destruct (String.prefix (backup_path_of e p) (backup_dir_of p)) eqn:E; [|reflexivity].
  apply prefix_length in E. unfold backup_path_of in E.
  rewrite !length_app in E. simpl in E. lia.
Qed.

End Paths.

(** ** Calls that never end the process *)

Section NoExit.
Variable e : Env.

Lemma no_exit_ret {A} (a : A) : no_exit (ret a).
Proof. intros w c w' H. discriminate. Qed.

Lemma no_exit_raise {A} (x : exn) : no_exit (@raise A x).
Proof. intros w c w' H. discriminate. Qed.

Lemma no_exit_bind {A B} (m : M A) (k : A -> M B) :
  no_exit m -> (forall a, no_exit (k a)) -> no_exit (bind m k).
Proof.
  intros Hm Hk w c w' H. unfold bind in H.
  destruct (m w) as [[a|x|c0] w1] eqn:E.
  - eapply Hk, H.
  - discriminate.
  - eapply Hm, E.
Qed.

Lemma no_exit_try {A} (m : M A) (h : exn -> M A) :
  no_exit m -> (forall x, no_exit (h x)) -> no_exit (try_except m h).
Proof.
  intros Hm Hh w c w' H. unfold try_except in H.
  destruct (m w) as [[a|x|c0] w1] eqn:E.
  - discriminate.
  - eapply Hh, H.
  - eapply Hm, E.
Qed.

Lemma no_exit_print (s : string) : no_exit (Os.print s).
Proof. intros w c w' H. discriminate. Qed.

Lemma no_exit_path_exists (p : string) : no_exit (Os.path_exists p).
Proof. intros w c w' H. discriminate. Qed.

Lemma no_exit_isdir (p : string) : no_exit (Os.isdir p).
Proof. intros w c w' H. discriminate. Qed.

Lemma no_exit_gate (c : syscall) : no_exit (Os.syscall_gate e c).
Proof.
  unfold Os.syscall_gate. destruct (fault e c); [apply no_exit_raise | apply no_exit_ret].
Qed.

Lemma no_exit_mkdir (p : string) : no_exit (Os.mkdir e p).
Proof.
  intros w c w' H. destruct (mkdir_spec e p w) as [[x E]|[_ E]];
    rewrite E in H; discriminate.
Qed.

Lemma no_exit_open_write (p t : string) : no_exit (Os.open_write e p t).
Proof.
  intros w c w' H. destruct (open_write_spec e p t w) as [[x E]|[m E]];
    rewrite E in H; discriminate.
Qed.

Lemma no_exit_chmod (p : string) (m : Z) : no_exit (Os.chmod e p m).
Proof.
  intros w c w' H.
  destruct (chmod_spec e p m w) as [[x E]|[(c0 & m0 & _ & E)|(_ & E)]];
    rewrite E in H; discriminate.
Qed.

Lemma no_exit_write_script (p t : string) : no_exit (write_script e p t).
Proof.
  apply no_exit_bind; [apply no_exit_open_write | intros _; apply no_exit_chmod].
Qed.

Lemma no_exit_run (cmd : list string) : no_exit (Os.run e cmd).
Proof. intros w c w' H. rewrite run_spec in H. destruct (proc e cmd); discriminate. Qed.

Lemma no_exit_copy (src dst : string) : no_exit (Os.copy e src dst).
Proof.
  unfold Os.copy. apply no_exit_bind; [apply no_exit_isdir|]. intros d w c w' H.
  destruct (fs w !! src) as [[c0 m|]|]; try discriminate.
  destruct (String.eqb src _); [discriminate|].
  revert H. apply no_exit_bind; [apply no_exit_gate|intros _].
  apply no_exit_bind; [apply no_exit_open_write | intros _; apply no_exit_chmod].
Qed.

Lemma no_exit_rename (src dst : string) : no_exit (Os.rename e src dst).
Proof.
  unfold Os.rename. apply no_exit_bind; [apply no_exit_gate|]. intros _ w c w' H.
  destruct (fs w !! src) as [[c0 m|]|]; destruct (fs w !! dst) as [[c1 m1|]|];
    discriminate.
Qed.

Lemma no_exit_move (src dst : string) : no_exit (Os.move e src dst).
Proof.
  unfold Os.move. apply no_exit_bind; [apply no_exit_isdir|]. intros d.
  destruct d; [|apply no_exit_rename].
  apply no_exit_bind; [apply no_exit_path_exists|]. intros ex.
  destruct ex; [apply no_exit_raise | apply no_exit_rename].
Qed.

Lemma no_exit_makedirs_from (fuel : nat) (name : string) :
  no_exit (Os.makedirs_from e fuel name).
Proof.
  revert name. induction fuel as [|fuel IH]; intros name; simpl;
    destruct (Str.split name) as [h0 t0];
    destruct (match t0 with "" => Str.split h0 | String _ _ => (h0, t0) end) as [h t].
  - apply no_exit_bind.
    + destruct h, t; apply no_exit_ret.
    + intros stop. destruct stop; [apply no_exit_ret|].
      apply no_exit_try; [apply no_exit_mkdir|].
      intros x. apply no_exit_bind; [apply no_exit_isdir|].
      intros d. destruct d; [apply no_exit_ret | apply no_exit_raise].
  - apply no_exit_bind.
    + destruct h as [|hc h]; [apply no_exit_ret|].
      destruct t as [|tc t]; [apply no_exit_ret|].
      apply no_exit_bind; [apply no_exit_path_exists|].
      intros ex. destruct ex; [apply no_exit_ret|].
      apply no_exit_bind; [|intros _; apply no_exit_ret].
      apply no_exit_try; [apply IH|].
      intros x. destruct (exn_eqb x FileExistsError);
        [apply no_exit_ret | apply no_exit_raise].
    + intros stop. destruct stop; [apply no_exit_ret|].
      apply no_exit_try; [apply no_exit_mkdir|].
      intros x. apply no_exit_bind; [apply no_exit_isdir|].
      intros d. destruct d; [apply no_exit_ret | apply no_exit_raise].
Qed.

Lemma no_exit_makedirs (name : string) : no_exit (Os.makedirs e name).
Proof. apply no_exit_makedirs_from. Qed.

End NoExit.

(** ** What each function of the program does *)

Ltac run_in H :=
  cbv beta iota zeta delta
    [bind try_except ret raise sys_exit Os.print except_called_process negb] in H;
  cbn [fs out procs set_fs] in H.

Ltac run_goal :=
  cbv beta iota zeta delta
    [bind try_except ret raise sys_exit Os.print except_called_process negb];
  cbn [fs out procs set_fs].

Section Functions.
Variable e : Env.

(** [resign_app] starts the signing tool and, when that succeeded, the
    quarantine tool; it never writes to the disk and never exits. *)
Lemma resign_app_spec (app_path app_name : string) (w w' : World)
    (r : outcome bool) :
  resign_app e app_path app_name w = (r, w') ->
  fs w' = fs w /\
  match proc e (codesign_cmd app_path) with
  | Some x =>
      procs w' = (procs w ++ [codesign_cmd app_path])%list /\
      r = (if exn_eqb x CalledProcessError then Ret false else Raise x)
  | None =>
      procs w' = (procs w ++ [codesign_cmd app_path; xattr_cmd app_path])%list /\
      r = match proc e (xattr_cmd app_path) with
          | None => Ret true
          | Some x => if exn_eqb x CalledProcessError then Ret true else Raise x
          end
  end.
Proof.
  unfold resign_app. intros H. run_in H. rewrite !run_spec in H. run_in H.
  destruct (proc e (codesign_cmd app_path)) as [x|].
  - run_in H. destruct (exn_eqb x CalledProcessError); run_in H;
      injection H as <- <-; auto.
  - run_in H. rewrite run_spec in H. run_in H.
    destruct (proc e (xattr_cmd app_path)) as [x|]; run_in H.
    + destruct (exn_eqb x CalledProcessError); run_in H; injection H as <- <-;
        cbn; rewrite <- ?List.app_assoc; auto.
    + injection H as <- <-. cbn. rewrite <- ?List.app_assoc. auto.
Qed.

End Functions.

Section Backup.
Import StrFacts.
Variable e : Env.

Lemma makedirs_touches (name : string) :
  respects (touches (fun q => String.prefix q name = true)) (Os.makedirs e name).
Proof.
  intros w r w' H. apply makedirs_grows in H. destruct H as (_ & P & G).
  split; [exact P|]. intros q Hq. destruct (G q) as [E|(_ & _ & Pq)]; [assumption|].
  contradiction.
Qed.

Lemma grows_dirs_keeps_at (name q : string) (w w' : World) :
  grows_dirs name w w' -> String.prefix q name = false ->
  fs w' !! q = fs w !! q.
Proof.
  intros (_ & _ & G) Hq. destruct (G q) as [E|(_ & _ & P)]; congruence.
Qed.

(** A copy that returns has put the source's content and mode at [dst],
    unless [dst] is a directory. *)
Lemma copy_ret (src dst c : string) (m : Z) (w w' : World) :
  fs w !! src = Some (File c m) -> not_a_dir dst w ->
  Os.copy e src dst w = (Ret tt, w') ->
  fs w' !! dst = Some (File c m).
Proof.
  intros Hs Hd H. unfold Os.copy in H.
  rewrite (bind_ret _ _ _ _ _ (isdir_not_a_dir _ _ Hd)) in H.
  rewrite Hs in H. destruct (String.eqb src dst); [discriminate|].
  unfold bind at 1 in H.
  destruct (Os.syscall_gate e (SysRead src) w) as [[[]|x|c0] w1] eqn:G;
    try discriminate.
  assert (w1 = w) as ->.
  { unfold Os.syscall_gate in G. destruct (fault e (SysRead src));
      [discriminate | now injection G]. }
  destruct (open_write_spec e dst c w) as [[x E]|[m0 E]].
  - rewrite (bind_raise _ _ _ _ _ E) in H. discriminate.
  - rewrite (bind_ret _ _ _ _ _ E) in H.
    destruct (chmod_spec e dst m (set_fs w (<[dst := File c m0]> (fs w))))
      as [[x E']|[(c1 & m1 & L & E')|(L & E')]]; rewrite E' in H.
    + discriminate.
    + injection H as <-. simpl in *. rewrite lookup_insert_eq in L.
      injection L as <- <-. now rewrite lookup_insert_eq.
    + simpl in L. rewrite lookup_insert_eq in L. discriminate.
Qed.

Lemma copy_not_file (src dst : string) (w w' : World) :
  Os.copy e src dst w = (Ret tt, w') -> exists c m, fs w !! src = Some (File c m).
Proof.
  unfold Os.copy, Os.isdir, bind. intros H.
  destruct (fs w !! src) as [[c m|]|]; [eauto | discriminate..].
Qed.

(** [backup_file] on an existing path: the path and its [.orig] neighbour
    are as before whatever happens, no tool is started, the call returns
    [True] or raises, and a returning call has copied a regular file to the
    backup path. *)
Lemma backup_file_spec (p : string) (n : node) (w w' : World) (r : outcome bool) :
  fs w !! p = Some n ->
  backup_file e p w = (r, w') ->
  same_procs w w' /\
  fs w' !! p = Some n /\
  fs w' !! (p ++ ".orig") = fs w !! (p ++ ".orig") /\
  (r = Ret true \/ exists x, r = Raise x) /\
  (r = Ret true ->
   exists c m, n = File c m /\
     (fs w !! backup_path_of e p <> Some Dir ->
      fs w' !! backup_path_of e p = Some (File c m))).
Proof.
  intros Hp H. unfold backup_file in H.
  rewrite (bind_ret _ _ _ _ _ (path_exists_some _ _ _ Hp)) in H.
  cbv beta iota delta [negb] in H. unfold bind at 1 in H.
  destruct (Os.makedirs e (backup_dir_of p) w) as [[[]|x|c0] w1] eqn:Emk;
    [| | now apply no_exit_makedirs in Emk].
  2:{ injection H as <- <-. pose proof (makedirs_grows e _ _ _ _ Emk) as G.
      repeat split.
      - now apply grows_dirs_procs in G.
      - eapply grows_dirs_keeps; eassumption.
      - eapply grows_dirs_keeps_at; [exact G|apply orig_not_under_backup_dir].
      - right. eauto.
      - discriminate. }
  pose proof (makedirs_grows e _ _ _ _ Emk) as G.
  assert (Hp1 : fs w1 !! p = Some n) by (eapply grows_dirs_keeps; eassumption).
  assert (Ho1 : fs w1 !! (p ++ ".orig") = fs w !! (p ++ ".orig")).
  { eapply grows_dirs_keeps_at; [exact G|apply orig_not_under_backup_dir]. }
  assert (Hb1 : fs w1 !! backup_path_of e p = fs w !! backup_path_of e p).
  { eapply grows_dirs_keeps_at; [exact G|apply backup_path_not_under_backup_dir]. }
  unfold bind at 1 in H.
  destruct (Os.copy e p (backup_path_of e p) w1) as [[[]|x|c0] w2] eqn:Ecp;
    [| | now apply no_exit_copy in Ecp].
  - run_in H. injection H as <- <-. cbn [fs procs].
    pose proof (copy_touches e _ _ _ _ _ Ecp) as [P T].
    repeat split.
    + apply grows_dirs_procs in G. unfold same_procs in *. simpl. congruence.
    + rewrite T; [assumption|]. intros [N _]. congruence.
    + rewrite T; [assumption|]. intros [_ [N|N]].
      * now apply orig_ne_backup_path in N.
      * now apply orig_ne_backup_inside in N.
    + now left.
    + intros _. destruct (copy_not_file _ _ _ _ Ecp) as (c & m & Hc).
      exists c, m. split; [congruence|].
      intros Hnd. eapply copy_ret; [exact Hc| |exact Ecp].
      rewrite <- Hb1 in Hnd. unfold not_a_dir.
      destruct (fs w1 !! backup_path_of e p) as [[c1 m1|]|]; [eauto|congruence|].
      right. split; [reflexivity | apply norm_backup_path].
  - injection H as <- <-.
    pose proof (copy_touches e _ _ _ _ _ Ecp) as [P T].
    repeat split.
    + apply grows_dirs_procs in G. unfold same_procs in *. congruence.
    + rewrite T; [assumption|]. intros [N _]. congruence.
    + rewrite T; [assumption|]. intros [_ [N|N]].
      * now apply orig_ne_backup_path in N.
      * now apply orig_ne_backup_inside in N.
    + right. eauto.
    + discriminate.
Qed.

End Backup.

Section PatchSteps.
Import StrFacts.
Variable e : Env.

Lemma rename_file_exact (src dst c : string) (m : Z) (w : World) :
  fs w !! src = Some (File c m) -> fs w !! dst <> Some Dir ->
  Os.rename e src dst w
  = match fault e (SysRename src dst) with
    | Some x => (Raise x, w)
    | None => (Ret tt, set_fs w (<[dst := File c m]> (delete src (fs w))))
    end.
Proof.
  intros Hs Hd. unfold Os.rename, Os.syscall_gate, bind.
  destruct (fault e (SysRename src dst)) as [x|]; [reflexivity|].
  unfold ret. rewrite Hs. destruct (fs w !! dst) as [[c0 m0|]|]; auto.
  congruence.
Qed.

Lemma move_file_exact (src dst c : string) (m : Z) (w : World) :
  fs w !! src = Some (File c m) -> not_a_dir dst w ->
  Os.move e src dst w
  = match fault e (SysRename src dst) with
    | Some x => (Raise x, w)
    | None => (Ret tt, set_fs w (<[dst := File c m]> (delete src (fs w))))
    end.
Proof.
  intros Hs Hd. unfold Os.move.
  rewrite (bind_ret _ _ _ _ _ (isdir_not_a_dir _ _ Hd)).
  apply rename_file_exact; [assumption|].
  destruct Hd as [(c0 & m0 & H)|[H _]]; congruence.
Qed.

Variables (app_path : string) (app_info : AppInfo).
Let exe := executable_path_of app_path app_info.
Let orig := original_executable_of app_path app_info.
Let wr := wrapper_script_of app_path app_info.

Lemma exe_ne_orig : exe <> orig.
Proof. intros H. symmetry in H. now apply orig_ne in H. Qed.

(** Everything [patch_in_bundle] can do from the point where the wrapper is
    written: the write fails (and the call exits on a permission error,
    returns [False] otherwise), or the wrapper is in place and the outcome
    is decided by the two tools and, after a failed signature, by the move
    that restores the saved executable. *)
Lemma patch_write_and_sign_spec (w w' : World) (r : outcome bool) :
  patch_write_and_sign e app_path app_info w = (r, w') ->
  (exists x w1,
      write_script e exe wr w = (Raise x, w1) /\
      fs w' = fs w1 /\ procs w' = procs w /\
      r = if exn_eqb x PermissionError then Exit 1 else Ret false) \/
  (exists w1,
      fs w1 = <[exe := File wr mode_755]> (fs w) /\
      match proc e (codesign_cmd app_path) with
      | Some x =>
          procs w1 = (procs w ++ [codesign_cmd app_path])%list /\
          if exn_eqb x CalledProcessError then
            exists r1,
              Os.move e orig exe w1 = (r1, w') /\
              r = match r1 with
                  | Ret _ => Ret false
                  | Raise y => Raise y
                  | Exit k => Exit k
                  end
          else r = Raise x /\ w' = w1
      | None =>
          procs w1 = (procs w ++ [codesign_cmd app_path; xattr_cmd app_path])%list /\
          w' = w1 /\
          r = match proc e (xattr_cmd app_path) with
              | None => Ret true
              | Some x => if exn_eqb x CalledProcessError then Ret true else Raise x
              end
      end).
Proof.
  unfold patch_write_and_sign. fold exe orig wr. intros H.
  run_in H.
  destruct (write_script e exe wr w) as [[[]|x|c0] w1] eqn:EW;
    [| | now apply no_exit_write_script in EW].
  - right. apply write_script_spec in EW as [(x & E & _)|[_ ->]]; [discriminate|].
    run_in H.
    match type of H with
    | context [resign_app e app_path ?n ?w0] =>
        destruct (resign_app e app_path n w0) as [rs ws] eqn:ER
    end.
    apply resign_app_spec in ER as [Hfs Hrs]. cbn [fs procs] in Hfs, Hrs.
    destruct (proc e (codesign_cmd app_path)) as [x|].
    + destruct Hrs as [Hp ->].
      destruct (exn_eqb x CalledProcessError).
      * run_in H.
        match type of H with
        | context [Os.move e orig exe ?w0] =>
            exists w0; cbn [fs procs]; repeat split; [exact Hfs | exact Hp |];
            destruct (Os.move e orig exe w0) as [[[]|y|k] wm] eqn:EM
        end.
        -- injection H as <- <-. exists (Ret tt). auto.
        -- injection H as <- <-. exists (Raise y). auto.
        -- injection H as <- <-. exists (Exit k). auto.
      * injection H as <- <-. exists ws. auto.
    + destruct Hrs as [Hp ->]. exists ws. split; [exact Hfs|]. split; [exact Hp|].
      destruct (proc e (xattr_cmd app_path)) as [x|].
      * destruct (exn_eqb x CalledProcessError); injection H as <- <-; auto.
      * injection H as <- <-. auto.
  - left. exists x, w1. unfold on_write_error in H.
    apply write_script_touches in EW as HT. destruct HT as [P _].
    destruct (exn_eqb x PermissionError) eqn:EP; run_in H; injection H as <- <-;
      cbn [fs procs]; auto.
Qed.

End PatchSteps.

Section PatchInBundle.
Import StrFacts.
Variable e : Env.
Variables (app_path : string) (app_info : AppInfo).
Let exe := executable_path_of app_path app_info.
Let orig := original_executable_of app_path app_info.
Let wr := wrapper_script_of app_path app_info.

Lemma patch_in_bundle_missing (w : World) :
  fs w !! exe = None ->
  exists w1, patch_in_bundle e app_path app_info w = (Ret false, w1) /\
             fs w1 = fs w /\ procs w1 = procs w.
Proof.
  intros Hx. unfold patch_in_bundle. fold exe. run_goal.
  rewrite (path_exists_none exe) by exact Hx. run_goal. eauto.
Qed.

Lemma patch_in_bundle_rerun (w : World) (n0 n : node) :
  fs w !! exe = Some n0 -> fs w !! orig = Some n ->
  exists w1, fs w1 = fs w /\ procs w1 = procs w /\
    patch_in_bundle e app_path app_info w
    = patch_write_and_sign e app_path app_info w1.
Proof.
  intros Hx Ho. unfold patch_in_bundle. fold exe orig.
  cbv beta iota zeta delta [bind Os.print].
  rewrite (path_exists_some exe n0) by exact Hx. cbv beta iota delta [negb].
  rewrite (path_exists_some orig n) by exact Ho. cbv beta iota delta [negb].
  eexists. split; [|split; [|reflexivity]]; reflexivity.
Qed.

(** A first patch: either the backup or the move fails and the bundle is as
    it was, or the executable, a regular file, has been copied to the
    backup path and moved to the sidecar before the wrapper is written. *)
Lemma patch_in_bundle_fresh (w w' : World) (n0 : node) (r : outcome bool) :
  fs w !! exe = Some n0 -> fs w !! orig = None ->
  patch_in_bundle e app_path app_info w = (r, w') ->
  (exists x, r = Raise x /\ procs w' = procs w /\
             fs w' !! exe = Some n0 /\ fs w' !! orig = None) \/
  (exists c m wb w2,
      n0 = File c m /\
      fs wb !! exe = Some (File c m) /\ fs wb !! orig = None /\
      (fs w !! backup_path_of e exe <> Some Dir ->
       fs wb !! backup_path_of e exe = Some (File c m)) /\
      fs w2 = <[orig := File c m]> (delete exe (fs wb)) /\
      procs w2 = procs w /\
      patch_write_and_sign e app_path app_info w2 = (r, w')).
Proof.
  intros Hx Ho H. unfold patch_in_bundle in H. fold exe orig in H.
  cbv beta iota zeta delta [bind Os.print] in H.
  rewrite (path_exists_some exe n0) in H by exact Hx.
  cbv beta iota delta [negb] in H.
  rewrite (path_exists_none orig) in H by exact Ho.
  cbv beta iota delta [negb] in H.
  match type of H with
  | context [backup_file e exe ?w0] =>
      destruct (backup_file e exe w0) as [rb wb] eqn:EB;
      apply (backup_file_spec e exe n0) in EB; [|exact Hx]
  end.
  destruct EB as (P & Hx1 & Ho1 & Hr & Hbk). cbn [fs procs] in *.
  unfold same_procs in P. cbn [procs] in P.
  change (exe ++ ".orig") with orig in Ho1. rewrite Ho in Ho1.
  destruct Hr as [->|[x ->]].
  2:{ injection H as <- <-. left. exists x. auto. }
  destruct (Hbk eq_refl) as (c & m & -> & Hb).
  cbv beta iota delta [negb ret] in H.
  assert (ND : not_a_dir orig wb).
  { right. split; [exact Ho1 | apply norm_orig]. }
  rewrite (move_file_exact e exe orig c m wb Hx1 ND) in H.
  destruct (fault e (SysRename exe orig)) as [x|].
  - injection H as <- <-. left. exists x. auto.
  - right. exists c, m, wb, (set_fs wb (<[orig := File c m]> (delete exe (fs wb)))).
    repeat split; try assumption.
Qed.

End PatchInBundle.

Section PatchTheorems.
Import StrFacts.
Variable e : Env.
Variables (app_path : string) (app_info : AppInfo).
Let exe := executable_path_of app_path app_info.
Let orig := original_executable_of app_path app_info.
Let wr := wrapper_script_of app_path app_info.

Lemma patch_write_and_sign_success (w w' : World) :
  patch_write_and_sign e app_path app_info w = (Ret true, w') ->
  fs w' = <[exe := File wr mode_755]> (fs w) /\
  proc e (codesign_cmd app_path) = None.
Proof.
  intros H. apply patch_write_and_sign_spec in H.
  destruct H as [(x & w1 & _ & _ & _ & Hr)|(w1 & Hfs & H)].
  - destruct (exn_eqb x PermissionError); discriminate.
  - destruct (proc e (codesign_cmd app_path)) as [x|].
    + destruct H as [_ H]. destruct (exn_eqb x CalledProcessError).
      * destruct H as ([[]|y|k] & _ & Hr); discriminate.
      * destruct H; discriminate.
    + destruct H as (_ & -> & _). auto.
Qed.

Lemma script_text_exec_line (app_name : string) (fl : list string)
    (target log : string) :
  exists head,
    script_text app_name fl target log
    = head ++ "exec " ++ quoted target ++ " "
      ++ Str.join " " (map quoted fl) ++ " " ++ quoted "$@" ++ nl.
Proof.
  exists ("#!/bin/bash" ++ nl ++
          "# Launch " ++ app_name ++ " with OpenGL flags" ++ nl ++
          "echo " ++ dq ++ "$(date): Launching " ++ app_name ++ " with flags: "
          ++ Str.join " " fl ++ dq ++ " >> ~/Library/Logs/" ++ app_name ++ "_"
          ++ log ++ ".log" ++ nl).
  unfold script_text, exec_line, quoted_flags.
  rewrite !app_assoc. reflexivity.
Qed.

End PatchTheorems.

(** * The claims *)

Section InBundleClaims.
Import StrFacts.
Variable e : Env.
Variables (app_path : string) (app_info : AppInfo).
Let exe := executable_path_of app_path app_info.
Let orig := original_executable_of app_path app_info.
Let wr := wrapper_script_of app_path app_info.

(** C1 (amended).  When [patch_in_bundle] reports success, the executable
    existed, the sidecar [<executable>.orig] afterwards holds the original
    binary -- the very file that was at the executable path when no sidecar
    existed before the run, the sidecar of before the run otherwise -- and
    the executable path holds, with mode 0o755, a script whose last line
    execs the sidecar path with the configured flags, each quoted and in
    configuration order, followed by the caller's arguments. *)
Theorem patch_in_bundle_success (w w' : World) :
  patch_in_bundle e app_path app_info w = (Ret true, w') ->
  is_Some (fs w !! exe) /\
  is_Some (fs w' !! orig) /\
  fs w' !! orig = pristine app_path app_info w /\
  (fs w !! orig = None -> exists c m, fs w !! exe = Some (File c m)) /\
  fs w' !! exe = Some (File wr mode_755) /\
  exists head,
    wr = head ++ "exec " ++ quoted orig ++ " "
         ++ Str.join " " (map quoted (flags app_info)) ++ " " ++ quoted "$@" ++ nl.
Proof.
  intros H. unfold pristine. fold exe orig.
  assert (Hw : exists head,
    wr = head ++ "exec " ++ quoted orig ++ " "
         ++ Str.join " " (map quoted (flags app_info)) ++ " " ++ quoted "$@" ++ nl)
    by apply script_text_exec_line.
  destruct (fs w !! exe) as [n0|] eqn:Hx.
  2:{ destruct (patch_in_bundle_missing e app_path app_info w Hx) as (w1 & E & _).
      rewrite E in H. discriminate. }
  destruct (fs w !! orig) as [n|] eqn:Ho.
  - destruct (patch_in_bundle_rerun e app_path app_info w n0 n Hx Ho)
      as (w1 & Hfs & _ & E).
    rewrite E in H. apply patch_write_and_sign_success in H as [F _].
    fold exe wr in F. rewrite F, Hfs.
    rewrite lookup_insert_ne by apply exe_ne_orig.
    rewrite lookup_insert_eq, Ho. repeat split; eauto. discriminate.
  - apply (patch_in_bundle_fresh e app_path app_info w w' n0) in H; [|assumption..].
    destruct H as [(x & Hr & _)|(c & m & wb & w2 & -> & _ & _ & _ & F2 & _ & H)];
      [discriminate|].
    apply patch_write_and_sign_success in H as [F _]. fold exe wr in F.
    rewrite F, F2. rewrite lookup_insert_ne by apply exe_ne_orig.
    rewrite !lookup_insert_eq. repeat split; eauto.
Qed.

End InBundleClaims.

(** C1, an instance: the first patch of Discord in the sample installation. *)
Lemma patch_in_bundle_success_witness :
  patch_in_bundle Sample.calm Sample.discord_path Sample.discord Sample.installed
  = (Ret true, Sample.patched) /\
  fs Sample.patched !! original_executable_of Sample.discord_path Sample.discord
  = pristine Sample.discord_path Sample.discord Sample.installed.
Proof.
  assert (H : patch_in_bundle Sample.calm Sample.discord_path Sample.discord
                Sample.installed = (Ret true, Sample.patched))
    by (vm_compute; reflexivity).
  split; [exact H|].
  exact (proj1 (proj2 (proj2 (patch_in_bundle_success _ _ _ _ _ H)))).
Defined.

(** C1 as stated fails on a bundle that is already patched: the run reports
    success, yet the sidecar holds the binary and not what the executable
    path held before the run, which was the wrapper. *)
Lemma sidecar_is_not_the_previous_executable :
  is_Some (fs Sample.patched !! Sample.discord_exe) /\
  fst (patch_in_bundle Sample.calm_later Sample.discord_path Sample.discord
         Sample.patched) = Ret true /\
  content_at (snd (patch_in_bundle Sample.calm_later Sample.discord_path
                     Sample.discord Sample.patched)) Sample.discord_orig
  <> content_at Sample.patched Sample.discord_exe.
Proof.
  split; [|split].
  - vm_compute. eauto.
  - vm_compute. reflexivity.
  - vm_compute. intros H. discriminate H.
Qed.

Section RollbackClaims.
Import StrFacts.
Variable e : Env.
Variables (app_path : string) (app_info : AppInfo).
Let exe := executable_path_of app_path app_info.
Let orig := original_executable_of app_path app_info.
Let wr := wrapper_script_of app_path app_info.




(** C3 (amended).  On a bundle that is already patched (its sidecar exists),
    a run of [patch_in_bundle] in which [codesign] does not report failure
    leaves the sidecar as it was and changes nothing but the file at the
    executable path: no second sidecar, no backup, and the original binary
    is kept. *)
Theorem rerun_keeps_the_sidecar (w w' : World) (r : outcome bool) (n : node) :
  fs w !! orig = Some n ->
  proc e (codesign_cmd app_path) <> Some CalledProcessError ->
  patch_in_bundle e app_path app_info w = (r, w') ->
  fs w' !! orig = Some n /\
  forall q, q <> exe -> fs w' !! q = fs w !! q.
Proof.
  intros Ho Hcs H.
  assert (K : forall q, q <> exe -> fs w' !! q = fs w !! q).
  2:{ split; [|exact K]. rewrite K; [exact Ho|].
      intros E. symmetry in E. now apply exe_ne_orig in E. }
  destruct (fs w !! exe) as [n0|] eqn:Hx.
  2:{ destruct (patch_in_bundle_missing e app_path app_info w Hx) as (w1 & E & F & _).
      rewrite E in H. injection H as <- <-. intros q _. now rewrite F. }
  destruct (patch_in_bundle_rerun e app_path app_info w n0 n Hx Ho)
    as (w1 & Hfs & _ & E).
  rewrite E in H. apply patch_write_and_sign_spec in H.
  fold exe orig wr in H.
  destruct H as [(x & w2 & EW & F & _)|(w2 & F & H)].
  - apply write_script_touches in EW as [_ T]. intros q Hq.
    rewrite F, T, Hfs; [reflexivity | congruence].
  - assert (F' : fs w' = fs w2).
    { destruct (proc e (codesign_cmd app_path)) as [x|].
      - destruct H as [_ H]. destruct x; try (destruct H as [_ ->]; reflexivity).
        congruence.
      - destruct H as (_ & -> & _). reflexivity. }
    intros q Hq. rewrite F', F, lookup_insert_ne, Hfs; [reflexivity | congruence].
Qed.

End RollbackClaims.



(** C3, an instance: a second, successful run on the patched sample. *)
Lemma rerun_keeps_the_sidecar_witness :
  fs Sample.patched !! original_executable_of Sample.discord_path Sample.discord
  = Some (File "MACH-O discord" 493) /\
  proc Sample.calm_later (codesign_cmd Sample.discord_path)
  <> Some CalledProcessError /\
  patch_in_bundle Sample.calm_later Sample.discord_path Sample.discord
    Sample.patched = (Ret true, Sample.repatched) /\
  fs Sample.repatched !! original_executable_of Sample.discord_path Sample.discord
  = Some (File "MACH-O discord" 493).
Proof.
  assert (Ho : fs Sample.patched
                 !! original_executable_of Sample.discord_path Sample.discord
               = Some (File "MACH-O discord" 493)) by (vm_compute; reflexivity).
  assert (Hc : proc Sample.calm_later (codesign_cmd Sample.discord_path)
               <> Some CalledProcessError) by discriminate.
  assert (H : patch_in_bundle Sample.calm_later Sample.discord_path Sample.discord
                Sample.patched = (Ret true, Sample.repatched))
    by (vm_compute; reflexivity).
  split; [exact Ho|]. split; [exact Hc|]. split; [exact H|].
  exact (proj1 (rerun_keeps_the_sidecar _ _ _ _ _ _ _ Ho Hc H)).
Defined.

(** C3 as stated fails when the signature of the second run fails: the
    sidecar that held the binary after the first run is gone after the
    second. *)
Lemma failed_rerun_removes_the_sidecar :
  fs Sample.patched !! Sample.discord_orig = Some (File "MACH-O discord" 493) /\
  fs Sample.resign_failed !! Sample.discord_orig = None.
Proof. split; vm_compute; reflexivity. Qed.

Section BackupClaim.
Import StrFacts.
Variable e : Env.
Variables (app_path : string) (app_info : AppInfo).
Let exe := executable_path_of app_path app_info.
Let orig := original_executable_of app_path app_info.
Let wr := wrapper_script_of app_path app_info.


Lemma backup_path_ne (p : string) : backup_path_of e p <> p.
Proof.
  intros H. apply (f_equal Str.basename) in H. unfold backup_path_of in H.
  rewrite basename_after_slash in H.
  - apply app_eq_self in H. discriminate.
  - rewrite !no_slash_app, basename_no_slash, strftime_no_slash. reflexivity.
Qed.

(** From the point where the wrapper is written, with a regular file in the
    sidecar, nothing changes outside the executable path and the sidecar. *)
Lemma patch_write_and_sign_frame (w w' : World) (r : outcome bool)
    (c : string) (m : Z) :
  fs w !! orig = Some (File c m) ->
  patch_write_and_sign e app_path app_info w = (r, w') ->
  forall q, q <> exe -> q <> orig -> fs w' !! q = fs w !! q.
Proof.
  intros Ho H q Hqx Hqo. apply patch_write_and_sign_spec in H.
  fold exe orig wr in H.
  destruct H as [(x & w1 & EW & F & _)|(w1 & F & H)].
  - apply write_script_touches in EW as [_ T]. rewrite F. apply T. congruence.
  - assert (K : fs w1 !! q = fs w !! q) by (rewrite F; now apply lookup_insert_ne).
    destruct (proc e (codesign_cmd app_path)) as [x|].
    + destruct H as [_ H]. destruct (exn_eqb x CalledProcessError).
      * destruct H as (r1 & EM & _).
        rewrite (move_file_exact e orig exe c m w1) in EM.
        -- destruct (fault e (SysRename orig exe)); injection EM as _ <-;
             [exact K|]. cbn [fs set_fs].
           rewrite lookup_insert_ne, lookup_delete_ne by congruence. exact K.
        -- rewrite F, lookup_insert_ne by apply exe_ne_orig. exact Ho.
        -- left. exists wr, mode_755. rewrite F. apply lookup_insert_eq.
      * destruct H as [_ ->]. exact K.
    + destruct H as (_ & -> & _). exact K.
Qed.


End BackupClaim.



Section Orchestrator.
Variable e : Env.
Variables (app_path : string) (app_info : AppInfo).
Let exe := executable_path_of app_path app_info.

Lemma create_script_and_wrapper_missing (w : World) :
  fs w !! exe = None ->
  exists w1, create_script_and_wrapper e app_path app_info w = (Ret false, w1) /\
             fs w1 = fs w /\ procs w1 = procs w.
Proof.
  intros Hx. unfold create_script_and_wrapper. fold exe. run_goal.
  rewrite (path_exists_none exe) by exact Hx. run_goal. eauto.
Qed.




End Orchestrator.



Section ExternalScript.
Import StrFacts.
Variable e : Env.
Variables (app_path : string) (app_info : AppInfo).
Let exe := executable_path_of app_path app_info.
Let orig := original_executable_of app_path app_info.

Lemma bind_ret_inv {A B} (m : M A) (k : A -> M B) (w w' : World) (b : B) :
  bind m k w = (Ret b, w') ->
  exists a w1, m w = (Ret a, w1) /\ k a w1 = (Ret b, w').
Proof.
  unfold bind. destruct (m w) as [[a|x|c] w1]; [eauto | discriminate..].
Qed.


Lemma path_join_cases (a b : string) :
  Str.path_join a b = a ++ b \/ Str.path_join a b = a ++ "/" ++ b.
Proof.
  unfold Str.path_join. destruct (Str.ends_with_slash a); [now left|].
  destruct a; [now left | now right].
Qed.






End ExternalScript.


Section ExternalScriptFrame.
Import StrFacts.
Variable e : Env.
Variables (app_path : string) (app_info : AppInfo).
Let exe := executable_path_of app_path app_info.
Let orig := original_executable_of app_path app_info.
Let wapp := wrapper_app_path_of e app_info.

Lemma under_contents_is_artifact (s : string) :
  artifact e app_info (wapp ++ "/Contents/" ++ s).
Proof.
  right. right. right. fold wapp. rewrite <- app_assoc. apply prefix_app.
Qed.

Lemma touches_artifact_sub (T : string -> Prop) {A} (m : M A) :
  (forall q, T q -> artifact e app_info q) ->
  respects (touches T) m -> respects (touches (artifact e app_info)) m.
Proof.
  intros HT. apply respects_sub. intros w w'. now apply touches_mono.
Qed.

Lemma on_write_error_touches (T : string -> Prop) (msg : string) (x : exn) :
  respects (touches T) (on_write_error e msg x).
Proof.
  unfold on_write_error. destruct (exn_eqb x PermissionError);
    (apply respects_bind; [apply print_touches|intros _]);
    [apply respects_exit | apply respects_ret].
Qed.

Lemma fill_wrapper_app_touches :
  respects (touches (artifact e app_info)) (fill_wrapper_app e app_path app_info).
Proof.
  unfold fill_wrapper_app. fold wapp.
  apply respects_bind.
  - apply respects_try.
    + apply respects_bind; [|intros _; apply respects_ret].
      eapply touches_artifact_sub; [|apply write_script_touches].
      intros q <-. unfold wrapper_executable_of. fold wapp.
      change ("/Contents/MacOS/" ++ name app_info ++ " OpenGL")
        with ("/Contents/" ++ "MacOS/" ++ name app_info ++ " OpenGL").
      apply under_contents_is_artifact.
    + intros x. apply respects_bind; [apply print_touches|intros _; apply respects_ret].
  - intros written. destruct written; cbv beta iota delta [negb]; [|apply respects_ret].
    apply respects_bind.
    { eapply touches_artifact_sub; [|apply open_write_touches].
      intros q <-. unfold plist_path_of. fold wapp.
      change "/Contents/Info.plist" with ("/Contents/" ++ "Info.plist").
      apply under_contents_is_artifact. }
    intros _. apply respects_bind; [apply respects_path_exists|].
    intros ic. apply respects_bind.
    { destruct ic; [|apply respects_ret].
      eapply touches_artifact_sub; [|apply copy_touches].
      intros q [_ [->| ->]].
      - change "/Contents/Resources/" with ("/Contents/" ++ "Resources/").
        apply under_contents_is_artifact.
      - destruct (path_join_cases (wapp ++ "/Contents/Resources/")
                    (Str.basename (icon_path_of app_path app_info))) as [J|J];
          rewrite J, app_assoc;
          change "/Contents/Resources/" with ("/Contents/" ++ "Resources/");
          rewrite app_assoc; apply under_contents_is_artifact. }
    intros _. apply respects_bind; [apply print_touches|intros _; apply respects_ret].
Qed.

Lemma build_wrapper_app_touches :
  respects (touches (artifact e app_info)) (build_wrapper_app e app_path app_info).
Proof.
  unfold build_wrapper_app. fold wapp.
  apply respects_bind.
  { eapply touches_artifact_sub; [|apply makedirs_touches].
    intros q Hq. right. left. exact Hq. }
  intros _. apply respects_bind.
  { eapply touches_artifact_sub; [|apply makedirs_touches].
    intros q Hq. right. right. left. exact Hq. }
  intros _. apply fill_wrapper_app_touches.
Qed.

Lemma launch_script_and_wrapper_touches :
  respects (touches (artifact e app_info))
    (launch_script_and_wrapper e app_path app_info).
Proof.
  unfold launch_script_and_wrapper.
  apply respects_bind; [apply print_touches|intros _].
  apply respects_bind.
  - apply respects_try; [|intros x; apply on_write_error_touches].
    apply respects_bind.
    + eapply touches_artifact_sub; [|apply write_script_touches].
      intros q <-. now left.
    + intros _. apply respects_bind; [apply print_touches|intros _; apply respects_ret].
  - intros written. destruct written; cbv beta iota delta [negb];
      [apply build_wrapper_app_touches | apply respects_ret].
Qed.

Lemma apart_not_artifact (q : string) :
  apart e app_path app_info -> inside app_path q -> ~ artifact e app_info q.
Proof.
  unfold apart, inside, artifact. fold wapp.
  intros (Hs & Hab & Hba) Hq [->|[H|[H|H]]].
  - congruence.
  - pose proof (prefix_trans _ _ _ Hq H) as P.
    assert (Q : String.prefix (wapp ++ "/Contents/") (wapp ++ "/Contents/MacOS") = true).
    { change "/Contents/MacOS" with ("/Contents/" ++ "MacOS").
      rewrite <- app_assoc. apply prefix_app. }
    destruct (prefix_comparable _ _ _ P Q); congruence.
  - pose proof (prefix_trans _ _ _ Hq H) as P.
    assert (Q : String.prefix (wapp ++ "/Contents/") (wapp ++ "/Contents/Resources") = true).
    { change "/Contents/Resources" with ("/Contents/" ++ "Resources").
      rewrite <- app_assoc. apply prefix_app. }
    destruct (prefix_comparable _ _ _ P Q); congruence.
  - destruct (prefix_comparable _ _ _ Hq H); congruence.
Qed.

Lemma exe_inside : inside app_path exe.
Proof. unfold inside, exe, executable_path_of. rewrite <- app_assoc. apply prefix_app. Qed.

Lemma orig_inside : inside app_path orig.
Proof.
  unfold inside, orig, original_executable_of, executable_path_of.
  rewrite !app_assoc. rewrite <- app_assoc. apply prefix_app.
Qed.


End ExternalScriptFrame.


(** * Further properties of the program *)

(** ** [backup_file] *)

Section BackupFile.
Import StrFacts.
Variable e : Env.

Lemma under_backup_dir_path (p : string) :
  String.prefix (backup_dir_of p ++ "/") (backup_path_of e p) = true.
Proof. unfold backup_path_of. rewrite <- app_assoc. apply prefix_app. Qed.

Lemma under_backup_dir_join (p b : string) :
  String.prefix (backup_dir_of p ++ "/") (Str.path_join (backup_path_of e p) b)
  = true.
Proof.
  eapply prefix_trans; [apply under_backup_dir_path|].
  destruct (path_join_cases (backup_path_of e p) b) as [-> | ->]; apply prefix_app.
Qed.

Lemma no_exit_backup_file (p : string) : no_exit (backup_file e p).
Proof.
  unfold backup_file. apply no_exit_bind; [apply no_exit_path_exists|].
  intros ex. destruct ex; cbv beta iota delta [negb].
  - apply no_exit_bind; [apply no_exit_makedirs|intros _].
    apply no_exit_bind; [apply no_exit_copy|intros _].
    apply no_exit_bind; [apply no_exit_print|intros _; apply no_exit_ret].
  - apply no_exit_bind; [apply no_exit_print|intros _; apply no_exit_ret].
Qed.

Lemma backup_file_absent (p : string) (w w' : World) (r : outcome bool) :
  fs w !! p = None -> backup_file e p w = (r, w') ->
  r = Ret false /\ fs w' = fs w /\ procs w' = procs w.
Proof.
  intros Hp H. unfold backup_file in H.
  rewrite (bind_ret _ _ _ _ _ (path_exists_none _ _ Hp)) in H.
  run_in H. injection H as <- <-. auto.
Qed.

(** X1.  A path that is missing is reported and nothing else happens: the call
    returns [False], the disk is as it was and no tool is started. *)
Theorem backup_file_missing (p : string) (w : World) :
  fs w !! p = None ->
  backup_file e p w
  = (Ret false,
     {| fs := fs w; out := out w ++ ["Error: " ++ p ++ " not found."];
        procs := procs w |}).
Proof.
  intros H. unfold backup_file.
  rewrite (bind_ret _ _ _ _ _ (path_exists_none _ _ H)). reflexivity.
Qed.

(** Away from the [Backups] directory next to [p], all [backup_file] can
    change is that directories leading to [Backups] are created. *)
Lemma backup_file_changes (p : string) (w w' : World) (r : outcome bool) :
  backup_file e p w = (r, w') ->
  forall q, String.prefix (backup_dir_of p ++ "/") q = false ->
    fs w' !! q = fs w !! q \/
    (fs w !! q = None /\ fs w' !! q = Some Dir /\
     String.prefix q (backup_dir_of p) = true).
Proof.
  intros H q Hq. destruct (fs w !! p) as [n|] eqn:Hp.
  2:{ apply (backup_file_absent p w w' r Hp) in H as (_ & -> & _). now left. }
  unfold backup_file in H.
  rewrite (bind_ret _ _ _ _ _ (path_exists_some _ _ _ Hp)) in H.
  cbv beta iota delta [negb] in H. unfold bind at 1 in H.
  destruct (Os.makedirs e (backup_dir_of p) w) as [[[]|x|c0] w1] eqn:Emk;
    [| | now apply no_exit_makedirs in Emk];
    pose proof (makedirs_grows e _ _ _ _ Emk) as (_ & _ & G).
  2:{ injection H as _ <-. apply G. }
  assert (T : fs w' !! q = fs w1 !! q).
  { unfold bind at 1 in H.
    destruct (Os.copy e p (backup_path_of e p) w1) as [[[]|x|c0] w2] eqn:Ecp;
      [| | now apply no_exit_copy in Ecp];
      pose proof (copy_touches e _ _ _ _ _ Ecp) as [_ T];
      [run_in H|]; injection H as _ <-; cbn [fs]; apply T;
      intros [_ [-> | ->]];
      rewrite ?under_backup_dir_path, ?under_backup_dir_join in Hq;
      discriminate. }
  rewrite T. apply G.
Qed.

(** X2.  Whatever way [backup_file] ends, it does not exit and starts no tool,
    the file it was given is as before, and away from the [Backups]
    directory next to that file the only change can be that directories
    leading to [Backups] were created where nothing was. *)
Theorem backup_file_footprint (p : string) (w : World) :
  (forall k, fst (backup_file e p w) <> Exit k) /\
  procs (snd (backup_file e p w)) = procs w /\
  fs (snd (backup_file e p w)) !! p = fs w !! p /\
  forall q, String.prefix (backup_dir_of p ++ "/") q = false ->
    fs (snd (backup_file e p w)) !! q = fs w !! q \/
    (fs w !! q = None /\ fs (snd (backup_file e p w)) !! q = Some Dir /\
     String.prefix q (backup_dir_of p) = true).
Proof.
  destruct (backup_file e p w) as [r w'] eqn:H. cbn [fst snd].
  split; [|split; [|split; [|exact (backup_file_changes p w w' r H)]]].
  - intros k ->. now apply no_exit_backup_file in H.
  - destruct (fs w !! p) as [n|] eqn:Hp.
    + now pose proof (backup_file_spec e p n w w' r Hp H) as (P & _).
    + now apply (backup_file_absent p w w' r Hp) in H as (_ & _ & P).
  - destruct (fs w !! p) as [n|] eqn:Hp.
    + pose proof (backup_file_spec e p n w w' r Hp H) as (_ & Hp' & _).
      congruence.
    + apply (backup_file_absent p w w' r Hp) in H as (_ & -> & _). exact Hp.
Qed.

End BackupFile.

(** ** The time stamp in a backup's name *)

Section TimeStamps.
Import StrFacts.

Lemma digit_inj (a b : nat) : Os.digit a = Os.digit b -> a mod 10 = b mod 10.
Proof.
  unfold Os.digit. intros H. apply (f_equal nat_of_ascii) in H.
  pose proof (Nat.mod_upper_bound a 10). pose proof (Nat.mod_upper_bound b 10).
  rewrite !nat_ascii_embedding in H by lia. lia.
Qed.

Lemma two_digits_inj (a b : nat) :
  a < 100 -> b < 100 -> Os.two_digits a = Os.two_digits b -> a = b.
Proof.
  intros Ha Hb H. unfold Os.two_digits in H. injection H as H1 H0.
  apply digit_inj in H1, H0.
  pose proof (Nat.div_mod_eq a 10). pose proof (Nat.div_mod_eq b 10).
  assert (a / 10 < 10) by (apply Nat.Div0.div_lt_upper_bound; lia).
  assert (b / 10 < 10) by (apply Nat.Div0.div_lt_upper_bound; lia).
  rewrite (Nat.mod_small (a / 10)), (Nat.mod_small (b / 10)) in H1 by assumption.
  lia.
Qed.

Lemma four_digits_inj (a b : nat) :
  a < 10 * 1000 -> b < 10 * 1000 -> Os.four_digits a = Os.four_digits b -> a = b.
Proof.
  intros Ha Hb H. unfold Os.four_digits, Os.two_digits in H.
  injection H as H3 H2 H1 H0. apply digit_inj in H3, H2, H1, H0.
  assert (E2 : forall n, n / 100 = n / 10 / 10)
    by (intros n; now rewrite Nat.Div0.div_div).
  assert (E3 : forall n, n / 1000 = n / 10 / 10 / 10)
    by (intros n; now rewrite !Nat.Div0.div_div).
  change ((Nat.divmod a 999 0 999).1) with (a / 1000) in H3.
  change ((Nat.divmod b 999 0 999).1) with (b / 1000) in H3.
  change ((Nat.divmod a 99 0 99).1) with (a / 100) in H2.
  change ((Nat.divmod b 99 0 99).1) with (b / 100) in H2.
  change ((Nat.divmod a 9 0 9).1) with (a / 10) in H1.
  change ((Nat.divmod b 9 0 9).1) with (b / 10) in H1.
  rewrite !E3 in H3. rewrite !E2 in H2.
  pose proof (Nat.div_mod_eq a 10). pose proof (Nat.div_mod_eq b 10).
  pose proof (Nat.div_mod_eq (a / 10) 10). pose proof (Nat.div_mod_eq (b / 10) 10).
  pose proof (Nat.div_mod_eq (a / 10 / 10) 10).
  pose proof (Nat.div_mod_eq (b / 10 / 10) 10).
  pose proof (Nat.div_mod_eq (a / 10 / 10 / 10) 10).
  pose proof (Nat.div_mod_eq (b / 10 / 10 / 10) 10).
  pose proof (Nat.mod_upper_bound a 10). pose proof (Nat.mod_upper_bound b 10).
  pose proof (Nat.mod_upper_bound (a / 10) 10).
  pose proof (Nat.mod_upper_bound (b / 10) 10).
  pose proof (Nat.mod_upper_bound (a / 10 / 10) 10).
  pose proof (Nat.mod_upper_bound (b / 10 / 10) 10).
  lia.
Qed.

Lemma two_digits_app_inj (a b : nat) (s t : string) :
  a < 100 -> b < 100 ->
  Os.two_digits a ++ s = Os.two_digits b ++ t -> a = b /\ s = t.
Proof.
  intros Ha Hb H. unfold Os.two_digits in H. rewrite !app_cons, !app_nil_l in H.
  injection H as H1 H0 Hs. split; [|exact Hs].
  apply two_digits_inj; [assumption..|]. unfold Os.two_digits.
  f_equal; [exact H1|]. f_equal. exact H0.
Qed.

Lemma four_digits_app_inj (a b : nat) (s t : string) :
  a < 10 * 1000 -> b < 10 * 1000 ->
  Os.four_digits a ++ s = Os.four_digits b ++ t -> a = b /\ s = t.
Proof.
  intros Ha Hb H. unfold Os.four_digits, Os.two_digits in H.
  rewrite !app_cons, !app_nil_l in H.
  injection H as H3 H2 H1 H0 Hs. split; [|exact Hs].
  apply four_digits_inj; [assumption..|]. unfold Os.four_digits, Os.two_digits.
  f_equal; [exact H3|]. f_equal; [exact H2|]. f_equal; [exact H1|].
  f_equal. exact H0.
Qed.

Lemma strftime_inj (d1 d2 : datetime) :
  four_digit_year d1 -> four_digit_year d2 ->
  Os.strftime d1 = Os.strftime d2 -> d1 = d2.
Proof.
  intros (Y1 & M1 & D1 & h1 & m1 & s1) (Y2 & M2 & D2 & h2 & m2 & s2) H.
  unfold Os.strftime in H.
  apply four_digits_app_inj in H as [Ey H]; [|lia..].
  apply two_digits_app_inj in H as [Em H]; [|lia..].
  apply two_digits_app_inj in H as [Ed H]; [|lia..].
  apply app_inv_head in H.
  apply two_digits_app_inj in H as [Eh H]; [|lia..].
  apply two_digits_app_inj in H as [Emi H]; [|lia..].
  apply two_digits_inj in H; [|lia..].
  destruct d1, d2. simpl in *. congruence.
Qed.

(** X3.  Two runs at different seconds (of four-digit years) give the backups
    of one file different names: the later backup does not overwrite the
    earlier one. *)
Theorem backups_of_different_times_differ (e1 e2 : Env) (p : string) :
  four_digit_year (now e1) -> four_digit_year (now e2) ->
  now e1 <> now e2 ->
  backup_path_of e1 p <> backup_path_of e2 p.
Proof.
  intros V1 V2 N H. apply N. unfold backup_path_of in H.
  do 4 apply app_inv_head in H. now apply strftime_inj.
Qed.

End TimeStamps.

(** An instance: the two clocks of the sample runs. *)
Lemma backups_of_different_times_differ_witness :
  four_digit_year (now Sample.calm) /\ four_digit_year (now Sample.unsigned) /\
  now Sample.calm <> now Sample.unsigned /\
  backup_path_of Sample.calm Sample.discord_exe
  <> backup_path_of Sample.unsigned Sample.discord_exe.
Proof.
  assert (V1 : four_digit_year (now Sample.calm)) by (cbv; lia).
  assert (V2 : four_digit_year (now Sample.unsigned)) by (cbv; lia).
  assert (N : now Sample.calm <> now Sample.unsigned) by discriminate.
  split; [exact V1|]. split; [exact V2|]. split; [exact N|].
  exact (backups_of_different_times_differ _ _ _ V1 V2 N).
Defined.

(** An instance: Chrome is not installed. *)
Lemma backup_file_missing_witness :
  fs Sample.installed !! "/Applications/Google Chrome.app/Contents/MacOS/Google Chrome"
  = None /\
  backup_file Sample.calm
    "/Applications/Google Chrome.app/Contents/MacOS/Google Chrome" Sample.installed
  = (Ret false,
     {| fs := fs Sample.installed;
        out := out Sample.installed ++
               ["Error: /Applications/Google Chrome.app/Contents/MacOS/Google Chrome not found."];
        procs := procs Sample.installed |}).
Proof.
  assert (H : fs Sample.installed
              !! "/Applications/Google Chrome.app/Contents/MacOS/Google Chrome"
              = None) by (vm_compute; reflexivity).
  split; [exact H|]. exact (backup_file_missing _ _ _ H).
Defined.

(** ** The external tools *)

Section Tools.
Variable e : Env.

(** X4.  [resign_app] never writes to the disk; it starts [codesign] and, only
    when that succeeded, [xattr]; it returns [False] exactly when
    [codesign] exits with a non-zero status, [True] whether or not [xattr]
    does, and lets any other failure to run a tool through as the
    exception. *)
Theorem resign_app_tools (app_path app_name : string) (w : World) :
  fs (snd (resign_app e app_path app_name w)) = fs w /\
  procs (snd (resign_app e app_path app_name w))
  = (procs w ++ codesign_cmd app_path ::
       match proc e (codesign_cmd app_path) with
       | Some _ => []
       | None => [xattr_cmd app_path]
       end)%list /\
  fst (resign_app e app_path app_name w)
  = match proc e (codesign_cmd app_path) with
    | Some x => if exn_eqb x CalledProcessError then Ret false else Raise x
    | None =>
        match proc e (xattr_cmd app_path) with
        | None => Ret true
        | Some x => if exn_eqb x CalledProcessError then Ret true else Raise x
        end
    end.
Proof.
  destruct (resign_app e app_path app_name w) as [r w'] eqn:H. cbn [fst snd].
  apply resign_app_spec in H as [F H]. split; [exact F|].
  destruct (proc e (codesign_cmd app_path)) as [x|]; destruct H as [P ->];
    split; try reflexivity; exact P.
Qed.

(** X5.  [reset_launch_services] never writes to the disk and never exits; it
    starts [lsregister] and, only when that succeeded, [killall Dock]; a
    non-zero exit status of either is reported and the call returns, any
    other failure to run them goes through as the exception. *)
Theorem reset_launch_services_tools (w : World) :
  fs (snd (reset_launch_services e w)) = fs w /\
  procs (snd (reset_launch_services e w))
  = (procs w ++ lsregister_cmd ::
       match proc e lsregister_cmd with
       | Some _ => []
       | None => [["killall"; "Dock"]]
       end)%list /\
  fst (reset_launch_services e w)
  = match proc e lsregister_cmd with
    | Some x => if exn_eqb x CalledProcessError then Ret tt else Raise x
    | None =>
        match proc e ["killall"; "Dock"] with
        | None => Ret tt
        | Some x => if exn_eqb x CalledProcessError then Ret tt else Raise x
        end
    end.
Proof.
  unfold reset_launch_services. run_goal. rewrite !run_spec. run_goal.
  destruct (proc e lsregister_cmd) as [x|].
  - destruct (exn_eqb x CalledProcessError); cbn [fst snd fs procs]; auto.
  - run_goal.
    destruct (proc e ["killall"; "Dock"]) as [x|];
      [destruct (exn_eqb x CalledProcessError)|];
      cbn [fst snd fs procs]; rewrite <- ?List.app_assoc; auto.
Qed.

End Tools.

(** ** How a run can exit *)

Section Exits.
Import StrFacts.
Variable e : Env.

Lemma no_exit_hint {A} (m : M A) : no_exit m -> exits_with_hint e m.
Proof. intros N w c w' H. now apply N in H. Qed.

Lemma hint_bind {A B} (m : M A) (k : A -> M B) :
  exits_with_hint e m -> (forall a, exits_with_hint e (k a)) ->
  exits_with_hint e (bind m k).
Proof.
  intros Hm Hk w c w' H. unfold bind in H.
  destruct (m w) as [[a|x|c0] w1] eqn:E.
  - eapply Hk, H.
  - discriminate.
  - injection H as <- <-. eapply Hm, E.
Qed.

Lemma hint_try {A} (m : M A) (h : exn -> M A) :
  exits_with_hint e m -> (forall x, exits_with_hint e (h x)) ->
  exits_with_hint e (try_except m h).
Proof.
  intros Hm Hh w c w' H. unfold try_except in H.
  destruct (m w) as [[a|x|c0] w1] eqn:E.
  - discriminate.
  - eapply Hh, H.
  - injection H as <- <-. eapply Hm, E.
Qed.

Lemma hint_on_write_error (msg : string) (x : exn) :
  exits_with_hint e (on_write_error e msg x).
Proof.
  intros w c w' H. unfold on_write_error in H.
  destruct (exn_eqb x PermissionError); run_in H; [|discriminate].
  injection H as <- <-. split; [reflexivity|]. cbn [out]. apply last_snoc.
Qed.

Lemma no_exit_on_write_error (msg : string) (x : exn) :
  x <> PermissionError -> no_exit (on_write_error e msg x).
Proof.
  intros N w c w' H. unfold on_write_error in H.
  destruct x; try congruence; run_in H; discriminate.
Qed.

(** A script write raises what the operating system answered its [open]
    or its [chmod] with, or finds a directory in its way. *)
Lemma write_script_raises (p t : string) (w w' : World) (x : exn) :
  write_script e p t w = (Raise x, w') ->
  fault e (SysOpenW p) = Some x \/ fault e (SysChmod p) = Some x \/
  x = IsADirectoryError.
Proof.
  unfold write_script, Os.open_write, Os.chmod, Os.syscall_gate, bind.
  destruct (fault e (SysOpenW p)) as [y|] eqn:Fo.
  - intros [= <- _]. now left.
  - unfold ret. destruct (fs w !! p) as [[c m|]|];
      [| intros [= <- _]; auto |];
      (destruct (fault e (SysChmod p)) as [y|] eqn:Fc;
       [intros [= <- _]; auto|]);
      simpl; rewrite lookup_insert_eq; discriminate.
Qed.

Lemma no_exit_script_try (p t msg s : string) :
  fault e (SysOpenW p) <> Some PermissionError ->
  fault e (SysChmod p) <> Some PermissionError ->
  no_exit (try_except (write_script e p t ;; Os.print s ;; ret true)
             (on_write_error e msg)).
Proof.
  intros Fo Fc w c w' H. unfold try_except, bind in H.
  destruct (write_script e p t w) as [[[]|x|c0] w1] eqn:EW.
  - discriminate.
  - apply no_exit_on_write_error in H; [assumption|].
    apply write_script_raises in EW as [E|[E|E]]; congruence.
  - now apply no_exit_write_script in EW.
Qed.

Lemma no_exit_except_called_process {A} (m : M A) (h : exn -> M A) :
  no_exit m -> (forall x, no_exit (h x)) -> no_exit (except_called_process m h).
Proof.
  intros Hm Hh. unfold except_called_process. apply no_exit_try; [exact Hm|].
  intros x. destruct (exn_eqb x CalledProcessError); [apply Hh | apply no_exit_raise].
Qed.

Lemma no_exit_resign_app (app_path app_name : string) :
  no_exit (resign_app e app_path app_name).
Proof.
  intros w c w' H. apply resign_app_spec in H as [_ H].
  destruct (proc e (codesign_cmd app_path)) as [x|]; destruct H as [_ H];
    [destruct (exn_eqb x CalledProcessError); discriminate|].
  destruct (proc e (xattr_cmd app_path)) as [x|];
    [destruct (exn_eqb x CalledProcessError)|]; discriminate.
Qed.

Lemma no_exit_reset_launch_services : no_exit (reset_launch_services e).
Proof.
  unfold reset_launch_services.
  apply no_exit_bind; [apply no_exit_print|intros _].
  apply no_exit_except_called_process; [|intros x; apply no_exit_print].
  apply no_exit_bind; [apply no_exit_run|intros _].
  apply no_exit_bind; [apply no_exit_print|intros _; apply no_exit_run].
Qed.

Lemma no_exit_ensure_dir (d : string) : no_exit (ensure_dir e d).
Proof.
  unfold ensure_dir. apply no_exit_bind; [apply no_exit_path_exists|].
  intros ex. destruct ex; [apply no_exit_ret | apply no_exit_makedirs].
Qed.

Variables (app_path : string) (app_info : AppInfo).
Let exe := executable_path_of app_path app_info.
Let orig := original_executable_of app_path app_info.

Lemma no_exit_sign_and_restore :
  no_exit (signed <- resign_app e app_path (name app_info) ;;
           if negb signed then
             Os.print ("Restoring original executable for " ++ name app_info
                       ++ " due to signing failure...") ;;
             Os.move e orig exe ;;
             ret false
           else ret true).
Proof.
  apply no_exit_bind; [apply no_exit_resign_app|].
  intros signed. destruct signed; cbv beta iota delta [negb];
    [apply no_exit_ret|].
  apply no_exit_bind; [apply no_exit_print|intros _].
  apply no_exit_bind; [apply no_exit_move|intros _; apply no_exit_ret].
Qed.

Lemma hint_patch_write_and_sign :
  exits_with_hint e (patch_write_and_sign e app_path app_info).
Proof.
  unfold patch_write_and_sign. apply hint_bind.
  - apply hint_try; [|intros x; apply hint_on_write_error].
    apply no_exit_hint. apply no_exit_bind; [apply no_exit_write_script|intros _].
    apply no_exit_bind; [apply no_exit_print|intros _; apply no_exit_ret].
  - intros written. destruct written; cbv beta iota delta [negb];
      [|apply no_exit_hint, no_exit_ret].
    apply no_exit_hint, no_exit_sign_and_restore.
Qed.

Lemma no_exit_patch_write_and_sign :
  fault e (SysOpenW exe) <> Some PermissionError ->
  fault e (SysChmod exe) <> Some PermissionError ->
  no_exit (patch_write_and_sign e app_path app_info).
Proof.
  intros Fo Fc. unfold patch_write_and_sign. apply no_exit_bind.
  - now apply no_exit_script_try.
  - intros written. destruct written; cbv beta iota delta [negb];
      [apply no_exit_sign_and_restore | apply no_exit_ret].
Qed.

(** What is common to the two facts above: [patch_in_bundle] around its
    tail. *)
Lemma patch_in_bundle_tail (P : M bool -> Prop) :
  (forall (m : M bool), no_exit m -> P m) ->
  (forall {A} (m : M A) (k : A -> M bool),
      no_exit m -> (forall a, P (k a)) -> P (bind m k)) ->
  P (patch_write_and_sign e app_path app_info) ->
  P (patch_in_bundle e app_path app_info).
Proof.
  intros Pn Pb Pt. unfold patch_in_bundle.
  apply Pb; [apply no_exit_print|intros _].
  apply Pb; [apply no_exit_path_exists|intros ex].
  destruct ex; cbv beta iota delta [negb].
  2:{ apply Pn. apply no_exit_bind; [apply no_exit_print|intros _; apply no_exit_ret]. }
  apply Pb; [apply no_exit_path_exists|intros saved].
  destruct saved; cbv beta iota delta [negb].
  - apply Pb; [apply no_exit_print|intros _; exact Pt].
  - apply Pb; [apply no_exit_backup_file|intros backed].
    destruct backed; cbv beta iota delta [negb]; [|apply Pn, no_exit_ret].
    apply Pb; [apply no_exit_move|intros _; exact Pt].
Qed.

Lemma hint_patch_in_bundle :
  exits_with_hint e (patch_in_bundle e app_path app_info).
Proof.
  apply patch_in_bundle_tail.
  - intros m. apply no_exit_hint.
  - intros A m k Hm Hk. apply hint_bind; [now apply no_exit_hint|exact Hk].
  - apply hint_patch_write_and_sign.
Qed.

Lemma no_exit_fill_wrapper_app : no_exit (fill_wrapper_app e app_path app_info).
Proof.
  unfold fill_wrapper_app. apply no_exit_bind.
  - apply no_exit_try.
    + apply no_exit_bind; [apply no_exit_write_script|intros _; apply no_exit_ret].
    + intros x. apply no_exit_bind; [apply no_exit_print|intros _; apply no_exit_ret].
  - intros written. destruct written; cbv beta iota delta [negb];
      [|apply no_exit_ret].
    apply no_exit_bind; [apply no_exit_open_write|intros _].
    apply no_exit_bind; [apply no_exit_path_exists|intros ic].
    apply no_exit_bind.
    { destruct ic; [apply no_exit_copy | apply no_exit_ret]. }
    intros _. apply no_exit_bind; [apply no_exit_print|intros _; apply no_exit_ret].
Qed.

Lemma no_exit_build_wrapper_app : no_exit (build_wrapper_app e app_path app_info).
Proof.
  unfold build_wrapper_app.
  apply no_exit_bind; [apply no_exit_makedirs|intros _].
  apply no_exit_bind; [apply no_exit_makedirs|intros _].
  apply no_exit_fill_wrapper_app.
Qed.

Lemma hint_launch_script_and_wrapper :
  exits_with_hint e (launch_script_and_wrapper e app_path app_info).
Proof.
  unfold launch_script_and_wrapper.
  apply hint_bind; [apply no_exit_hint, no_exit_print|intros _].
  apply hint_bind.
  - apply hint_try; [|intros x; apply hint_on_write_error].
    apply no_exit_hint. apply no_exit_bind; [apply no_exit_write_script|intros _].
    apply no_exit_bind; [apply no_exit_print|intros _; apply no_exit_ret].
  - intros written. destruct written; cbv beta iota delta [negb];
      apply no_exit_hint; [apply no_exit_build_wrapper_app | apply no_exit_ret].
Qed.

Lemma no_exit_launch_script_and_wrapper :
  fault e (SysOpenW (script_path_of app_info)) <> Some PermissionError ->
  fault e (SysChmod (script_path_of app_info)) <> Some PermissionError ->
  no_exit (launch_script_and_wrapper e app_path app_info).
Proof.
  intros Fo Fc. unfold launch_script_and_wrapper.
  apply no_exit_bind; [apply no_exit_print|intros _].
  apply no_exit_bind.
  - now apply no_exit_script_try.
  - intros written. destruct written; cbv beta iota delta [negb];
      [apply no_exit_build_wrapper_app | apply no_exit_ret].
Qed.

Lemma create_script_and_wrapper_tail (P : M bool -> Prop) :
  (forall (m : M bool), no_exit m -> P m) ->
  (forall {A} (m : M A) (k : A -> M bool),
      no_exit m -> (forall a, P (k a)) -> P (bind m k)) ->
  P (launch_script_and_wrapper e app_path app_info) ->
  P (create_script_and_wrapper e app_path app_info).
Proof.
  intros Pn Pb Pt. unfold create_script_and_wrapper.
  apply Pb; [apply no_exit_path_exists|intros ex].
  destruct ex; cbv beta iota delta [negb].
  2:{ apply Pn. apply no_exit_bind; [apply no_exit_print|intros _; apply no_exit_ret]. }
  apply Pb; [apply no_exit_path_exists|intros saved].
  apply Pb; [|intros _; exact Pt].
  destruct saved; [|apply no_exit_ret].
  apply no_exit_bind; [apply no_exit_print|intros _; apply no_exit_move].
Qed.

Lemma hint_create_script_and_wrapper :
  exits_with_hint e (create_script_and_wrapper e app_path app_info).
Proof.
  apply create_script_and_wrapper_tail.
  - intros m. apply no_exit_hint.
  - intros A m k Hm Hk. apply hint_bind; [now apply no_exit_hint|exact Hk].
  - apply hint_launch_script_and_wrapper.
Qed.

Lemma permission_denied_or_not (o : option exn) :
  o = Some PermissionError \/ o <> Some PermissionError.
Proof. destruct o as [[]|]; (now left) || (right; discriminate). Qed.

(** X6.  [patch_in_bundle] exits in one way only: with status 1, the advice to
    use sudo being the last line printed, after the operating system
    answered the [open] or the [chmod] of the wrapper script with a
    permission error. *)
Theorem patch_in_bundle_exit (w w' : World) (c : Z) :
  patch_in_bundle e app_path app_info w = (Exit c, w') ->
  c = 1%Z /\ last (out w') = Some (sudo_hint e) /\
  (fault e (SysOpenW exe) = Some PermissionError \/
   fault e (SysChmod exe) = Some PermissionError).
Proof.
  intros H. destruct (hint_patch_in_bundle _ _ _ H) as [-> L].
  split; [reflexivity|]. split; [exact L|].
  destruct (permission_denied_or_not (fault e (SysOpenW exe))) as [Fo|Fo];
    [now left|].
  destruct (permission_denied_or_not (fault e (SysChmod exe))) as [Fc|Fc];
    [now right|].
  exfalso. assert (N : no_exit (patch_in_bundle e app_path app_info)).
  { apply patch_in_bundle_tail.
    - auto.
    - intros A m k. apply no_exit_bind.
    - now apply no_exit_patch_write_and_sign. }
  exact (N _ _ _ H).
Qed.

(** X7.  [create_script_and_wrapper] exits in one way only: with status 1, the
    advice to use sudo being the last line printed, after the operating
    system answered the [open] or the [chmod] of the launch script with a
    permission error.  A permission error met while the wrapper
    application is built never ends the run this way. *)
Theorem create_script_and_wrapper_exit (w w' : World) (c : Z) :
  create_script_and_wrapper e app_path app_info w = (Exit c, w') ->
  c = 1%Z /\ last (out w') = Some (sudo_hint e) /\
  (fault e (SysOpenW (script_path_of app_info)) = Some PermissionError \/
   fault e (SysChmod (script_path_of app_info)) = Some PermissionError).
Proof.
  intros H. destruct (hint_create_script_and_wrapper _ _ _ H) as [-> L].
  split; [reflexivity|]. split; [exact L|].
  destruct (permission_denied_or_not (fault e (SysOpenW (script_path_of app_info))))
    as [Fo|Fo]; [now left|].
  destruct (permission_denied_or_not (fault e (SysChmod (script_path_of app_info))))
    as [Fc|Fc]; [now right|].
  exfalso. assert (N : no_exit (create_script_and_wrapper e app_path app_info)).
  { apply create_script_and_wrapper_tail.
    - auto.
    - intros A m k. apply no_exit_bind.
    - now apply no_exit_launch_script_and_wrapper. }
  exact (N _ _ _ H).
Qed.

End Exits.

Section MainExits.
Variable e : Env.

Lemma hint_process_app (app_path : string) (app_info : AppInfo) :
  exits_with_hint e (process_app e app_path app_info).
Proof.
  unfold process_app. destruct (String.eqb _ "patch").
  - apply hint_bind; [apply hint_patch_in_bundle|].
    intros success. destruct success; apply no_exit_hint, no_exit_print.
  - destruct (String.eqb _ "script"); [|apply no_exit_hint, no_exit_ret].
    apply hint_bind; [apply hint_create_script_and_wrapper|].
    intros success. destruct success; apply no_exit_hint, no_exit_print.
Qed.

Lemma hint_for_each_app (apps : list (string * AppInfo)) :
  exits_with_hint e (for_each_app e apps).
Proof.
  induction apps as [|[app_path app_info] rest IH]; simpl.
  - apply no_exit_hint, no_exit_ret.
  - apply hint_bind; [apply hint_process_app | intros _; exact IH].
Qed.

(** X8.  Whatever the table of apps, a run exits in one way only: with status 1,
    the advice to use sudo being the last line printed. *)
Theorem main_exit (apps : list (string * AppInfo)) (w w' : World) (c : Z) :
  main_on e apps w = (Exit c, w') ->
  c = 1%Z /\ last (out w') = Some (sudo_hint e).
Proof.
  revert w c w'. change (exits_with_hint e (main_on e apps)).
  unfold main_on.
  apply hint_bind; [apply no_exit_hint, no_exit_print|intros _].
  apply hint_bind; [apply no_exit_hint, no_exit_ensure_dir|intros _].
  apply hint_bind; [apply no_exit_hint, no_exit_ensure_dir|intros _].
  apply hint_bind; [apply hint_for_each_app|intros _].
  apply hint_bind; [apply no_exit_hint, no_exit_reset_launch_services|intros _].
  apply no_exit_hint, no_exit_print.
Qed.

End MainExits.

(** An instance: Discord's wrapper cannot be written for lack of
    permission. *)
Lemma patch_in_bundle_exit_witness :
  patch_in_bundle (Sample.refusing Sample.discord_exe PermissionError)
    Sample.discord_path Sample.discord Sample.installed
  = (Exit 1,
     snd (patch_in_bundle (Sample.refusing Sample.discord_exe PermissionError)
            Sample.discord_path Sample.discord Sample.installed)) /\
  last (out (snd (patch_in_bundle
                    (Sample.refusing Sample.discord_exe PermissionError)
                    Sample.discord_path Sample.discord Sample.installed)))
  = Some (sudo_hint (Sample.refusing Sample.discord_exe PermissionError)).
Proof.
  assert (H : patch_in_bundle (Sample.refusing Sample.discord_exe PermissionError)
                Sample.discord_path Sample.discord Sample.installed
              = (Exit 1,
                 snd (patch_in_bundle
                        (Sample.refusing Sample.discord_exe PermissionError)
                        Sample.discord_path Sample.discord Sample.installed)))
    by (vm_compute; reflexivity).
  split; [exact H|].
  exact (proj1 (proj2 (patch_in_bundle_exit _ _ _ _ _ _ H))).
Defined.

(** An instance: Spotify's launch script cannot be written for lack of
    permission. *)
Lemma create_script_and_wrapper_exit_witness :
  create_script_and_wrapper
    (Sample.refusing (script_path_of Sample.spotify) PermissionError)
    Sample.spotify_path Sample.spotify Sample.installed
  = (Exit 1,
     snd (create_script_and_wrapper
            (Sample.refusing (script_path_of Sample.spotify) PermissionError)
            Sample.spotify_path Sample.spotify Sample.installed)) /\
  last (out (snd (create_script_and_wrapper
                    (Sample.refusing (script_path_of Sample.spotify) PermissionError)
                    Sample.spotify_path Sample.spotify Sample.installed)))
  = Some (sudo_hint
            (Sample.refusing (script_path_of Sample.spotify) PermissionError)).
Proof.
  assert (H : create_script_and_wrapper
                (Sample.refusing (script_path_of Sample.spotify) PermissionError)
                Sample.spotify_path Sample.spotify Sample.installed
              = (Exit 1,
                 snd (create_script_and_wrapper
                        (Sample.refusing (script_path_of Sample.spotify)
                           PermissionError)
                        Sample.spotify_path Sample.spotify Sample.installed)))
    by (vm_compute; reflexivity).
  split; [exact H|].
  exact (proj1 (proj2 (create_script_and_wrapper_exit _ _ _ _ _ _ H))).
Defined.

(** An instance: the whole run, Discord's wrapper being refused. *)
Lemma main_exit_witness :
  main (Sample.refusing Sample.discord_exe PermissionError) Sample.installed
  = (Exit 1,
     snd (main (Sample.refusing Sample.discord_exe PermissionError)
            Sample.installed)) /\
  last (out (snd (main (Sample.refusing Sample.discord_exe PermissionError)
                    Sample.installed)))
  = Some (sudo_hint (Sample.refusing Sample.discord_exe PermissionError)).
Proof.
  assert (H : main_on (Sample.refusing Sample.discord_exe PermissionError)
                APPS_TO_PATCH Sample.installed
              = (Exit 1,
                 snd (main (Sample.refusing Sample.discord_exe PermissionError)
                        Sample.installed)))
    by (vm_compute; reflexivity).
  split; [exact H|].
  exact (proj2 (main_exit _ _ _ _ _ H)).
Defined.

(** ** Failures of the in-bundle strategy *)

Section InBundleFailures.
Import StrFacts.
Variable e : Env.
Variables (app_path : string) (app_info : AppInfo).
Let exe := executable_path_of app_path app_info.
Let orig := original_executable_of app_path app_info.
Let wr := wrapper_script_of app_path app_info.

Lemma write_script_refused (p t : string) (w : World) (x : exn) :
  fault e (SysOpenW p) = Some x -> write_script e p t w = (Raise x, w).
Proof.
  intros F. unfold write_script, Os.open_write, Os.syscall_gate, bind.
  now rewrite F.
Qed.



(** X10.  A first patch on a machine where [codesign] cannot be started (an
    exception other than a non-zero exit status): once the signing step is
    reached, the exception leaves [patch_in_bundle] and nothing is rolled
    back, the wrapper script staying in place of the binary. *)
Theorem unstartable_codesign_is_not_rolled_back (w w' : World)
    (r : outcome bool) (c : string) (m : Z) (x : exn) :
  unpatched app_path app_info (File c m) w ->
  proc e (codesign_cmd app_path) = Some x -> x <> CalledProcessError ->
  patch_in_bundle e app_path app_info w = (r, w') ->
  procs w' <> procs w ->
  r = Raise x /\ procs w' = (procs w ++ [codesign_cmd app_path])%list /\
  fs w' !! orig = Some (File c m) /\ fs w' !! exe = Some (File wr mode_755).
Proof.
  unfold unpatched. fold exe orig. intros [Ho Hx] Hc Nx H NP.
  apply (patch_in_bundle_fresh e app_path app_info w w' (File c m) r Hx Ho) in H.
  fold exe orig in H.
  destruct H as [(y & -> & P & _)|(c1 & m1 & wb & w2 & E & _ & _ & _ & F2 & P2 & H)];
    [congruence|].
  injection E as <- <-. apply patch_write_and_sign_spec in H.
  fold exe orig wr in H.
  destruct H as [(y & w1 & _ & _ & P & _)|(w1 & F1 & H)]; [congruence|].
  rewrite Hc in H. destruct H as [P1 H].
  assert (exn_eqb x CalledProcessError = false) as Ex
    by (clear - Nx; destruct x; try reflexivity; congruence).
  rewrite Ex in H. destruct H as [-> ->].
  split; [reflexivity|]. split; [congruence|]. rewrite F1, F2. split.
  - rewrite lookup_insert_ne by apply exe_ne_orig. apply lookup_insert_eq.
  - apply lookup_insert_eq.
Qed.

End InBundleFailures.


(** An instance: Discord is patched on a machine without [codesign]. *)
Lemma unstartable_codesign_is_not_rolled_back_witness :
  unpatched Sample.discord_path Sample.discord (File "MACH-O discord" 493)
    Sample.installed /\
  proc Sample.no_codesign (codesign_cmd Sample.discord_path)
  = Some FileNotFoundError /\
  fst (patch_in_bundle Sample.no_codesign Sample.discord_path Sample.discord
         Sample.installed) = Raise FileNotFoundError /\
  fs (snd (patch_in_bundle Sample.no_codesign Sample.discord_path Sample.discord
             Sample.installed))
    !! executable_path_of Sample.discord_path Sample.discord
  = Some (File (wrapper_script_of Sample.discord_path Sample.discord) mode_755).
Proof.
  assert (U : unpatched Sample.discord_path Sample.discord
                (File "MACH-O discord" 493) Sample.installed)
    by (split; vm_compute; reflexivity).
  assert (C : proc Sample.no_codesign (codesign_cmd Sample.discord_path)
              = Some FileNotFoundError) by (vm_compute; reflexivity).
  assert (P : procs (snd (patch_in_bundle Sample.no_codesign Sample.discord_path
                            Sample.discord Sample.installed))
              <> procs Sample.installed) by (vm_compute; discriminate).
  assert (N : FileNotFoundError <> CalledProcessError) by discriminate.
  split; [exact U|]. split; [exact C|].
  destruct (unstartable_codesign_is_not_rolled_back _ _ _ _ _ _ _ _ _ U C N
              (surjective_pairing _) P) as (R & _ & _ & X).
  split; [exact R | exact X].
Defined.

(** ** The states of a bundle *)

Section BundleStates.
Import StrFacts.
Variables (app_path : string) (app_info : AppInfo).
Let exe := executable_path_of app_path app_info.
Let orig := original_executable_of app_path app_info.
Let wr := wrapper_script_of app_path app_info.

(** [create_script_and_wrapper] up to the point where the launch script is
    created: the binary saved in a sidecar is moved back, unless the move is
    refused, in which case the call raises and the disk is as it was. *)
Lemma create_script_and_wrapper_reverts (e : Env) (w w' : World)
    (r : outcome bool) (c0 c : string) (m0 m : Z) :
  fs w !! exe = Some (File c0 m0) ->
  pristine app_path app_info w = Some (File c m) ->
  create_script_and_wrapper e app_path app_info w = (r, w') ->
  (exists w1,
      launch_script_and_wrapper e app_path app_info w1 = (r, w') /\
      fs w1 !! exe = Some (File c m) /\ fs w1 !! orig = None /\
      procs w1 = procs w /\
      forall q, q <> exe -> q <> orig -> fs w1 !! q = fs w !! q) \/
  (exists x, fs w !! orig = Some (File c m) /\
             fault e (SysRename orig exe) = Some x /\ r = Raise x /\
             fs w' = fs w /\ procs w' = procs w).
Proof.
  unfold pristine. fold exe orig. intros Hx Hp H.
  unfold create_script_and_wrapper in H. fold exe orig in H.
  rewrite (bind_ret _ _ _ _ _ (path_exists_some _ _ _ Hx)) in H.
  cbv beta iota delta [negb] in H.
  destruct (fs w !! orig) as [n|] eqn:Ho.
  - injection Hp as ->.
    rewrite (bind_ret _ _ _ _ _ (path_exists_some _ _ _ Ho)) in H.
    run_in H.
    match type of H with
    | context [Os.move e orig exe ?w0] =>
        rewrite (move_file_exact e orig exe c m w0) in H;
          [|exact Ho|left; cbn [fs]; eauto]
    end.
    destruct (fault e (SysRename orig exe)) as [x|] eqn:Hmv.
    + right. injection H as <- <-. exists x. cbn [fs procs]. auto.
    + left. cbn [fs set_fs] in H.
      eexists. split; [exact H|]. cbn [fs procs set_fs]. repeat split.
      * apply lookup_insert_eq.
      * rewrite lookup_insert_ne by apply exe_ne_orig. apply lookup_delete_eq.
      * intros q Hqx Hqo. now rewrite lookup_insert_ne, lookup_delete_ne.
  - left. rewrite Hx in Hp. injection Hp as <- <-.
    rewrite (bind_ret _ _ _ _ _ (path_exists_none _ _ Ho)) in H.
    run_in H. eauto 10.
Qed.





(** X12.  Switching strategy undoes the patch: after a successful in-bundle
    patch of an unpatched bundle, [create_script_and_wrapper] (its
    generated files lying apart from the bundle, the restoring move not
    refused) leaves the binary at the executable path and no sidecar,
    however it ends. *)
Theorem switching_strategy_restores_the_binary (e1 e2 : Env) (w w1 : World)
    (c : string) (m : Z) :
  unpatched app_path app_info (File c m) w ->
  patch_in_bundle e1 app_path app_info w = (Ret true, w1) ->
  apart e2 app_path app_info ->
  fault e2 (SysRename orig exe) = None ->
  patched_in_bundle app_path app_info (File c m) w1 /\
  unpatched app_path app_info (File c m)
    (snd (create_script_and_wrapper e2 app_path app_info w1)).
Proof.
  unfold unpatched, patched_in_bundle. fold exe orig wr.
  intros [Ho Hx] H1 A Hmv.
  apply (patch_in_bundle_fresh e1 app_path app_info w w1 (File c m) _ Hx Ho) in H1.
  fold exe orig in H1.
  destruct H1 as [(y & E & _)|(c1 & m1 & wb & w2 & E & _ & _ & _ & F2 & _ & H)];
    [discriminate|].
  injection E as <- <-. apply patch_write_and_sign_success in H as [F1 _].
  fold exe wr in F1.
  assert (Ho1 : fs w1 !! orig = Some (File c m)).
  { rewrite F1, F2, lookup_insert_ne by apply exe_ne_orig. apply lookup_insert_eq. }
  assert (Hx1 : fs w1 !! exe = Some (File wr mode_755)).
  { rewrite F1. apply lookup_insert_eq. }
  split; [eauto|].
  destruct (create_script_and_wrapper e2 app_path app_info w1) as [r w'] eqn:H.
  cbn [snd].
  assert (Hp : pristine app_path app_info w1 = Some (File c m)).
  { unfold pristine. fold exe orig. now rewrite Ho1. }
  destruct (create_script_and_wrapper_reverts e2 w1 w' r _ c _ m Hx1 Hp H)
    as [(w2' & H2 & Hx2 & Ho2 & _)|(x & _ & Fx & _)]; [|congruence].
  apply launch_script_and_wrapper_touches in H2 as [_ T]. split.
  - rewrite T; [exact Ho2|]. apply (apart_not_artifact _ app_path app_info); [exact A|].
      apply orig_inside.
  - rewrite T; [exact Hx2|]. apply (apart_not_artifact _ app_path app_info); [exact A|].
      apply exe_inside.
Qed.

End BundleStates.


(** An instance: Spotify, patched in the bundle, is switched to the
    external script. *)
Lemma switching_strategy_restores_the_binary_witness :
  unpatched Sample.spotify_path Sample.spotify (File "MACH-O spotify" 493)
    Sample.installed /\
  patch_in_bundle Sample.calm Sample.spotify_path Sample.spotify Sample.installed
  = (Ret true, Sample.spotify_patched) /\
  apart Sample.calm_later Sample.spotify_path Sample.spotify /\
  unpatched Sample.spotify_path Sample.spotify (File "MACH-O spotify" 493)
    (snd (create_script_and_wrapper Sample.calm_later Sample.spotify_path
            Sample.spotify Sample.spotify_patched)).
Proof.
  assert (U : unpatched Sample.spotify_path Sample.spotify
                (File "MACH-O spotify" 493) Sample.installed)
    by (split; vm_compute; reflexivity).
  assert (H : patch_in_bundle Sample.calm Sample.spotify_path Sample.spotify
                Sample.installed = (Ret true, Sample.spotify_patched))
    by (vm_compute; reflexivity).
  assert (A : apart Sample.calm_later Sample.spotify_path Sample.spotify)
    by (repeat split; vm_compute; reflexivity).
  split; [exact U|]. split; [exact H|]. split; [exact A|].
  exact (proj2 (switching_strategy_restores_the_binary _ _ _ _ _ _ _ _
                  U H A eq_refl)).
Defined.

(** ** What the two strategies leave alone *)

Section Footprints2.
Import StrFacts.
Variable e : Env.
Variables (app_path : string) (app_info : AppInfo).
Let exe := executable_path_of app_path app_info.
Let orig := original_executable_of app_path app_info.
Let wr := wrapper_script_of app_path app_info.

(** From the point where the wrapper is written, with the binary in the
    sidecar, the only tools started are [codesign] and then [xattr], on
    the bundle. *)
Lemma patch_write_and_sign_procs (w w' : World) (r : outcome bool)
    (c : string) (m : Z) :
  fs w !! orig = Some (File c m) ->
  patch_write_and_sign e app_path app_info w = (r, w') ->
  exists l, procs w' = (procs w ++ l)%list /\
    (l = [] \/ l = [codesign_cmd app_path] \/
     l = [codesign_cmd app_path; xattr_cmd app_path]).
Proof.
  intros Ho H. apply patch_write_and_sign_spec in H. fold exe orig wr in H.
  destruct H as [(x & w1 & _ & _ & P & _)|(w1 & F & H)].
  - exists []. rewrite List.app_nil_r. auto.
  - destruct (proc e (codesign_cmd app_path)) as [x|].
    + destruct H as [P H]. exists [codesign_cmd app_path]. split; [|auto].
      destruct (exn_eqb x CalledProcessError).
      * destruct H as (r1 & EM & _).
        rewrite (move_file_exact e orig exe c m w1) in EM.
        -- destruct (fault e (SysRename orig exe)); injection EM as _ <-;
             exact P.
        -- rewrite F, lookup_insert_ne by apply exe_ne_orig. exact Ho.
        -- left. exists wr, mode_755. rewrite F. apply lookup_insert_eq.
      * destruct H as [_ ->]. exact P.
    + destruct H as (P & -> & _). eauto.
Qed.

(** A first patch: what happens to the paths that are neither the
    executable nor its sidecar nor below [Backups]. *)
Lemma patch_in_bundle_fresh_frame (w w' : World) (n0 : node) (r : outcome bool) :
  fs w !! exe = Some n0 -> fs w !! orig = None ->
  patch_in_bundle e app_path app_info w = (r, w') ->
  forall q, q <> exe -> q <> orig ->
    String.prefix (backup_dir_of exe ++ "/") q = false ->
    fs w' !! q = fs w !! q \/
    (fs w !! q = None /\ fs w' !! q = Some Dir /\
     String.prefix q (backup_dir_of exe) = true).
Proof.
  intros Hx Ho H q Hqx Hqo Hq. unfold patch_in_bundle in H. fold exe orig in H.
  cbv beta iota zeta delta [bind Os.print] in H.
  rewrite (path_exists_some exe n0) in H by exact Hx.
  cbv beta iota delta [negb] in H.
  rewrite (path_exists_none orig) in H by exact Ho.
  cbv beta iota delta [negb] in H.
  match type of H with
  | context [backup_file e exe ?w0] =>
      destruct (backup_file e exe w0) as [rb wb] eqn:EB;
      pose proof (backup_file_changes e exe w0 wb rb EB q Hq) as G;
      apply (backup_file_spec e exe n0) in EB; [|exact Hx]
  end.
  destruct EB as (_ & Hx1 & Ho1 & Hr & Hbk). cbn [fs procs] in *.
  change (exe ++ ".orig") with orig in Ho1. rewrite Ho in Ho1.
  destruct Hr as [->|[x ->]].
  2:{ injection H as _ <-. exact G. }
  destruct (Hbk eq_refl) as (c & m & -> & _).
  cbv beta iota delta [negb ret] in H.
  assert (ND : not_a_dir orig wb).
  { right. split; [exact Ho1 | apply norm_orig]. }
  rewrite (move_file_exact e exe orig c m wb Hx1 ND) in H.
  destruct (fault e (SysRename exe orig)) as [x|].
  - injection H as _ <-. exact G.
  - apply (patch_write_and_sign_frame e app_path app_info _ _ _ c m) with (q := q)
      in H; [| cbn [fs set_fs]; apply lookup_insert_eq | exact Hqx | exact Hqo].
    cbn [fs set_fs] in H.
    rewrite lookup_insert_ne, lookup_delete_ne in H by congruence.
    rewrite H. exact G.
Qed.

(** X13.  Whatever way [patch_in_bundle] ends (its sidecar, if any, being a
    regular file), the only tools it has started are [codesign] and then
    [xattr] on the bundle, and apart from the executable, its sidecar and
    what is below the [Backups] directory next to them, nothing on the
    disk has changed except that directories leading to [Backups] may have
    been created. *)
Theorem patch_in_bundle_footprint (w : World) :
  fs w !! orig <> Some Dir ->
  (exists l, procs (snd (patch_in_bundle e app_path app_info w))
             = (procs w ++ l)%list /\
     (l = [] \/ l = [codesign_cmd app_path] \/
      l = [codesign_cmd app_path; xattr_cmd app_path])) /\
  forall q, q <> exe -> q <> orig ->
    String.prefix (backup_dir_of exe ++ "/") q = false ->
    fs (snd (patch_in_bundle e app_path app_info w)) !! q = fs w !! q \/
    (fs w !! q = None /\
     fs (snd (patch_in_bundle e app_path app_info w)) !! q = Some Dir /\
     String.prefix q (backup_dir_of exe) = true).
Proof.
  intros ND. destruct (patch_in_bundle e app_path app_info w) as [r w'] eqn:H.
  cbn [snd]. destruct (fs w !! exe) as [n0|] eqn:Hx.
  2:{ destruct (patch_in_bundle_missing e app_path app_info w Hx)
        as (w1 & E & F & P).
      rewrite E in H. injection H as _ <-. split.
      - exists []. rewrite List.app_nil_r. auto.
      - intros q _ _ _. left. now rewrite F. }
  destruct (fs w !! orig) as [[c m|]|] eqn:Ho; [|congruence|].
  - destruct (patch_in_bundle_rerun e app_path app_info w _ _ Hx Ho)
      as (w1 & F1 & P1 & E).
    rewrite E in H. rewrite <- F1 in Ho. split.
    + rewrite <- P1. eapply patch_write_and_sign_procs; eassumption.
    + intros q Hqx Hqo _. left. rewrite <- F1.
      eapply patch_write_and_sign_frame; eassumption.
  - split; [|now apply (patch_in_bundle_fresh_frame w w' n0 r)].
    apply (patch_in_bundle_fresh e app_path app_info w w' n0 r Hx Ho) in H.
    fold exe orig in H.
    destruct H as [(y & _ & P & _)|(c & m & wb & w2 & _ & _ & _ & _ & F2 & P2 & H)].
    + exists []. rewrite List.app_nil_r. auto.
    + rewrite <- P2. eapply patch_write_and_sign_procs; [|exact H].
      rewrite F2. apply lookup_insert_eq.
Qed.

(** X14.  Whatever way [create_script_and_wrapper] ends (the executable and its
    sidecar, if any, being regular files), it has started no tool, and
    apart from the executable, its sidecar, the launch script and the
    wrapper application nothing on the disk has changed. *)
Theorem create_script_and_wrapper_footprint (w : World) :
  fs w !! exe <> Some Dir -> fs w !! orig <> Some Dir ->
  procs (snd (create_script_and_wrapper e app_path app_info w)) = procs w /\
  forall q, q <> exe -> q <> orig -> ~ artifact e app_info q ->
    fs (snd (create_script_and_wrapper e app_path app_info w)) !! q = fs w !! q.
Proof.
  intros NDx NDo.
  destruct (create_script_and_wrapper e app_path app_info w) as [r w'] eqn:H.
  cbn [snd]. destruct (fs w !! exe) as [[c0 m0|]|] eqn:Hx; [|congruence|].
  2:{ destruct (create_script_and_wrapper_missing e app_path app_info w Hx)
        as (w1 & E & F & P).
      rewrite E in H. injection H as _ <-. split; [exact P|].
      intros q _ _ _. now rewrite F. }
  assert (Hp : exists c m, pristine app_path app_info w = Some (File c m)).
  { unfold pristine. fold exe orig.
    destruct (fs w !! orig) as [[c m|]|]; [eauto|congruence|].
    rewrite Hx. eauto. }
  destruct Hp as (c & m & Hp).
  destruct (create_script_and_wrapper_reverts app_path app_info e w w' r
              c0 c m0 m Hx Hp H)
    as [(w1 & H1 & _ & _ & P1 & K1)|(x & _ & _ & _ & F & P)].
  - apply launch_script_and_wrapper_touches in H1 as [P T].
    split; [unfold same_procs in P; congruence|].
    intros q Hqx Hqo Hq. rewrite (T q Hq). now apply K1.
  - split; [exact P|]. intros q _ _ _. now rewrite F.
Qed.

End Footprints2.

(** An instance: patching Discord leaves Spotify's executable alone. *)
Lemma patch_in_bundle_footprint_witness :
  fs Sample.installed !! original_executable_of Sample.discord_path Sample.discord
  <> Some Dir /\
  procs (snd (patch_in_bundle Sample.calm Sample.discord_path Sample.discord
                Sample.installed))
  = [codesign_cmd Sample.discord_path; xattr_cmd Sample.discord_path] /\
  fs (snd (patch_in_bundle Sample.calm Sample.discord_path Sample.discord
             Sample.installed)) !! Sample.spotify_exe
  = Some (File "MACH-O spotify" 493).
Proof.
  assert (N : fs Sample.installed
              !! original_executable_of Sample.discord_path Sample.discord
              <> Some Dir) by (vm_compute; discriminate).
  assert (P : procs (snd (patch_in_bundle Sample.calm Sample.discord_path
                            Sample.discord Sample.installed))
              = [codesign_cmd Sample.discord_path; xattr_cmd Sample.discord_path])
    by (vm_compute; reflexivity).
  assert (S : fs Sample.installed !! Sample.spotify_exe
              = Some (File "MACH-O spotify" 493)) by (vm_compute; reflexivity).
  split; [exact N|]. split; [exact P|].
  destruct (patch_in_bundle_footprint Sample.calm Sample.discord_path
              Sample.discord Sample.installed N) as [_ K].
  destruct (K Sample.spotify_exe) as [E|(E & _)].
  - vm_compute. discriminate.
  - vm_compute. discriminate.
  - vm_compute. reflexivity.
  - rewrite E. exact S.
  - rewrite S in E. discriminate E.
Defined.

(** An instance: setting Spotify up leaves Discord's executable alone. *)
Lemma create_script_and_wrapper_footprint_witness :
  fs Sample.installed !! executable_path_of Sample.spotify_path Sample.spotify
  <> Some Dir /\
  fs Sample.installed !! original_executable_of Sample.spotify_path Sample.spotify
  <> Some Dir /\
  procs (snd (create_script_and_wrapper Sample.calm Sample.spotify_path
                Sample.spotify Sample.installed)) = procs Sample.installed /\
  fs (snd (create_script_and_wrapper Sample.calm Sample.spotify_path
             Sample.spotify Sample.installed)) !! Sample.discord_exe
  = fs Sample.installed !! Sample.discord_exe.
Proof.
  assert (Nx : fs Sample.installed
               !! executable_path_of Sample.spotify_path Sample.spotify
               <> Some Dir) by (vm_compute; discriminate).
  assert (No : fs Sample.installed
               !! original_executable_of Sample.spotify_path Sample.spotify
               <> Some Dir) by (vm_compute; discriminate).
  split; [exact Nx|]. split; [exact No|].
  destruct (create_script_and_wrapper_footprint Sample.calm Sample.spotify_path
              Sample.spotify Sample.installed Nx No) as [P K].
  split; [exact P|]. apply K.
  - vm_compute. discriminate.
  - vm_compute. discriminate.
  - intros [E|[E|[E|E]]]; vm_compute in E; discriminate E.
Defined.

(** ** Making directories and writing scripts when nothing is refused *)

Section CalmCalls.
Import StrFacts.
Variable e : Env.
Hypothesis mkdir_allowed : forall q, fault e (SysMkdir q) = None.

Lemma mkdir_calm (p : string) (w : World) :
  Os.mkdir e p w
  = match fs w !! p with
    | Some _ => (Raise FileExistsError, w)
    | None => (Ret tt, set_fs w (<[p := Dir]> (fs w)))
    end.
Proof.
  unfold Os.mkdir, Os.syscall_gate, bind. rewrite mkdir_allowed. reflexivity.
Qed.

(** The last step of [os.makedirs]: [name] ends a directory, or a regular
    file stands in its place. *)
Lemma mkdir_or_isdir (name : string) (w w' : World) (r : outcome unit) :
  try_except (Os.mkdir e name)
    (fun x => d <- Os.isdir name ;; if d then ret tt else raise x) w = (r, w') ->
  (r = Ret tt /\ fs w' !! name = Some Dir) \/
  (r = Raise FileExistsError /\ exists c m, fs w' !! name = Some (File c m)).
Proof.
  unfold try_except. rewrite mkdir_calm.
  destruct (fs w !! name) as [[c m|]|] eqn:E.
  - unfold bind, Os.isdir. rewrite E. intros [= <- <-]. right. eauto.
  - unfold bind, Os.isdir. rewrite E. intros [= <- <-]. now left.
  - intros [= <- <-]. left. split; [reflexivity|]. apply lookup_insert_eq.
Qed.

Lemma basename_split (name : string) : snd (Str.split name) = Str.basename name.
Proof.
  unfold Str.split, Str.basename. now destruct (Str.split_last_slash name).
Qed.

Lemma makedirs_from_outcome (fuel : nat) (name : string) (w w' : World)
    (r : outcome unit) :
  Os.makedirs_from e fuel name w = (r, w') ->
  (r = Ret tt /\
   (Str.basename name <> "" -> Str.basename name <> "." ->
    fs w' !! name = Some Dir)) \/
  (r = Raise FileExistsError /\ exists c m, fs w' !! name = Some (File c m)).
Proof.
  revert name w w' r. induction fuel as [|fuel IH]; intros name w w' r H.
  - simpl in H. pose proof (basename_split name) as Hb.
    destruct (Str.split name) as [h0 t0]. simpl in Hb.
    destruct (match t0 with "" => Str.split h0 | String _ _ => (h0, t0) end)
      as [h t].
    unfold bind in H.
    destruct h, t; cbn in H;
      apply mkdir_or_isdir in H as [[-> D]|[-> F]]; auto.
  - simpl in H. pose proof (basename_split name) as Hb.
    destruct (Str.split name) as [h0 t0]. simpl in Hb.
    assert (Ht : forall h t,
               (match t0 with "" => Str.split h0 | String _ _ => (h0, t0) end)
               = (h, t) -> Str.basename name <> "" -> t = Str.basename name).
    { intros h t E N. destruct t0; [congruence|]. injection E as _ <-. congruence. }
    destruct (match t0 with "" => Str.split h0 | String _ _ => (h0, t0) end)
      as [h t].
    specialize (Ht h t eq_refl).
    unfold bind at 1 in H.
    match type of H with
    | context [match ?s w with _ => _ end] =>
        assert (Hs : exists b w1, s w = (Ret b, w1) /\ (b = true -> t = "."))
    end.
    { destruct h as [|hc h]; [exists false, w; split; [reflexivity | discriminate]|].
      destruct t as [|tc t]; [exists false, w; split; [reflexivity | discriminate]|].
      unfold bind, Os.path_exists.
      destruct (bool_decide (is_Some (fs w !! String hc h)));
        [exists false, w; split; [reflexivity | discriminate]|].
      unfold try_except.
      destruct (Os.makedirs_from e fuel (String hc h) w) as [[[]|x|c0] w1] eqn:E.
      - unfold ret. exists (String.eqb (String tc t) "."), w1.
        split; [reflexivity|]. now intros ->%String.eqb_eq.
      - apply IH in E as [[E _]|[E _]]; [discriminate|]. injection E as ->.
        simpl. unfold ret. exists (String.eqb (String tc t) "."), w1.
        split; [reflexivity|]. now intros ->%String.eqb_eq.
      - now apply no_exit_makedirs_from in E. }
    destruct Hs as (b & w1 & Es & Hb1). rewrite Es in H. destruct b.
    + injection H as <- <-. left. split; [reflexivity|].
      intros N1 N2. rewrite (Hb1 eq_refl) in Ht. specialize (Ht N1). congruence.
    + apply mkdir_or_isdir in H as [[-> D]|[-> F]]; auto.
Qed.

(** With no regular file in its place, [os.makedirs(name, exist_ok=True)]
    returns, having done nothing but create directories on the way to
    [name], which is a directory afterwards. *)
Lemma makedirs_calm (name : string) (w : World) :
  (forall c m, fs w !! name <> Some (File c m)) ->
  exists w', Os.makedirs e name w = (Ret tt, w') /\ grows_dirs name w w' /\
    (Str.basename name <> "" -> Str.basename name <> "." ->
     fs w' !! name = Some Dir).
Proof.
  intros NF. destruct (Os.makedirs e name w) as [r w'] eqn:H.
  pose proof (makedirs_grows e _ _ _ _ H) as G.
  apply makedirs_from_outcome in H as [[-> D]|[-> (c & m & F)]]; [eauto|].
  destruct G as (_ & _ & G). destruct (G name) as [E|(_ & E & _)].
  - rewrite E in F. now apply NF in F.
  - congruence.
Qed.

Lemma write_script_calm (p t : string) (w : World) :
  fault e (SysOpenW p) = None -> fault e (SysChmod p) = None ->
  fs w !! p <> Some Dir ->
  write_script e p t w = (Ret tt, set_fs w (<[p := File t mode_755]> (fs w))).
Proof.
  intros Fo Fc ND. unfold write_script, Os.open_write, Os.chmod, Os.syscall_gate, bind.
  rewrite Fo, Fc. unfold ret.
  destruct (fs w !! p) as [[c m|]|]; [|congruence|];
    simpl; rewrite lookup_insert_eq; unfold set_fs; simpl;
    now rewrite insert_insert_eq.
Qed.

End CalmCalls.

(** ** Setting up the external script *)

Section ExternalSetup.
Import StrFacts.
Variable e : Env.
Variables (app_path : string) (app_info : AppInfo).
Let exe := executable_path_of app_path app_info.
Let orig := original_executable_of app_path app_info.
Let script := script_path_of app_info.
Let wapp := wrapper_app_path_of e app_info.
Let wexe := wrapper_executable_of e app_info.
Let plist := plist_path_of e app_info.
Let launcher := launcher_text_of app_path app_info.
Let runner := "#!/bin/bash" ++ nl ++ script_path_of app_info ++ nl.

Lemma script_last : Str.last_char script = Some "h"%char.
Proof.
  assert (E : script
              = (INSTALL_DIR ++ "/"
                 ++ Str.replace " " "_" (Str.lower (name app_info)))
                ++ "_opengl.sh").
  { unfold script, script_path_of, script_name_of. now rewrite !app_assoc. }
  rewrite E, last_char_app by discriminate. reflexivity.
Qed.

Lemma script_ne_last (s t : string) (c : ascii) :
  c <> "h"%char -> s ++ t ++ String c "" <> script.
Proof.
  intros Hc E. apply (f_equal Str.last_char) in E.
  rewrite script_last, <- app_assoc, last_char_app in E by discriminate.
  simpl in E. congruence.
Qed.

Lemma macos_ne_script : wapp ++ "/Contents/MacOS" <> script.
Proof. apply (script_ne_last wapp "/Contents/MacO" "S"). discriminate. Qed.

Lemma resources_ne_script : wapp ++ "/Contents/Resources" <> script.
Proof. apply (script_ne_last wapp "/Contents/Resource" "s"). discriminate. Qed.

Lemma wexe_ne_script : wexe <> script.
Proof.
  unfold wexe, wrapper_executable_of. fold wapp.
  assert (E : wapp ++ "/Contents/MacOS/" ++ name app_info ++ " OpenGL"
              = wapp ++ ("/Contents/MacOS/" ++ name app_info ++ " OpenG")
                ++ String "L" "") by now rewrite !app_assoc.
  rewrite E. apply script_ne_last. discriminate.
Qed.

Lemma plist_ne_script : plist <> script.
Proof.
  unfold plist, plist_path_of. fold wapp.
  apply (script_ne_last wapp "/Contents/Info.plis" "t"). discriminate.
Qed.

Lemma wexe_not_dir_prefix :
  String.prefix wexe (wapp ++ "/Contents/MacOS") = false /\
  String.prefix wexe (wapp ++ "/Contents/Resources") = false.
Proof.
  unfold wexe, wrapper_executable_of. fold wapp.
  split;
    match goal with
    | |- ?b = false => destruct b eqn:E; [|reflexivity]
    end;
    apply prefix_length in E; rewrite !length_app in E; simpl in E; lia.
Qed.

Lemma plist_not_dir_prefix :
  String.prefix plist (wapp ++ "/Contents/MacOS") = false /\
  String.prefix plist (wapp ++ "/Contents/Resources") = false.
Proof.
  unfold plist, plist_path_of. fold wapp.
  split;
    match goal with
    | |- ?b = false => destruct b eqn:E; [|reflexivity]
    end;
    apply prefix_length in E; rewrite !length_app in E; simpl in E; lia.
Qed.

Lemma wexe_ne_plist : wexe <> plist.
Proof.
  unfold wexe, plist, wrapper_executable_of, plist_path_of. intros E.
  apply app_inv_head in E.
  apply (f_equal (String.prefix "/Contents/M")) in E.
  change ("/Contents/MacOS/" ++ name app_info ++ " OpenGL")
    with ("/Contents/M" ++ "acOS/" ++ name app_info ++ " OpenGL") in E.
  rewrite prefix_app in E. discriminate.
Qed.

Lemma basename_macos : Str.basename (wapp ++ "/Contents/MacOS") = "MacOS".
Proof.
  change "/Contents/MacOS" with ("/Contents" ++ "/" ++ "MacOS").
  rewrite <- app_assoc. now apply basename_after_slash.
Qed.

Lemma basename_resources :
  Str.basename (wapp ++ "/Contents/Resources") = "Resources".
Proof.
  change "/Contents/Resources" with ("/Contents" ++ "/" ++ "Resources").
  rewrite <- app_assoc. now apply basename_after_slash.
Qed.

(** On a launchable bundle, [create_script_and_wrapper] writes the launch
    script, makes the two directories of the wrapper application and goes
    on to fill it. *)
Lemma create_script_and_wrapper_reaches_fill (w : World) :
  launchable e app_path app_info w ->
  exists w4,
    create_script_and_wrapper e app_path app_info w
    = fill_wrapper_app e app_path app_info w4 /\
    procs w4 = procs w /\
    fs w4 !! script = Some (File launcher mode_755) /\
    fs w4 !! (wapp ++ "/Contents/Resources") = Some Dir /\
    forall q, q <> script ->
      fs w4 !! q = fs w !! q \/
      (fs w !! q = None /\ fs w4 !! q = Some Dir /\
       (String.prefix q (wapp ++ "/Contents/MacOS") = true \/
        String.prefix q (wapp ++ "/Contents/Resources") = true)).
Proof.
  unfold launchable. fold exe orig script wapp.
  intros ([n Hx] & Ho & Fo & Fc & Fm & NDs & NFm & NFr).
  destruct (create_script_and_wrapper e app_path app_info w) as [r w'] eqn:H.
  unfold create_script_and_wrapper in H. fold exe orig in H.
  rewrite (bind_ret _ _ _ _ _ (path_exists_some _ _ _ Hx)) in H.
  cbv beta iota delta [negb] in H.
  rewrite (bind_ret _ _ _ _ _ (path_exists_none _ _ Ho)) in H.
  unfold launch_script_and_wrapper in H. fold script launcher in H.
  run_in H.
  match type of H with
  | context [write_script e script launcher ?w0] =>
      rewrite (write_script_calm e script launcher w0 Fo Fc NDs) in H
  end.
  cbn [fs out procs set_fs] in H. unfold build_wrapper_app in H. fold wapp in H.
  match type of H with
  | bind _ _ ?w0 = _ =>
      destruct (makedirs_calm e Fm (wapp ++ "/Contents/MacOS") w0)
        as (w3 & E3 & G3 & _)
  end.
  { intros c m. cbn [fs]. rewrite lookup_insert_ne
      by (apply not_eq_sym, macos_ne_script). apply NFm. }
  rewrite (bind_ret _ _ _ _ _ E3) in H.
  destruct (makedirs_calm e Fm (wapp ++ "/Contents/Resources") w3)
    as (w4 & E4 & G4 & D4).
  { intros c m F. destruct G3 as (_ & _ & G3).
    destruct (G3 (wapp ++ "/Contents/Resources")) as [E|(_ & E & _)];
      [|congruence].
    rewrite E in F. cbn [fs] in F.
    rewrite lookup_insert_ne in F by (apply not_eq_sym, resources_ne_script).
    now apply NFr in F. }
  rewrite (bind_ret _ _ _ _ _ E4) in H.
  exists w4. split; [now rewrite H|].
  pose proof G3 as (_ & P3 & K3). pose proof G4 as (_ & P4 & K4).
  cbn [fs procs] in P3, K3. split; [congruence|]. split; [|split].
  - eapply grows_dirs_keeps; [exact G4|]. eapply grows_dirs_keeps; [exact G3|].
    cbn [fs]. apply lookup_insert_eq.
  - apply D4; rewrite basename_resources; discriminate.
  - intros q Hq. destruct (K4 q) as [E4'|(N4 & D4' & Q4)],
      (K3 q) as [E3'|(N3 & D3' & Q3)];
      rewrite ?lookup_insert_ne in * by congruence.
    + left. congruence.
    + right. rewrite E4'. auto.
    + right. rewrite <- E3'. auto.
    + congruence.
Qed.

Lemma fill_wrapper_app_refused (w : World) (x : exn) :
  fault e (SysOpenW wexe) = Some x ->
  fill_wrapper_app e app_path app_info w
  = (Ret false,
     {| fs := fs w;
        out := out w ++ ["Error creating wrapper executable for "
                         ++ name app_info ++ ": " ++ exn_text x];
        procs := procs w |}).
Proof.
  intros F. unfold fill_wrapper_app. fold wexe.
  unfold bind at 1, try_except, bind at 1.
  rewrite (write_script_refused e wexe _ w x F). reflexivity.
Qed.

Lemma fill_wrapper_app_plist_refused (w : World) (x : exn) :
  fault e (SysOpenW wexe) = None -> fault e (SysChmod wexe) = None ->
  fs w !! wexe <> Some Dir ->
  fault e (SysOpenW plist) = Some x ->
  fill_wrapper_app e app_path app_info w
  = (Raise x, set_fs w (<[wexe := File runner mode_755]> (fs w))).
Proof.
  intros Fo Fc ND F. unfold fill_wrapper_app. fold wexe plist.
  unfold bind at 1, try_except, bind at 1.
  rewrite (write_script_calm e wexe _ w Fo Fc ND). run_goal.
  unfold Os.open_write, Os.syscall_gate. rewrite F. reflexivity.
Qed.

(** X15.  When the operating system refuses to open the launch script for
    writing, [create_script_and_wrapper] on a bundle without sidecar stops
    there, the disk as it was and no tool started: it exits with status 1
    when the refusal is a permission error and returns [False] on any
    other. *)
Theorem launcher_write_refused (w : World) (x : exn) :
  is_Some (fs w !! exe) -> fs w !! orig = None ->
  fault e (SysOpenW script) = Some x ->
  fst (create_script_and_wrapper e app_path app_info w)
  = (if exn_eqb x PermissionError then Exit 1 else Ret false) /\
  fs (snd (create_script_and_wrapper e app_path app_info w)) = fs w /\
  procs (snd (create_script_and_wrapper e app_path app_info w)) = procs w.
Proof.
  intros [n Hx] Ho F.
  destruct (create_script_and_wrapper e app_path app_info w) as [r w'] eqn:H.
  cbn [fst snd]. unfold create_script_and_wrapper in H. fold exe orig in H.
  rewrite (bind_ret _ _ _ _ _ (path_exists_some _ _ _ Hx)) in H.
  cbv beta iota delta [negb] in H.
  rewrite (bind_ret _ _ _ _ _ (path_exists_none _ _ Ho)) in H.
  unfold launch_script_and_wrapper in H. fold script launcher in H. run_in H.
  rewrite (write_script_refused e script launcher _ x F) in H.
  unfold on_write_error in H.
  destruct (exn_eqb x PermissionError); run_in H; injection H as <- <-; auto.
Qed.

(** X16.  On a launchable bundle, when the operating system refuses to open the
    executable of the wrapper application for writing, with a permission
    error or any other, [create_script_and_wrapper] reports the error and
    returns [False]: the launch script is in place, [Info.plist] is not
    written. *)
Theorem wrapper_executable_refused (w : World) (x : exn) :
  launchable e app_path app_info w ->
  fault e (SysOpenW wexe) = Some x ->
  fst (create_script_and_wrapper e app_path app_info w) = Ret false /\
  last (out (snd (create_script_and_wrapper e app_path app_info w)))
  = Some ("Error creating wrapper executable for " ++ name app_info ++ ": "
          ++ exn_text x) /\
  fs (snd (create_script_and_wrapper e app_path app_info w)) !! script
  = Some (File launcher mode_755) /\
  fs (snd (create_script_and_wrapper e app_path app_info w)) !! plist
  = fs w !! plist.
Proof.
  intros L F.
  destruct (create_script_and_wrapper_reaches_fill w L)
    as (w4 & -> & _ & S4 & _ & K4).
  rewrite (fill_wrapper_app_refused w4 x F). cbn [fst snd fs out procs].
  split; [reflexivity|]. split; [apply last_snoc|]. split; [exact S4|].
  destruct (K4 plist plist_ne_script) as [E|(_ & _ & [Q|Q])]; [exact E| |].
  - now rewrite (proj1 plist_not_dir_prefix) in Q.
  - now rewrite (proj2 plist_not_dir_prefix) in Q.
Qed.

(** X17.  On a launchable bundle, when the executable of the wrapper application
    is written but the operating system refuses to open [Info.plist] for
    writing, the exception is not caught: it leaves
    [create_script_and_wrapper], with the launch script and the wrapper
    executable in place. *)
Theorem info_plist_refused (w : World) (x : exn) :
  launchable e app_path app_info w ->
  fault e (SysOpenW wexe) = None -> fault e (SysChmod wexe) = None ->
  fs w !! wexe <> Some Dir ->
  fault e (SysOpenW plist) = Some x ->
  fst (create_script_and_wrapper e app_path app_info w) = Raise x /\
  fs (snd (create_script_and_wrapper e app_path app_info w)) !! script
  = Some (File launcher mode_755) /\
  fs (snd (create_script_and_wrapper e app_path app_info w)) !! wexe
  = Some (File runner mode_755).
Proof.
  intros L Fo Fc ND F.
  destruct (create_script_and_wrapper_reaches_fill w L)
    as (w4 & -> & _ & S4 & _ & K4).
  assert (ND4 : fs w4 !! wexe <> Some Dir).
  { destruct (K4 wexe wexe_ne_script) as [E|(_ & _ & [Q|Q])]; [congruence| |].
    - now rewrite (proj1 wexe_not_dir_prefix) in Q.
    - now rewrite (proj2 wexe_not_dir_prefix) in Q. }
  rewrite (fill_wrapper_app_plist_refused w4 x Fo Fc ND4 F).
  cbn [fst snd fs out procs set_fs].
  split; [reflexivity|]. split.
  - rewrite lookup_insert_ne by apply wexe_ne_script. exact S4.
  - apply lookup_insert_eq.
Qed.

End ExternalSetup.

(** An instance: Spotify's launch script cannot be created, the disk being
    full. *)
Lemma launcher_write_refused_witness :
  is_Some (fs Sample.installed
             !! executable_path_of Sample.spotify_path Sample.spotify) /\
  fs Sample.installed !! original_executable_of Sample.spotify_path Sample.spotify
  = None /\
  fault (Sample.refusing (script_path_of Sample.spotify) OSError)
    (SysOpenW (script_path_of Sample.spotify)) = Some OSError /\
  fst (create_script_and_wrapper
         (Sample.refusing (script_path_of Sample.spotify) OSError)
         Sample.spotify_path Sample.spotify Sample.installed) = Ret false /\
  fs (snd (create_script_and_wrapper
             (Sample.refusing (script_path_of Sample.spotify) OSError)
             Sample.spotify_path Sample.spotify Sample.installed))
  = fs Sample.installed.
Proof.
  assert (X : is_Some (fs Sample.installed
                         !! executable_path_of Sample.spotify_path Sample.spotify))
    by (vm_compute; eauto).
  assert (O : fs Sample.installed
              !! original_executable_of Sample.spotify_path Sample.spotify = None)
    by (vm_compute; reflexivity).
  assert (F : fault (Sample.refusing (script_path_of Sample.spotify) OSError)
                (SysOpenW (script_path_of Sample.spotify)) = Some OSError)
    by (vm_compute; reflexivity).
  split; [exact X|]. split; [exact O|]. split; [exact F|].
  destruct (launcher_write_refused _ _ _ _ _ X O F) as (R & K & _).
  split; [exact R | exact K].
Defined.

(** An instance: the executable of Spotify's wrapper application cannot be
    written for lack of permission; the call returns [False]. *)
Lemma wrapper_executable_refused_witness :
  launchable
    (Sample.refusing (wrapper_executable_of Sample.calm Sample.spotify)
       PermissionError)
    Sample.spotify_path Sample.spotify Sample.installed /\
  fault (Sample.refusing (wrapper_executable_of Sample.calm Sample.spotify)
           PermissionError)
    (SysOpenW (wrapper_executable_of
                 (Sample.refusing (wrapper_executable_of Sample.calm Sample.spotify)
                    PermissionError) Sample.spotify))
  = Some PermissionError /\
  fst (create_script_and_wrapper
         (Sample.refusing (wrapper_executable_of Sample.calm Sample.spotify)
            PermissionError)
         Sample.spotify_path Sample.spotify Sample.installed) = Ret false.
Proof.
  assert (L : launchable
                (Sample.refusing (wrapper_executable_of Sample.calm Sample.spotify)
                   PermissionError)
                Sample.spotify_path Sample.spotify Sample.installed).
  { split; [vm_compute; eauto|]. split; [vm_compute; reflexivity|].
    split; [vm_compute; reflexivity|]. split; [vm_compute; reflexivity|].
    split; [intros q; reflexivity|]. split; [vm_compute; discriminate|].
    split; intros c m; vm_compute; discriminate. }
  assert (F : fault (Sample.refusing
                       (wrapper_executable_of Sample.calm Sample.spotify)
                       PermissionError)
                (SysOpenW (wrapper_executable_of
                             (Sample.refusing
                                (wrapper_executable_of Sample.calm Sample.spotify)
                                PermissionError) Sample.spotify))
              = Some PermissionError) by (vm_compute; reflexivity).
  split; [exact L|]. split; [exact F|].
  exact (proj1 (wrapper_executable_refused _ _ _ _ _ L F)).
Defined.

(** An instance: the [Info.plist] of Spotify's wrapper application cannot
    be written, the disk being full; the exception leaves the call. *)
Lemma info_plist_refused_witness :
  launchable (Sample.refusing (plist_path_of Sample.calm Sample.spotify) OSError)
    Sample.spotify_path Sample.spotify Sample.installed /\
  fault (Sample.refusing (plist_path_of Sample.calm Sample.spotify) OSError)
    (SysOpenW (plist_path_of
                 (Sample.refusing (plist_path_of Sample.calm Sample.spotify)
                    OSError) Sample.spotify))
  = Some OSError /\
  fst (create_script_and_wrapper
         (Sample.refusing (plist_path_of Sample.calm Sample.spotify) OSError)
         Sample.spotify_path Sample.spotify Sample.installed) = Raise OSError.
Proof.
  assert (L : launchable
                (Sample.refusing (plist_path_of Sample.calm Sample.spotify) OSError)
                Sample.spotify_path Sample.spotify Sample.installed).
  { split; [vm_compute; eauto|]. split; [vm_compute; reflexivity|].
    split; [vm_compute; reflexivity|]. split; [vm_compute; reflexivity|].
    split; [intros q; reflexivity|]. split; [vm_compute; discriminate|].
    split; intros c m; vm_compute; discriminate. }
  assert (F : fault (Sample.refusing (plist_path_of Sample.calm Sample.spotify)
                       OSError)
                (SysOpenW (plist_path_of
                             (Sample.refusing
                                (plist_path_of Sample.calm Sample.spotify) OSError)
                             Sample.spotify))
              = Some OSError) by (vm_compute; reflexivity).
  assert (Fo : fault (Sample.refusing (plist_path_of Sample.calm Sample.spotify)
                        OSError)
                 (SysOpenW (wrapper_executable_of
                              (Sample.refusing
                                 (plist_path_of Sample.calm Sample.spotify) OSError)
                              Sample.spotify)) = None)
    by (vm_compute; reflexivity).
  assert (N : fs Sample.installed
              !! wrapper_executable_of
                   (Sample.refusing (plist_path_of Sample.calm Sample.spotify)
                      OSError) Sample.spotify <> Some Dir)
    by (vm_compute; discriminate).
  split; [exact L|]. split; [exact F|].
  exact (proj1 (info_plist_refused _ _ _ _ _ L Fo eq_refl N F)).
Defined.

(** ** A first set-up with the external script *)

Section FirstSetUp.
Import StrFacts.
Variable e : Env.
Hypothesis calm : forall c, fault e c = None.
Variables (app_path : string) (app_info : AppInfo).
Let exe := executable_path_of app_path app_info.
Let orig := original_executable_of app_path app_info.
Let script := script_path_of app_info.
Let wapp := wrapper_app_path_of e app_info.
Let wexe := wrapper_executable_of e app_info.
Let plist := plist_path_of e app_info.
Let icon := icon_path_of app_path app_info.
Let launcher := launcher_text_of app_path app_info.
Let runner := "#!/bin/bash" ++ nl ++ script_path_of app_info ++ nl.

Lemma open_write_calm (p t : string) (w : World) :
  fs w !! p <> Some Dir ->
  exists m, Os.open_write e p t w
            = (Ret tt, set_fs w (<[p := File t m]> (fs w))).
Proof.
  intros ND. unfold Os.open_write, Os.syscall_gate, bind. rewrite calm.
  unfold ret. destruct (fs w !! p) as [[c m|]|]; [eauto|congruence|eauto].
Qed.

Lemma icon_inside : inside app_path icon.
Proof.
  unfold inside, icon, icon_path_of.
  change (app_path ++ "/Contents/Resources/" ++ name app_info ++ ".icns")
    with (app_path ++ "/" ++ "Contents/Resources/" ++ name app_info ++ ".icns").
  rewrite <- app_assoc. apply prefix_app.
Qed.

Lemma wexe_artifact : artifact e app_info wexe.
Proof.
  unfold wexe, wrapper_executable_of.
  change ("/Contents/MacOS/" ++ name app_info ++ " OpenGL")
    with ("/Contents/" ++ "MacOS/" ++ name app_info ++ " OpenGL").
  apply under_contents_is_artifact.
Qed.

Lemma plist_artifact : artifact e app_info plist.
Proof.
  unfold plist, plist_path_of.
  change "/Contents/Info.plist" with ("/Contents/" ++ "Info.plist").
  apply under_contents_is_artifact.
Qed.

Lemma script_artifact : artifact e app_info script.
Proof. now left. Qed.



Lemma rstrip_slash_slash (s : string) :
  Str.rstrip_slash (s ++ "/") = Str.rstrip_slash s.
Proof.
  induction s as [|c s IH]; [reflexivity|].
  rewrite app_cons. simpl. now rewrite IH.
Qed.

Let res := wapp ++ "/Contents/Resources".
Let dst := res ++ "/" ++ name app_info ++ ".icns".

Lemma norm_resources_slash : Os.norm (res ++ "/") = res.
Proof.
  unfold Os.norm, Str.trim_head. rewrite rstrip_slash_slash.
  assert (E : res = (wapp ++ "/Contents/Resource") ++ String "s" "")
    by (unfold res; now rewrite app_assoc).
  rewrite E, rstrip_slash_keeps by discriminate.
  destruct ((wapp ++ "/Contents/Resource") ++ String "s" "") eqn:N;
    [now apply app_not_nil in N | reflexivity].
Qed.

Lemma path_join_slash (a b : string) : Str.path_join (a ++ "/") b = (a ++ "/") ++ b.
Proof.
  unfold Str.path_join, Str.ends_with_slash.
  change (a ++ "/") with (a ++ String Str.slash "").
  rewrite split_last_slash_after by reflexivity.
  destruct (a ++ String Str.slash "") eqn:N; [now apply app_not_nil in N|].
  reflexivity.
Qed.

Lemma basename_icon :
  Str.no_slash (name app_info) = true -> Str.basename icon = name app_info ++ ".icns".
Proof.
  intros N. unfold icon, icon_path_of.
  change (app_path ++ "/Contents/Resources/" ++ name app_info ++ ".icns")
    with (app_path ++ "/Contents/Resources" ++ "/" ++ name app_info ++ ".icns").
  rewrite <- app_assoc. apply basename_after_slash.
  rewrite no_slash_app, N. reflexivity.
Qed.

Lemma resources_ne_wexe (s : string) : res ++ s <> wexe.
Proof.
  unfold res, wexe, wrapper_executable_of. fold wapp. rewrite app_assoc.
  intros E. apply app_inv_head in E.
  apply (f_equal (String.prefix "/Contents/R")) in E.
  change ("/Contents/Resources" ++ s) with ("/Contents/R" ++ "esources" ++ s) in E.
  rewrite prefix_app in E. discriminate.
Qed.

Lemma resources_ne_plist (s : string) : res ++ s <> plist.
Proof.
  unfold res, plist, plist_path_of. fold wapp. rewrite app_assoc.
  intros E. apply app_inv_head in E.
  apply (f_equal (String.prefix "/Contents/R")) in E.
  change ("/Contents/Resources" ++ s) with ("/Contents/R" ++ "esources" ++ s) in E.
  rewrite prefix_app in E. discriminate.
Qed.

Lemma below_resources_frame (s : string) :
  s <> "" ->
  String.prefix (res ++ s) (wapp ++ "/Contents/MacOS") = false /\
  String.prefix (res ++ s) (wapp ++ "/Contents/Resources") = false.
Proof.
  intros Hs. unfold res.
  split;
    match goal with
    | |- ?b = false => destruct b eqn:E; [|reflexivity]
    end;
    apply prefix_length in E; rewrite !length_app in E; simpl in E;
    destruct s; [congruence| |congruence|]; simpl in E; lia.
Qed.

Lemma dst_artifact : artifact e app_info dst.
Proof.
  unfold dst, res. rewrite app_assoc.
  change ("/Contents/Resources" ++ "/" ++ name app_info ++ ".icns")
    with ("/Contents/" ++ "Resources/" ++ name app_info ++ ".icns").
  apply under_contents_is_artifact.
Qed.

(** From the point where the wrapper application is filled, with an icon
    in the bundle and the [Resources] directory made. *)
Lemma fill_wrapper_app_calm_icon (w : World) (ci : string) (mi : Z) :
  fs w !! wexe <> Some Dir -> fs w !! plist <> Some Dir ->
  fs w !! icon = Some (File ci mi) ->
  icon <> wexe -> icon <> plist -> icon <> dst ->
  Str.no_slash (name app_info) = true ->
  fs w !! res = Some Dir -> fs w !! (res ++ "/") = None ->
  fs w !! dst <> Some Dir ->
  exists m w',
    fill_wrapper_app e app_path app_info w = (Ret true, w') /\
    procs w' = procs w /\
    fs w' = <[dst := File ci mi]>
              (<[plist := File (plist_content (name app_info)) m]>
                 (<[wexe := File runner mode_755]> (fs w))).
Proof.
  intros NDx NDp Hi Nx Np Nd NS HR HRs NDd.
  unfold fill_wrapper_app. fold wexe plist icon wapp.
  unfold bind at 1, try_except, bind at 1.
  rewrite (write_script_calm e wexe _ w (calm _) (calm _) NDx).
  cbv beta iota delta [ret negb].
  destruct (open_write_calm plist (plist_content (name app_info))
              (set_fs w (<[wexe := File runner mode_755]> (fs w)))) as [m E].
  { cbn [fs set_fs]. rewrite lookup_insert_ne by apply wexe_ne_plist. exact NDp. }
  exists m. rewrite (bind_ret _ _ _ _ _ E).
  set (w2 := set_fs (set_fs w (<[wexe := File runner mode_755]> (fs w)))
               (<[plist := File (plist_content (name app_info)) m]>
                  (fs (set_fs w (<[wexe := File runner mode_755]> (fs w)))))).
  assert (L2 : forall q, q <> wexe -> q <> plist -> fs w2 !! q = fs w !! q).
  { intros q Q1 Q2. subst w2. cbn [fs set_fs].
    now rewrite !lookup_insert_ne by congruence. }
  assert (I2 : fs w2 !! icon = Some (File ci mi))
    by (rewrite L2 by assumption; exact Hi).
  rewrite (bind_ret _ _ _ _ _ (path_exists_some icon _ _ I2)).
  assert (C : exists w3,
             Os.copy e icon (wapp ++ "/Contents/Resources/") w2 = (Ret tt, w3) /\
             procs w3 = procs w2 /\ out w3 = out w2 /\
             fs w3 = <[dst := File ci mi]> (fs w2)).
  { unfold Os.copy, Os.isdir. unfold bind at 1.
    change (wapp ++ "/Contents/Resources/") with (wapp ++ "/Contents/Resources" ++ "/").
    rewrite <- app_assoc. fold res.
    rewrite (L2 (res ++ "/")), HRs
      by (first [apply resources_ne_wexe | apply resources_ne_plist]).
    rewrite norm_resources_slash.
    rewrite (L2 res), HR
      by (rewrite <- (app_nil_r res);
          first [apply resources_ne_wexe | apply resources_ne_plist]).
    cbn [is_dir_node]. rewrite I2, path_join_slash, (basename_icon NS).
    rewrite app_assoc. fold dst.
    destruct (String.eqb_spec icon dst) as [Eq|_]; [contradiction|].
    unfold Os.syscall_gate. rewrite calm. unfold bind at 1, ret.
    destruct (open_write_calm dst ci w2) as [m0 E0].
    { rewrite L2; [exact NDd | apply resources_ne_wexe | apply resources_ne_plist]. }
    rewrite (bind_ret _ _ _ _ _ E0).
    unfold Os.chmod, Os.syscall_gate, bind. rewrite calm. unfold ret.
    cbn [fs set_fs]. rewrite lookup_insert_eq.
    eexists. split; [reflexivity|]. cbn [fs procs out set_fs].
    now rewrite insert_insert_eq. }
  destruct C as (w3 & E3 & P3 & O3 & F3).
  rewrite (bind_ret _ _ _ _ _ E3). run_goal.
  eexists. split; [reflexivity|]. cbn [fs procs]. split; [exact P3|].
  exact F3.
Qed.

(** X19.  On a launchable bundle apart from what is generated, with an icon
    named after the app in its resources and an operating system that
    refuses nothing, [create_script_and_wrapper] returns [True] and the
    icon, content and permission bits, is copied under the same name into
    the resources of the wrapper application, the icon of the bundle
    staying as it was. *)
Theorem icon_is_copied (w : World) (ci : string) (mi : Z) :
  launchable e app_path app_info w ->
  apart e app_path app_info ->
  Str.no_slash (name app_info) = true ->
  fs w !! wexe <> Some Dir -> fs w !! plist <> Some Dir ->
  fs w !! icon = Some (File ci mi) ->
  fs w !! (res ++ "/") = None -> fs w !! dst <> Some Dir ->
  fst (create_script_and_wrapper e app_path app_info w) = Ret true /\
  fs (snd (create_script_and_wrapper e app_path app_info w)) !! dst
  = Some (File ci mi) /\
  fs (snd (create_script_and_wrapper e app_path app_info w)) !! icon
  = Some (File ci mi).
Proof.
  intros L A NS NDx NDp Hi HRs NDd.
  destruct (create_script_and_wrapper_reaches_fill e app_path app_info w L)
    as (w4 & -> & P4 & S4 & R4 & K4).
  fold script wapp launcher in S4, K4. fold wapp res in R4.
  assert (Same : forall q, q <> script ->
                   String.prefix q (wapp ++ "/Contents/MacOS") = false ->
                   String.prefix q (wapp ++ "/Contents/Resources") = false ->
                   fs w4 !! q = fs w !! q).
  { intros q Hq Q1 Q2. destruct (K4 q Hq) as [E|(_ & _ & [Q|Q])]; congruence. }
  assert (NA : ~ artifact e app_info icon).
  { apply (apart_not_artifact e app_path app_info); [exact A | apply icon_inside]. }
  assert (I4 : fs w4 !! icon = Some (File ci mi)).
  { destruct (K4 icon) as [E|(N & _)]; [|congruence|congruence].
    intros E. apply NA. rewrite E. apply script_artifact. }
  assert (Nsl : res ++ "/" <> script).
  { intros E. apply (f_equal Str.last_char) in E. unfold script in E.
    rewrite script_last, last_char_app in E by discriminate. discriminate E. }
  assert (Nds : dst <> script).
  { unfold dst. intros E. apply (f_equal Str.last_char) in E.
    unfold script in E. rewrite script_last in E.
    assert (D : res ++ "/" ++ name app_info ++ ".icns"
                = (res ++ "/" ++ name app_info) ++ ".icns")
      by now rewrite !app_assoc.
    rewrite D, last_char_app in E by discriminate. discriminate E. }
  destruct (fill_wrapper_app_calm_icon w4 ci mi) as (m & w5 & E5 & _ & F5).
  - rewrite Same; [exact NDx | apply wexe_ne_script
                   | apply wexe_not_dir_prefix | apply wexe_not_dir_prefix].
  - rewrite Same; [exact NDp | apply plist_ne_script
                   | apply plist_not_dir_prefix | apply plist_not_dir_prefix].
  - exact I4.
  - intros Eq. apply NA. rewrite Eq. apply wexe_artifact.
  - intros Eq. apply NA. rewrite Eq. apply plist_artifact.
  - intros Eq. apply NA. rewrite Eq. apply dst_artifact.
  - exact NS.
  - exact R4.
  - rewrite Same; [exact HRs | exact Nsl
                   | apply below_resources_frame; discriminate
                   | apply below_resources_frame; discriminate].
  - unfold dst in *. rewrite Same; [exact NDd | exact Nds | |];
      apply below_resources_frame; discriminate.
  - rewrite E5. cbn [fst snd]. split; [reflexivity|]. rewrite F5. split.
    + apply lookup_insert_eq.
    + rewrite !lookup_insert_ne; [exact I4| | |].
      * intros Eq. apply NA. rewrite <- Eq. apply wexe_artifact.
      * intros Eq. apply NA. rewrite <- Eq. apply plist_artifact.
      * intros Eq. apply NA. rewrite <- Eq. apply dst_artifact.
Qed.

End FirstSetUp.


(** An instance: Spotify has an icon in its bundle. *)
Lemma icon_is_copied_witness :
  launchable Sample.calm Sample.spotify_path Sample.spotify Sample.with_icon /\
  apart Sample.calm Sample.spotify_path Sample.spotify /\
  fs Sample.with_icon !! icon_path_of Sample.spotify_path Sample.spotify
  = Some (File "icns spotify" 420) /\
  fst (create_script_and_wrapper Sample.calm Sample.spotify_path Sample.spotify
         Sample.with_icon) = Ret true /\
  fs (snd (create_script_and_wrapper Sample.calm Sample.spotify_path
             Sample.spotify Sample.with_icon))
    !! "/Users/me/Applications/Spotify OpenGL.app/Contents/Resources/Spotify.icns"
  = Some (File "icns spotify" 420).
Proof.
  assert (L : launchable Sample.calm Sample.spotify_path Sample.spotify
                Sample.with_icon).
  { split; [vm_compute; eauto|]. split; [vm_compute; reflexivity|].
    split; [vm_compute; reflexivity|]. split; [vm_compute; reflexivity|].
    split; [intros q; reflexivity|]. split; [vm_compute; discriminate|].
    split; intros c m; vm_compute; discriminate. }
  assert (A : apart Sample.calm Sample.spotify_path Sample.spotify)
    by (repeat split; vm_compute; reflexivity).
  assert (I : fs Sample.with_icon
              !! icon_path_of Sample.spotify_path Sample.spotify
              = Some (File "icns spotify" 420)) by (vm_compute; reflexivity).
  assert (Nx : fs Sample.with_icon
               !! wrapper_executable_of Sample.calm Sample.spotify <> Some Dir)
    by (vm_compute; discriminate).
  assert (Np : fs Sample.with_icon
               !! plist_path_of Sample.calm Sample.spotify <> Some Dir)
    by (vm_compute; discriminate).
  assert (Rs : fs Sample.with_icon
               !! ((wrapper_app_path_of Sample.calm Sample.spotify
                    ++ "/Contents/Resources") ++ "/") = None)
    by (vm_compute; reflexivity).
  assert (Nd : fs Sample.with_icon
               !! ((wrapper_app_path_of Sample.calm Sample.spotify
                    ++ "/Contents/Resources") ++ "/"
                   ++ name Sample.spotify ++ ".icns") <> Some Dir)
    by (vm_compute; discriminate).
  split; [exact L|]. split; [exact A|]. split; [exact I|].
  destruct (icon_is_copied Sample.calm (fun _ => eq_refl)
              Sample.spotify_path Sample.spotify Sample.with_icon
              "icns spotify" 420 L A eq_refl Nx Np I Rs Nd)
    as (R & X & _).
  split; [exact R | exact X].
Defined.

(** ** The run as a whole *)

Section WholeRun.
Variable e : Env.

(** X20.  The loop over the table, cut in two: when the loop over the first part
    returns, the run goes on with the second part from the world it left;
    when it ends in an exception or an exit, the whole loop ends the same
    way in the same world, and no app of the second part is processed. *)
Theorem for_each_app_app (done rest : list (string * AppInfo)) (w : World) :
  for_each_app e (done ++ rest)%list w
  = match for_each_app e done w with
    | (Ret _, w1) => for_each_app e rest w1
    | (Raise x, w1) => (Raise x, w1)
    | (Exit c, w1) => (Exit c, w1)
    end.
Proof.
  revert w. induction done as [|[app_path app_info] done IH]; intros w.
  - reflexivity.
  - simpl. unfold bind.
    destruct (process_app e app_path app_info w) as [[[]|x|c] w1];
      [apply IH | reflexivity..].
Qed.

(** X21.  A run that returns has started the reset of Launch Services as its
    last tools, [lsregister] and, unless that exited with a non-zero
    status, [killall Dock], and has printed the closing line last. *)
Theorem main_returns (apps : list (string * AppInfo)) (w w' : World) :
  main_on e apps w = (Ret tt, w') ->
  (last (procs w') = Some ["killall"; "Dock"] \/
   (last (procs w') = Some lsregister_cmd /\
    proc e lsregister_cmd = Some CalledProcessError)) /\
  last (out w')
  = Some "Setup complete. For 'patch' apps, launch normally. For 'script' apps, use '~/Applications/<App Name> OpenGL.app' or '<app_name>_opengl.sh'.".
Proof.
  unfold main_on. intros H.
  apply bind_ret_inv in H as ([] & w0 & _ & H).
  apply bind_ret_inv in H as ([] & w1 & _ & H).
  apply bind_ret_inv in H as ([] & w2 & _ & H).
  apply bind_ret_inv in H as ([] & w3 & L & H).
  apply bind_ret_inv in H as ([] & w4 & R & H).
  injection H as <-. cbn [out procs]. split; [|apply last_snoc].
  unfold reset_launch_services in R. run_in R. rewrite !run_spec in R. run_in R.
  destruct (proc e lsregister_cmd) as [x|].
  - right. destruct x; run_in R; try discriminate. injection R as <-.
    cbn [procs]. split; [apply last_snoc | reflexivity].
  - left. run_in R.
    destruct (proc e ["killall"; "Dock"]) as [x|];
      [destruct x; run_in R; try discriminate|];
      injection R as <-; cbn [procs]; apply last_snoc.
Qed.

End WholeRun.

(** An instance: the whole run on the sample installation. *)
Lemma main_returns_witness :
  main Sample.calm Sample.installed
  = (Ret tt, snd (main Sample.calm Sample.installed)) /\
  last (procs (snd (main Sample.calm Sample.installed)))
  = Some ["killall"; "Dock"].
Proof.
  assert (H : main_on Sample.calm APPS_TO_PATCH Sample.installed
              = (Ret tt, snd (main Sample.calm Sample.installed)))
    by (vm_compute; reflexivity).
  split; [exact H|].
  destruct (main_returns _ _ _ _ H) as ([K|[_ K]] & _).
  - exact K.
  - discriminate K.
Defined.

(** ** The name of the launch script *)

Section ScriptName.
Import StrFacts.





End ScriptName.

(** ** When nothing is refused *)

Section CalmRuns.
Import StrFacts.
Variable e : Env.
Hypothesis calm : forall c, fault e c = None.

Lemma copy_calm (src dst c : string) (m : Z) (w : World) :
  fs w !! src = Some (File c m) -> not_a_dir dst w -> src <> dst ->
  Os.copy e src dst w = (Ret tt, set_fs w (<[dst := File c m]> (fs w))).
Proof.
  intros Hs Hd Hne. unfold Os.copy.
  rewrite (bind_ret _ _ _ _ _ (isdir_not_a_dir _ _ Hd)). rewrite Hs.
  destruct (String.eqb_spec src dst) as [E|_]; [contradiction|].
  unfold Os.open_write, Os.chmod, Os.syscall_gate, bind. rewrite !calm.
  unfold ret.
  assert (ND : exists m0, (match fs w !! dst with
                           | Some (File _ m1) =>
                               (Ret tt, set_fs w (<[dst := File c m1]> (fs w)))
                           | Some Dir => (Raise IsADirectoryError, w)
                           | None =>
                               (Ret tt,
                                set_fs w (<[dst := File c (create_mode e)]> (fs w)))
                           end)
                          = (Ret tt, set_fs w (<[dst := File c m0]> (fs w)))).
  { destruct Hd as [(c0 & m0 & E)|[E _]]; rewrite E; eauto. }
  destruct ND as [m0 ->]. cbn [fs set_fs]. rewrite lookup_insert_eq.
  unfold set_fs. cbn [fs out procs]. now rewrite insert_insert_eq.
Qed.

(** With a regular file at [p], no regular file where [Backups] goes and
    no directory at the backup's path, [backup_file] returns [True]. *)
Lemma backup_file_calm (p c : string) (m : Z) (w : World) :
  fs w !! p = Some (File c m) ->
  (forall c' m', fs w !! backup_dir_of p <> Some (File c' m')) ->
  fs w !! backup_path_of e p <> Some Dir ->
  exists wb,
    backup_file e p w = (Ret true, wb) /\
    procs wb = procs w /\
    out wb = (out w ++ [("Backup created: " ++ backup_path_of e p)%string])%list /\
    fs wb !! backup_path_of e p = Some (File c m) /\
    (forall q n, q <> backup_path_of e p -> fs w !! q = Some n ->
                 fs wb !! q = Some n) /\
    (forall q, q <> backup_path_of e p ->
               String.prefix q (backup_dir_of p) = false ->
               fs wb !! q = fs w !! q).
Proof.
  intros Hp NF ND. unfold backup_file.
  rewrite (bind_ret _ _ _ _ _ (path_exists_some _ _ _ Hp)).
  cbv beta iota delta [negb].
  destruct (makedirs_calm e (fun q => calm _) (backup_dir_of p) w NF)
    as (w1 & E1 & G1 & _).
  rewrite (bind_ret _ _ _ _ _ E1).
  assert (Hp1 : fs w1 !! p = Some (File c m))
    by (eapply grows_dirs_keeps; eassumption).
  assert (B1 : fs w1 !! backup_path_of e p = fs w !! backup_path_of e p).
  { eapply grows_dirs_keeps_at; [exact G1|apply backup_path_not_under_backup_dir]. }
  assert (D1 : not_a_dir (backup_path_of e p) w1).
  { unfold not_a_dir. rewrite B1.
    destruct (fs w !! backup_path_of e p) as [[c1 m1|]|]; [eauto|congruence|].
    right. split; [reflexivity | apply norm_backup_path]. }
  rewrite (bind_ret _ _ _ _ _
             (copy_calm p (backup_path_of e p) c m w1 Hp1 D1
                (not_eq_sym (backup_path_ne e p)))).
  run_goal. eexists. split; [reflexivity|]. cbn [fs out procs].
  destruct G1 as (O1 & P1 & K1).
  split; [exact P1|]. split; [now rewrite O1|].
  split; [apply lookup_insert_eq|]. split.
  - intros q n Hq Hn. rewrite lookup_insert_ne by congruence.
    destruct (K1 q) as [E|(N & _)]; congruence.
  - intros q Hq Pq. rewrite lookup_insert_ne by congruence.
    destruct (K1 q) as [E|(_ & _ & Q)]; congruence.
Qed.

(** X23.  With an operating system that refuses nothing, a regular file at [p],
    no regular file where the [Backups] directory goes and no directory
    at the backup's path, [backup_file] returns [True]: the backup holds
    the file's content and permission bits, the file is as it was, and the
    backup's path is the last line printed. *)
Theorem backup_file_succeeds (p c : string) (m : Z) (w : World) :
  fs w !! p = Some (File c m) ->
  (forall c' m', fs w !! backup_dir_of p <> Some (File c' m')) ->
  fs w !! backup_path_of e p <> Some Dir ->
  fst (backup_file e p w) = Ret true /\
  fs (snd (backup_file e p w)) !! backup_path_of e p = Some (File c m) /\
  fs (snd (backup_file e p w)) !! p = Some (File c m) /\
  last (out (snd (backup_file e p w)))
  = Some ("Backup created: " ++ backup_path_of e p).
Proof.
  intros Hp NF ND.
  destruct (backup_file_calm p c m w Hp NF ND) as (wb & -> & _ & O & B & K & _).
  cbn [fst snd]. split; [reflexivity|]. split; [exact B|]. split.
  - apply K; [apply not_eq_sym, backup_path_ne | exact Hp].
  - rewrite O. apply last_snoc.
Qed.

(** X24.  A directory that a run needs: when something has its name, nothing is
    done, whatever that is; when nothing has, and [os.makedirs] is not
    refused, it is a directory afterwards and what was on the disk is
    still there. *)
Theorem ensure_dir_outcome (d : string) (w : World) :
  (is_Some (fs w !! d) -> ensure_dir e d w = (Ret tt, w)) /\
  (fs w !! d = None -> Str.basename d <> "" -> Str.basename d <> "." ->
   fst (ensure_dir e d w) = Ret tt /\
   fs (snd (ensure_dir e d w)) !! d = Some Dir /\
   procs (snd (ensure_dir e d w)) = procs w /\
   forall q n, fs w !! q = Some n -> fs (snd (ensure_dir e d w)) !! q = Some n).
Proof.
  unfold ensure_dir. split.
  - intros [n Hn]. now rewrite (bind_ret _ _ _ _ _ (path_exists_some _ _ _ Hn)).
  - intros Hd B1 B2. rewrite (bind_ret _ _ _ _ _ (path_exists_none _ _ Hd)).
    cbv beta iota delta [negb].
    destruct (makedirs_calm e (fun q => calm _) d w) as (w1 & -> & G & D).
    { intros c m. congruence. }
    cbn [fst snd]. split; [reflexivity|]. split; [now apply D|]. split.
    + now apply grows_dirs_procs in G.
    + intros q n Hq. eapply grows_dirs_keeps; eassumption.
Qed.

Variables (app_path : string) (app_info : AppInfo).
Let exe := executable_path_of app_path app_info.
Let orig := original_executable_of app_path app_info.
Let wr := wrapper_script_of app_path app_info.

(** X25.  With an operating system that refuses nothing and a signing tool that
    succeeds (the quarantine tool may exit with a non-zero status), a first
    patch of a bundle whose executable is a regular file returns [True]:
    the binary is in the sidecar and in the backup, the wrapper script,
    executable by all, is at the executable path, and the two tools were
    started, [codesign] first. *)
Theorem patch_in_bundle_succeeds (w : World) (c : string) (m : Z) :
  proc e (codesign_cmd app_path) = None ->
  proc e (xattr_cmd app_path) = None \/
  proc e (xattr_cmd app_path) = Some CalledProcessError ->
  unpatched app_path app_info (File c m) w ->
  (forall c' m', fs w !! backup_dir_of exe <> Some (File c' m')) ->
  fs w !! backup_path_of e exe <> Some Dir ->
  fst (patch_in_bundle e app_path app_info w) = Ret true /\
  fs (snd (patch_in_bundle e app_path app_info w)) !! exe
  = Some (File wr mode_755) /\
  fs (snd (patch_in_bundle e app_path app_info w)) !! orig = Some (File c m) /\
  fs (snd (patch_in_bundle e app_path app_info w)) !! backup_path_of e exe
  = Some (File c m) /\
  procs (snd (patch_in_bundle e app_path app_info w))
  = (procs w ++ [codesign_cmd app_path; xattr_cmd app_path])%list.
Proof.
  unfold unpatched. fold exe orig. intros Hc Hxa [Ho Hx] NF ND.
  destruct (patch_in_bundle e app_path app_info w) as [r w'] eqn:H.
  cbn [fst snd]. unfold patch_in_bundle in H. fold exe orig in H.
  cbv beta iota zeta delta [bind Os.print] in H.
  rewrite (path_exists_some exe (File c m)) in H by exact Hx.
  cbv beta iota delta [negb] in H.
  rewrite (path_exists_none orig) in H by exact Ho.
  cbv beta iota delta [negb] in H.
  match type of H with
  | context [backup_file e exe ?w0] =>
      destruct (backup_file_calm exe c m w0 Hx NF ND)
        as (wb & EB & Pb & _ & Bb & Kb & Fb)
  end.
  cbn [fs procs] in Pb, Kb, Fb. rewrite EB in H.
  cbv beta iota delta [negb ret] in H.
  assert (Hxb : fs wb !! exe = Some (File c m)).
  { apply Kb; [apply not_eq_sym, backup_path_ne | exact Hx]. }
  assert (Hob : fs wb !! orig = None).
  { rewrite Fb; [exact Ho | apply orig_ne_backup_path
                 | apply orig_not_under_backup_dir]. }
  assert (NDo : not_a_dir orig wb).
  { right. split; [exact Hob | apply norm_orig]. }
  rewrite (move_file_exact e exe orig c m wb Hxb NDo), calm in H.
  unfold patch_write_and_sign in H. fold exe orig wr in H.
  unfold bind at 1, try_except, bind at 1 in H.
  rewrite (write_script_calm e exe wr _ (calm _) (calm _)) in H.
  2:{ cbn [fs set_fs].
      rewrite lookup_insert_ne by (apply not_eq_sym, exe_ne_orig).
      rewrite lookup_delete_eq. discriminate. }
  run_in H.
  match type of H with
  | context [resign_app e app_path ?n ?w0] =>
      destruct (resign_app e app_path n w0) as [rs ws] eqn:ER
  end.
  apply resign_app_spec in ER as [Fs Hrs]. cbn [fs procs] in Fs, Hrs.
  rewrite Hc in Hrs. destruct Hrs as [Ps ->].
  assert (Rt : match proc e (xattr_cmd app_path) with
               | Some x => if exn_eqb x CalledProcessError then Ret true else Raise x
               | None => Ret true
               end = Ret true) by (destruct Hxa as [-> | ->]; reflexivity).
  rewrite Rt in H. run_in H. injection H as <- <-.
  split; [reflexivity|]. rewrite Fs. split; [apply lookup_insert_eq|].
  split; [|split].
  - rewrite lookup_insert_ne by apply exe_ne_orig. apply lookup_insert_eq.
  - rewrite lookup_insert_ne by (apply not_eq_sym, backup_path_ne).
    rewrite lookup_insert_ne by apply orig_ne_backup_path.
    rewrite lookup_delete_ne by (apply not_eq_sym, backup_path_ne). exact Bb.
  - rewrite Ps, Pb. reflexivity.
Qed.

End CalmRuns.

(** An instance: Discord's executable is backed up. *)
Lemma backup_file_succeeds_witness :
  fs Sample.installed !! Sample.discord_exe = Some (File "MACH-O discord" 493) /\
  fst (backup_file Sample.calm Sample.discord_exe Sample.installed) = Ret true /\
  fs (snd (backup_file Sample.calm Sample.discord_exe Sample.installed))
    !! "/Applications/Discord.app/Contents/MacOS/Backups/Discord.backup_20240307_090542"
  = Some (File "MACH-O discord" 493).
Proof.
  assert (H : fs Sample.installed !! Sample.discord_exe
              = Some (File "MACH-O discord" 493)) by (vm_compute; reflexivity).
  assert (NF : forall c m, fs Sample.installed !! backup_dir_of Sample.discord_exe
                           <> Some (File c m))
    by (intros c m; vm_compute; discriminate).
  assert (ND : fs Sample.installed
               !! backup_path_of Sample.calm Sample.discord_exe <> Some Dir)
    by (vm_compute; discriminate).
  split; [exact H|].
  destruct (backup_file_succeeds Sample.calm (fun _ => eq_refl)
              Sample.discord_exe "MACH-O discord" 493 Sample.installed H NF ND)
    as (R & B & _).
  split; [exact R | exact B].
Defined.

(** An instance: a directory that does not exist yet. *)
Lemma ensure_dir_outcome_witness :
  fs Sample.installed !! "/opt/tools" = None /\
  fst (ensure_dir Sample.calm "/opt/tools" Sample.installed) = Ret tt /\
  fs (snd (ensure_dir Sample.calm "/opt/tools" Sample.installed)) !! "/opt/tools"
  = Some Dir /\
  ensure_dir Sample.calm INSTALL_DIR Sample.installed = (Ret tt, Sample.installed).
Proof.
  assert (N : fs Sample.installed !! "/opt/tools" = None)
    by (vm_compute; reflexivity).
  assert (B1 : Str.basename "/opt/tools" <> "") by (vm_compute; discriminate).
  assert (B2 : Str.basename "/opt/tools" <> ".") by (vm_compute; discriminate).
  assert (S : is_Some (fs Sample.installed !! INSTALL_DIR))
    by (vm_compute; eauto).
  split; [exact N|].
  destruct (proj2 (ensure_dir_outcome Sample.calm (fun _ => eq_refl)
                     "/opt/tools" Sample.installed) N B1 B2) as (R & D & _).
  split; [exact R|]. split; [exact D|].
  exact (proj1 (ensure_dir_outcome Sample.calm (fun _ => eq_refl)
                  INSTALL_DIR Sample.installed) S).
Defined.

(** An instance: Discord is patched while [xattr] fails. *)
Lemma patch_in_bundle_succeeds_witness :
  unpatched Sample.discord_path Sample.discord (File "MACH-O discord" 493)
    Sample.installed /\
  proc Sample.quarantined (xattr_cmd Sample.discord_path)
  = Some CalledProcessError /\
  fst (patch_in_bundle Sample.quarantined Sample.discord_path Sample.discord
         Sample.installed) = Ret true /\
  fs (snd (patch_in_bundle Sample.quarantined Sample.discord_path Sample.discord
             Sample.installed))
    !! original_executable_of Sample.discord_path Sample.discord
  = Some (File "MACH-O discord" 493).
Proof.
  assert (U : unpatched Sample.discord_path Sample.discord
                (File "MACH-O discord" 493) Sample.installed)
    by (split; vm_compute; reflexivity).
  assert (X : proc Sample.quarantined (xattr_cmd Sample.discord_path)
              = Some CalledProcessError) by (vm_compute; reflexivity).
  assert (NF : forall c m,
             fs Sample.installed
             !! backup_dir_of (executable_path_of Sample.discord_path Sample.discord)
             <> Some (File c m)) by (intros c m; vm_compute; discriminate).
  assert (ND : fs Sample.installed
               !! backup_path_of Sample.quarantined
                    (executable_path_of Sample.discord_path Sample.discord)
               <> Some Dir) by (vm_compute; discriminate).
  split; [exact U|]. split; [exact X|].
  destruct (patch_in_bundle_succeeds Sample.quarantined (fun _ => eq_refl)
              Sample.discord_path Sample.discord Sample.installed
              "MACH-O discord" 493 eq_refl (or_intror X) U NF ND)
    as (R & _ & O & _).
  split; [exact R | exact O].
Defined.
